(** * PaperMemoFlow: the summarisation pipeline of [src/pipeline.py]

    A shallow embedding of [pipeline.py] (with the constants of [config.py])
    and the properties of its chunker, Model Client, response parser and
    orchestrator.

    Conventions.
    - A Python [str] is a list of Unicode code points ([pystr]); [py "..."]
      turns an ASCII literal into one.
    - A Python [int] is a [Z].
    - The [while] loop of [_chunk_text] is run with fuel: [None] means that
      the fuel ran out before the loop left.
    - Calls that can raise return a [pyres]. *)

From Stdlib Require Import ZArith NArith List Lia Bool Ascii String DecimalString.
From Stdlib Require Import FunInd.
Import ListNotations.
Local Open Scope Z_scope.
Set Warnings "-register-all".

(* ------------------------------------------------------------------ *)
(** ** Python strings *)

Module PyStr.

Definition pystr := list N.

(** An ASCII literal as a [str]. *)
Definition py (s : string) : pystr := map N_of_ascii (list_ascii_of_string s).

Definition len {A} (l : list A) : Z := Z.of_nat (List.length l).

Definition str_eqb (a b : pystr) : bool :=
  if list_eq_dec N.eq_dec a b then true else false.

(** [str.isspace] on one code point (CPython's [_PyUnicode_IsWhitespace]);
    the same set is what [\s] matches in a [str] pattern and what
    [str.split()] and [str.strip()] treat as white space. *)
Definition isspace (c : N) : bool :=
  ((9 <=? c) && (c <=? 13) || (28 <=? c) && (c <=? 32) || (c =? 133)
   || (c =? 160) || (c =? 5760) || (8192 <=? c) && (c <=? 8202)
   || (c =? 8232) || (c =? 8233) || (c =? 8239) || (c =? 8287)
   || (c =? 12288))%N.

(** [sep.join(parts)] *)
Fixpoint join (sep : pystr) (parts : list pystr) : pystr :=
  match parts with
  | [] => []
  | [p] => p
  | p :: rest => p ++ sep ++ join sep rest
  end.

(** [s.split()]: the scan of [str.split] without a separator, left to
    right; [cur] is the word being read. *)
Fixpoint split_from (s : pystr) (cur : pystr) : list pystr :=
  match s with
  | [] => match cur with [] => [] | _ => [cur] end
  | c :: s' =>
      if isspace c
      then match cur with
           | [] => split_from s' []
           | _ => cur :: split_from s' []
           end
      else split_from s' (cur ++ [c])
  end.

Definition split (s : pystr) : list pystr := split_from s [].

Fixpoint lstrip (s : pystr) : pystr :=
  match s with
  | c :: s' => if isspace c then lstrip s' else s
  | [] => []
  end.

Fixpoint rstrip (s : pystr) : pystr :=
  match s with
  | [] => []
  | c :: s' =>
      match rstrip s' with
      | [] => if isspace c then [] else [c]
      | r => c :: r
      end
  end.

(** [s.strip()] *)
Definition strip (s : pystr) : pystr := rstrip (lstrip s).

(** [s[:n]] for [0 <= n]. *)
Definition prefix (n : nat) (s : pystr) : pystr := firstn n s.

(** [l[a:b]] with Python's treatment of negative and out-of-range bounds. *)
Definition py_slice {A} (l : list A) (a b : Z) : list A :=
  let n := len l in
  let clamp x := if x <? 0 then Z.max 0 (x + n) else Z.min x n in
  let lo := clamp a in
  let hi := clamp b in
  firstn (Z.to_nat (hi - lo)) (skipn (Z.to_nat lo) l).

(** [str(n)] for an [int]. *)
Definition str_of_int (n : Z) : pystr := py (NilZero.string_of_int (Z.to_int n)).

(** [s.startswith(p)], returning what follows the prefix. *)
Fixpoint strip_prefix (p s : pystr) : option pystr :=
  match p, s with
  | [], _ => Some s
  | a :: p', b :: s' => if (a =? b)%N then strip_prefix p' s' else None
  | _ :: _, [] => None
  end.

(** [needle in s] *)
Fixpoint contains (needle s : pystr) : bool :=
  match strip_prefix needle s with
  | Some _ => true
  | None => match s with
            | [] => false
            | _ :: s' => contains needle s'
            end
  end.

(** [s.lower()], exact on code points below 256 (A-Z, and the Latin-1
    capitals but the multiplication sign); code points above are left as
    they are. *)
Definition lower_char (c : N) : N :=
  (if (65 <=? c) && (c <=? 90) then c + 32
   else if (192 <=? c) && (c <=? 222) && negb (c =? 215) then c + 32
   else c)%N.

Definition lower (s : pystr) : pystr := map lower_char s.

End PyStr.
Import PyStr.

(* ------------------------------------------------------------------ *)
(** ** config.py *)

Definition MAIN_MODEL : pystr := py "claude-opus-4-5".
Definition CHUNK_MODEL : pystr := py "claude-haiku-4-5-20251001".
Definition CHUNK_SIZE : Z := 3000.
Definition CHUNK_OVERLAP : Z := 200.

(* ------------------------------------------------------------------ *)
(** ** The chunker *)

Definition space : pystr := py " ".

(** One turn of the [while] loop of [_chunk_text], with the chunk size and
    the overlap as parameters, from the cursor [i] and the list [chunks]
    built so far: [inl] is the state the next turn starts from, [inr] the
    list the function returns. *)
Definition chunk_step (size overlap : Z) (words : list pystr)
    (st : Z * list pystr) : (Z * list pystr) + list pystr :=
  let '(i, chunks) := st in
  if i <? len words then
    let chunk_words := py_slice words i (i + size) in
    let chunks' := chunks ++ [join space chunk_words] in
    if i + size >=? len words then inr chunks'
    else inl (i + (size - overlap), chunks')
  else inr chunks.

(** The loop: at most [fuel] turns. *)
Fixpoint chunk_loop (fuel : nat) (size overlap : Z) (words : list pystr)
    (st : Z * list pystr) : option (list pystr) :=
  match fuel with
  | O => None
  | S fuel' =>
      match chunk_step size overlap words st with
      | inr chunks => Some chunks
      | inl st' => chunk_loop fuel' size overlap words st'
      end
  end.

(** [_chunk_text] for a given chunk size and overlap. *)
Definition chunk_text_with (fuel : nat) (size overlap : Z) (text : pystr)
    : option (list pystr) :=
  chunk_loop fuel size overlap (split text) (0, []).

(** [_chunk_text]: the loop at [CHUNK_SIZE] and [CHUNK_OVERLAP].  The fuel
    given is enough ([chunk_text_returns] below), so the [None] branch is
    never taken. *)
Definition _chunk_text (text : pystr) : list pystr :=
  match chunk_text_with (S (List.length (split text))) CHUNK_SIZE CHUNK_OVERLAP text with
  | Some chunks => chunks
  | None => []
  end.

(* ------------------------------------------------------------------ *)
(** ** Prompts *)

Definition nl : pystr := [10%N].

(** A literal of the source in which each double quote is written as an
    apostrophe (the prompts hold no apostrophe). *)
Definition pyq (s : string) : pystr :=
  map (fun c => if (c =? 39)%N then 34%N else c) (py s).

Definition em_dash : pystr := [8212%N].

Definition _JSON_SCHEMA : pystr :=
  join nl
    [ py "{";
      pyq "  'title': 'string',";
      pyq "  'summary': 'string (1-2 paragraphs, max 150 words)',";
      pyq "  'contributions': [{'label': 'string', 'text': 'string'}],";
      pyq "  'limitations': [{'label': 'string', 'text': 'string'}],";
      pyq "  'question': 'string'";
      py "}" ].

Definition _JSON_RULES : pystr :=
  join nl
    [ py "Rules:";
      py "- contributions: 2 to 4 items";
      py "- limitations: 1 to 3 items";
      py "- Total words across summary + contributions + limitations + question: max 500";
      py "- Return ONLY valid JSON " ++ em_dash
        ++ py " no markdown, no code fences, no explanations" ].

Definition _build_summary_prompt (text filename : pystr) : pystr :=
  join nl
    [ py "You are an academic paper summarizer.";
      [];
      py "Analyze the following paper and return a structured JSON summary with this exact schema:";
      _JSON_SCHEMA;
      [];
      pyq "The 'title' should be the actual paper title if detectable, otherwise use '"
        ++ filename ++ pyq "'.";
      _JSON_RULES;
      [];
      py "Paper text:";
      text ].

Definition _build_chunk_prompt (chunk : pystr) (chunk_num total : Z) : pystr :=
  join nl
    [ py "Summarize portion " ++ str_of_int chunk_num ++ py "/"
        ++ str_of_int total ++ py " of an academic paper.";
      py "Extract the main points, any contributions mentioned, and any limitations mentioned.";
      py "Return a concise paragraph of at most 100 words.";
      py "Return ONLY the summary text, no labels or JSON.";
      [];
      py "Text:";
      chunk ].

Definition _build_consolidation_prompt (summaries filename : pystr) : pystr :=
  join nl
    [ py "You are an academic paper summarizer.";
      py "The following are partial summaries of consecutive chunks from a long academic paper.";
      [];
      py "Consolidate them into a single structured JSON summary with this exact schema:";
      _JSON_SCHEMA;
      [];
      pyq "The 'title' should be the actual paper title if detectable, otherwise use '"
        ++ filename ++ pyq "'.";
      _JSON_RULES;
      [];
      py "Partial summaries:";
      summaries ].

(* ------------------------------------------------------------------ *)
(** ** Values and exceptions *)

(** What [float(...)] is applied to stays a lexeme: no claim reads a
    float's value. *)
Inductive pyfloat :=
| FloatOf (lexeme : pystr)
| FloatNaN
| FloatInf
| FloatNegInf.

(** The values [json.loads] builds. A [dict] keeps its keys in insertion
    order. *)
Inductive pyval :=
| PyNone
| PyBool (b : bool)
| PyInt (n : Z)
| PyFloat (f : pyfloat)
| PyStr (s : pystr)
| PyList (items : list pyval)
| PyDict (pairs : list (pystr * pyval)).

Definition is_dict (v : pyval) : bool :=
  match v with PyDict _ => true | _ => false end.

(** [d[k] = v] *)
Fixpoint dict_set (d : list (pystr * pyval)) (k : pystr) (v : pyval)
    : list (pystr * pyval) :=
  match d with
  | [] => [(k, v)]
  | (k', v') :: d' =>
      if str_eqb k' k then (k', v) :: d' else (k', v') :: dict_set d' k v
  end.

(** [d.get(k)] *)
Fixpoint dict_get (d : list (pystr * pyval)) (k : pystr) : option pyval :=
  match d with
  | [] => None
  | (k', v') :: d' => if str_eqb k' k then Some v' else dict_get d' k
  end.

(** An exception: its class, [str(e)], and whether the class derives from
    [Exception] (a cancellation does not). *)
Record exn := mkExn {
  exn_class : pystr;
  exn_str : pystr;
  exn_is_Exception : bool
}.

Inductive pyres (A : Type) :=
| Ok (a : A)
| Raise (e : exn).
Arguments Ok {A} a.
Arguments Raise {A} e.

Definition ValueError (msg : pystr) : exn :=
  mkExn (py "ValueError") msg true.

(* ------------------------------------------------------------------ *)
(** ** The limits of the interpreter

    [json.loads] raises more than [JSONDecodeError].  The scanner enters
    a recursive call for every array and object, and raises a
    [RecursionError] where the interpreter has no room left for one; and
    the conversion of an [int] raises a [ValueError] when the literal has
    more digits than [sys.get_int_max_str_digits()] allows.  How much
    room there is where [json.loads] is called, what the limit on the
    digits is (0 stands for none; there is none before Python 3.11) and
    what the messages say depend on the interpreter, so they are taken as
    given.  The room is for one array or object at least. *)
Class Interpreter := {
  recursion_room : positive;
  int_max_str_digits : nat;
  recursion_message : N -> pystr;       (* by the bracket that is entered *)
  int_limit_message : nat -> pystr      (* by the number of digits *)
}.

Definition RecursionError `{Interpreter} (bracket : N) : exn :=
  mkExn (py "RecursionError") (recursion_message bracket) true.

(** The check of [PyLong_FromString] on a decimal literal of [digits]
    digits: literals of up to 640 digits are never refused. *)
Definition exceeds_int_limit `{Interpreter} (digits : nat) : bool :=
  ((640 <? digits) && (0 <? int_max_str_digits)
   && (int_max_str_digits <? digits))%nat.

(* ------------------------------------------------------------------ *)
(** ** [json.loads]

    The decoder of the standard library ([json.decoder], with the scanner
    of [_json]), on the remaining input instead of an index.  Where it
    raises a [JSONDecodeError], [_extract_json] looks at nothing of it, so
    such a scan is [Stop]; where it raises another exception, the scan is
    [Limit] with that exception. *)

Module Json.

Inductive scan (A : Type) :=
| Scanned (a : A) (rest : pystr)
| Stop
| NoFuel
| Limit (e : exn).
Arguments Scanned {A} a rest.
Arguments Stop {A}.
Arguments NoFuel {A}.
Arguments Limit {A} e.

Definition ch (a : ascii) : N := N_of_ascii a.

Definition is_digit (c : N) : bool := ((48 <=? c) && (c <=? 57))%N.

(** The white space of JSON: space, tab, line feed, carriage return. *)
Definition is_json_ws (c : N) : bool :=
  ((c =? 32) || (c =? 9) || (c =? 10) || (c =? 13))%N.

Fixpoint skip_ws (s : pystr) : pystr :=
  match s with
  | c :: s' => if is_json_ws c then skip_ws s' else s
  | [] => []
  end.

(** The longest run of digits at the head of [s], and what follows. *)
Fixpoint digits (s : pystr) : pystr * pystr :=
  match s with
  | c :: s' =>
      if is_digit c then let '(ds, r) := digits s' in (c :: ds, r)
      else ([], s)
  | [] => ([], [])
  end.

Definition int_of_digits (ds : pystr) : Z :=
  fold_left (fun acc c => 10 * acc + (Z.of_N c - 48)) ds 0.

Definition hex_value (c : N) : option N :=
  (if (48 <=? c) && (c <=? 57) then Some (c - 48)
   else if (97 <=? c) && (c <=? 102) then Some (c - 87)
   else if (65 <=? c) && (c <=? 70) then Some (c - 55)
   else None)%N.

Definition hex4 (a b c d : N) : option N :=
  match hex_value a, hex_value b, hex_value c, hex_value d with
  | Some x, Some y, Some z, Some w => Some (((x * 16 + y) * 16 + z) * 16 + w)%N
  | _, _, _, _ => None
  end.

Definition is_high_surrogate (c : N) : bool := ((55296 <=? c) && (c <=? 56319))%N.
Definition is_low_surrogate (c : N) : bool := ((56320 <=? c) && (c <=? 57343))%N.

(** The character a one-letter escape stands for. *)
Definition escape (c : N) : option N :=
  (if c =? 34 then Some 34        (* quote *)
   else if c =? 92 then Some 92   (* backslash *)
   else if c =? 47 then Some 47   (* slash *)
   else if c =? 98 then Some 8    (* b *)
   else if c =? 102 then Some 12  (* f *)
   else if c =? 110 then Some 10  (* n *)
   else if c =? 114 then Some 13  (* r *)
   else if c =? 116 then Some 9   (* t *)
   else None)%N.

(** [scanstring] in strict mode, from just after the opening quote; [acc]
    is the text decoded so far. *)
Fixpoint scanstring (s : pystr) (acc : pystr) : scan pystr :=
  match s with
  | [] => Stop                                   (* unterminated *)
  | c :: s1 =>
      if (c =? 34)%N then Scanned acc s1
      else if (c =? 92)%N then
        match s1 with
        | [] => Stop
        | e :: s2 =>
            if (e =? 117)%N then                 (* \uXXXX *)
              match s2 with
              | h1 :: h2 :: h3 :: h4 :: s3 =>
                  match hex4 h1 h2 h3 h4 with
                  | None => Stop
                  | Some u =>
                      if is_high_surrogate u then
                        match s3 with
                        | b :: u' :: l1 :: l2 :: l3 :: l4 :: s4 =>
                            if ((b =? 92) && (u' =? 117))%N then
                              match hex4 l1 l2 l3 l4 with
                              | None => Stop
                              | Some u2 =>
                                  if is_low_surrogate u2
                                  then scanstring s4
                                         (acc ++ [65536 + (u - 55296) * 1024 + (u2 - 56320)]%N)
                                  else scanstring s3 (acc ++ [u])
                              end
                            else scanstring s3 (acc ++ [u])
                        | _ => scanstring s3 (acc ++ [u])
                        end
                      else scanstring s3 (acc ++ [u])
                  end
              | _ => Stop
              end
            else
              match escape e with
              | Some x => scanstring s2 (acc ++ [x])
              | None => Stop
              end
        end
      else if (c <=? 31)%N then Stop             (* control character *)
      else scanstring s1 (acc ++ [c])
  end.

Functional Scheme scanstring_ind := Induction for scanstring Sort Prop.

(** A scan that has not run out of fuel and that, when it has scanned
    something, has left less than [s]. *)
Definition advanced {A} (x : scan A) (s : pystr) : Prop :=
  match x with
  | Scanned _ r => (List.length r < List.length s)%nat
  | Stop => True
  | NoFuel => False
  | Limit _ => True
  end.

(** The number at the head of [s]: an optional minus sign, then 0 or a
    run of digits that does not start with 0, then an optional fraction (a
    point and at least one digit), then an optional exponent (e or E, an
    optional sign, at least one digit); an [int] when it has neither
    fraction nor exponent, and then refused when it has too many
    digits. *)
Definition sign_part (s : pystr) : pystr * pystr :=
  match s with
  | c :: r => if (c =? 45)%N then ([c], r) else ([], s)
  | [] => ([], s)
  end.

Definition int_part (s : pystr) : option (pystr * pystr) :=
  match s with
  | d :: r =>
      if is_digit d then
        if (d =? 48)%N then Some ([d], r)
        else let '(ds, r') := digits r in Some (d :: ds, r')
      else None
  | [] => None
  end.

Definition frac_part (s : pystr) : pystr * pystr :=
  match s with
  | p :: r =>
      if (p =? 46)%N then
        match digits r with
        | ([], _) => ([], s)
        | (ds, r') => (p :: ds, r')
        end
      else ([], s)
  | [] => ([], s)
  end.

Definition exp_part (s : pystr) : pystr * pystr :=
  match s with
  | e :: r =>
      if ((e =? 101) || (e =? 69))%N then
        let '(sign, r1) :=
          match r with
          | g :: r' => if ((g =? 45) || (g =? 43))%N then ([g], r') else ([], r)
          | [] => ([], r)
          end in
        match digits r1 with
        | ([], _) => ([], s)
        | (ds, r2) => (e :: sign ++ ds, r2)
        end
      else ([], s)
  | [] => ([], s)
  end.

Definition match_number `{Interpreter} (s : pystr) : scan pyval :=
  let '(sign, s1) := sign_part s in
  match int_part s1 with
  | None => Stop
  | Some (int_digits, s2) =>
      let '(frac, s3) := frac_part s2 in
      let '(exp, s4) := exp_part s3 in
      match frac, exp with
      | [], [] =>
          if exceeds_int_limit (List.length int_digits)
          then Limit (ValueError (int_limit_message (List.length int_digits)))
          else
            Scanned (PyInt (match sign with
                            | [] => int_of_digits int_digits
                            | _ => - int_of_digits int_digits
                            end)) s4
      | _, _ => Scanned (PyFloat (FloatOf (sign ++ int_digits ++ frac ++ exp))) s4
      end
  end.

Section Containers.

(** The scanner for the values inside the container. *)
Variable scan_value : pystr -> scan pyval.

(** The loop of [JSONArray]: [s] is at the start of a value. *)
Fixpoint array_items (fuel : nat) (s : pystr) (values : list pyval)
    : scan pyval :=
  match fuel with
  | O => NoFuel
  | S fuel' =>
      match scan_value s with
      | Scanned v r =>
          match skip_ws r with
          | c :: r' =>
              if (c =? ch "]")%N then Scanned (PyList (values ++ [v])) r'
              else if (c =? ch ",")%N
              then array_items fuel' (skip_ws r') (values ++ [v])
              else Stop
          | [] => Stop
          end
      | Stop => Stop
      | NoFuel => NoFuel
      | Limit e => Limit e
      end
  end.

(** [JSONArray], from just after the bracket. *)
Definition parse_array (fuel : nat) (s : pystr) : scan pyval :=
  match skip_ws s with
  | c :: r =>
      if (c =? ch "]")%N then Scanned (PyList []) r
      else array_items fuel (c :: r) []
  | [] => Stop
  end.

(** The loop of [JSONObject]: [s] is where a key has to start. *)
Fixpoint object_pairs (fuel : nat) (s : pystr) (d : list (pystr * pyval))
    : scan pyval :=
  match fuel with
  | O => NoFuel
  | S fuel' =>
      match s with
      | q :: s1 =>
          if negb (q =? 34)%N then Stop
          else
            match scanstring s1 [] with
            | Scanned key r =>
                match skip_ws r with
                | c :: r1 =>
                    if negb (c =? ch ":")%N then Stop
                    else
                      match scan_value (skip_ws r1) with
                      | Scanned v r2 =>
                          match skip_ws r2 with
                          | c2 :: r3 =>
                              if (c2 =? ch "}")%N
                              then Scanned (PyDict (dict_set d key v)) r3
                              else if (c2 =? ch ",")%N
                              then object_pairs fuel' (skip_ws r3) (dict_set d key v)
                              else Stop
                          | [] => Stop
                          end
                      | Stop => Stop
                      | NoFuel => NoFuel
                      | Limit e => Limit e
                      end
                | [] => Stop
                end
            | Stop => Stop
            | NoFuel => NoFuel
            | Limit e => Limit e
            end
      | [] => Stop
      end
  end.

(** [JSONObject], from just after the brace. *)
Definition parse_object (fuel : nat) (s : pystr) : scan pyval :=
  match skip_ws s with
  | c :: r =>
      if (c =? ch "}")%N then Scanned (PyDict []) r
      else object_pairs fuel (c :: r) []
  | [] => Stop
  end.

End Containers.

(** [scan_once]; [room] counts the arrays and objects that can still be
    entered. *)
Fixpoint scan_once `{Interpreter} (fuel : nat) (room : nat) (s : pystr)
    : scan pyval :=
  match fuel with
  | O => NoFuel
  | S fuel' =>
      match s with
      | [] => Stop
      | c :: r =>
          if (c =? 34)%N then
            match scanstring r [] with
            | Scanned str r' => Scanned (PyStr str) r'
            | Stop => Stop
            | NoFuel => NoFuel
            | Limit e => Limit e
            end
          else if (c =? ch "{")%N then
            match room with
            | O => Limit (RecursionError c)
            | S room' => parse_object (scan_once fuel' room') fuel' r
            end
          else if (c =? ch "[")%N then
            match room with
            | O => Limit (RecursionError c)
            | S room' => parse_array (scan_once fuel' room') fuel' r
            end
          else
            match strip_prefix (py "null") s,
                  strip_prefix (py "true") s,
                  strip_prefix (py "false") s with
            | Some r', _, _ => Scanned PyNone r'
            | _, Some r', _ => Scanned (PyBool true) r'
            | _, _, Some r' => Scanned (PyBool false) r'
            | None, None, None =>
                match strip_prefix (py "NaN") s,
                      strip_prefix (py "Infinity") s,
                      strip_prefix (py "-Infinity") s with
                | Some r', _, _ => Scanned (PyFloat FloatNaN) r'
                | _, Some r', _ => Scanned (PyFloat FloatInf) r'
                | _, _, Some r' => Scanned (PyFloat FloatNegInf) r'
                | None, None, None => match_number s
                end
            end
      end
  end.

(** [JSONDecoder.decode]: one value, white space around it, nothing else. *)
Definition decode `{Interpreter} (fuel : nat) (s : pystr) : scan pyval :=
  match scan_once fuel (Pos.to_nat recursion_room) (skip_ws s) with
  | Scanned v r =>
      match skip_ws r with
      | [] => Scanned v []
      | _ :: _ => Stop                           (* extra data *)
      end
  | Stop => Stop
  | NoFuel => NoFuel
  | Limit e => Limit e
  end.

(** What [json.loads] does: it returns a value, raises a
    [JSONDecodeError], or raises another exception. *)
Inductive decoded :=
| Decoded (v : pyval)
| DecodeError
| LimitError (e : exn).

(** [json.loads(s)].  Every call of the scanner is on a shorter input,
    so the fuel given is enough ([decode_fuel] below). *)
Definition loads `{Interpreter} (s : pystr) : decoded :=
  match s with
  | 65279%N :: _ => DecodeError                  (* byte order mark *)
  | _ =>
      match decode (S (List.length s)) s with
      | Scanned v _ => Decoded v
      | Limit e => LimitError e
      | _ => DecodeError
      end
  end.

End Json.

(* ------------------------------------------------------------------ *)
(** ** The response parser *)

Definition fence : pystr := py "```".

Definition backquote : pystr := py "`".

(** [re.sub(FENCE, "", s)] for the pattern of [_extract_json]: three
    backquotes, then [json] if it is there, then all the white space that
    follows.  Matches are taken left to right and do not overlap; the
    pattern needs no backtracking. Each step takes at least one character
    off [s], so [length s] is fuel enough. *)
Fixpoint sub_fence (fuel : nat) (s : pystr) : pystr :=
  match fuel with
  | O => []
  | S fuel' =>
      match strip_prefix fence s with
      | Some r =>
          let r' := match strip_prefix (py "json") r with
                    | Some after_tag => after_tag
                    | None => r
                    end in
          sub_fence fuel' (lstrip r')
      | None =>
          match s with
          | [] => []
          | c :: s' => c :: sub_fence fuel' s'
          end
      end
  end.

Definition re_sub_fence (s : pystr) : pystr := sub_fence (List.length s) s.

(** The suffix of [s] that starts at its first opening brace. *)
Fixpoint from_first_open (s : pystr) : option pystr :=
  match s with
  | [] => None
  | c :: s' => if (c =? Json.ch "{")%N then Some s else from_first_open s'
  end.

(** The longest prefix of [s] that ends in a closing brace. *)
Fixpoint upto_last_close (s : pystr) : option pystr :=
  match s with
  | [] => None
  | c :: s' =>
      match upto_last_close s' with
      | Some p => Some (c :: p)
      | None => if (c =? Json.ch "}")%N then Some [c] else None
      end
  end.

(** [re.search(BRACES, s)] for the pattern of [_extract_json], an opening
    brace, any characters, a closing brace: the match, if any, runs from
    the first opening brace to the last closing brace after it. *)
Definition re_search_braces (s : pystr) : option pystr :=
  match from_first_open s with
  | Some (b :: t) =>
      match upto_last_close t with
      | Some p => Some (b :: p)
      | None => None
      end
  | _ => None
  end.

Definition parse_error_message (text : pystr) : pystr :=
  py "Could not parse JSON from Claude response:" ++ nl ++ prefix 400 text.

Definition fence_clean (text : pystr) : pystr := strip (re_sub_fence text).

(** What fence cleaning is to do, read off the regular expression:
    [fences_removed text kept] holds when [kept] is [text] without its
    fence markers.  A marker starts at the first run of three backquotes
    of the text that is left, and holds the three backquotes, the tag
    [json] if it follows them, and all the white space after that.  What
    stands before a marker, and what follows the last one, is kept as it
    is. *)
Inductive fences_removed : pystr -> pystr -> Prop :=
| removed_none (s : pystr) :
    contains fence s = false -> fences_removed s s
| removed_marker (before tag space rest kept : pystr) :
    contains fence (before ++ backquote ++ backquote) = false ->
    tag = py "json"
    \/ (tag = [] /\ strip_prefix (py "json") (space ++ rest) = None) ->
    forallb isspace space = true ->
    lstrip rest = rest ->
    fences_removed rest kept ->
    fences_removed (before ++ fence ++ tag ++ space ++ rest) (before ++ kept).

(** Only a [JSONDecodeError] is caught: another exception of
    [json.loads] goes through. *)
Definition _extract_json `{Interpreter} (text : pystr) : pyres pyval :=
  let cleaned := fence_clean text in
  match Json.loads cleaned with
  | Json.Decoded v => Ok v
  | Json.LimitError e => Raise e
  | Json.DecodeError =>
      match re_search_braces cleaned with
      | Some group =>
          match Json.loads group with
          | Json.Decoded v => Ok v
          | Json.LimitError e => Raise e
          | Json.DecodeError => Raise (ValueError (parse_error_message text))
          end
      | None => Raise (ValueError (parse_error_message text))
      end
  end.

(* ------------------------------------------------------------------ *)
(** ** Effects

    A computation runs in a world [W] and returns or raises. *)

Definition M (W A : Type) : Type := W -> pyres A * W.

Definition ret {W A} (a : A) : M W A := fun w => (Ok a, w).

Definition bind {W A B} (m : M W A) (k : A -> M W B) : M W B :=
  fun w =>
    match m w with
    | (Ok a, w') => k a w'
    | (Raise e, w') => (Raise e, w')
    end.

Definition lift {W A} (r : pyres A) : M W A := fun w => (r, w).

Definition act {W} (f : W -> W) : M W unit := fun w => (Ok tt, f w).

Declare Scope py_scope.
Delimit Scope py_scope with py.
Notation "x <- m ;; k" := (bind m (fun x => k))
  (at level 61, m at next level, right associativity) : py_scope.
Notation "m ;; k" := (bind m (fun _ => k))
  (at level 61, right associativity) : py_scope.

(** A message of the SDK has a [content] or has none; a block of the
    content has a [text] or has none. *)
Inductive block :=
| TextBlock (text : pystr)
| OtherBlock.

Inductive message :=
| WithContent (content : list block)
| NoContent.

(** What one iteration over [query(...)] gives: the messages it yields
    and the exception that ends it, if one does. *)
Record stream := mkStream {
  yielded : list message;
  raised : option exn
}.

(** The SDK and the event loop. *)
Class Sdk (W : Type) := {
  sdk_query : pystr -> pystr -> Z -> W -> stream * W;
  asyncio_sleep : Z -> W -> W
}.

(** The [logging] module. *)
Class Logging (W : Type) := {
  logging_warning : pystr -> W -> W;
  logging_info : pystr -> W -> W
}.

(** The Model Client as the orchestrator calls it:
    [_query_claude(prompt, model)]. *)
Class ModelClient (W : Type) := {
  query_claude : pystr -> pystr -> M W pystr
}.

(** [range(n)] *)
Definition py_range (n : Z) : list Z := map Z.of_nat (seq 0 (Z.to_nat n)).

(** [enumerate(l)] *)
Definition enumerate {A} (l : list A) : list (Z * A) :=
  combine (py_range (len l)) l.

(* ------------------------------------------------------------------ *)
(** ** The Model Client *)

Definition rate_limit_warning (wait attempt retries : Z) : pystr :=
  py "Rate limited " ++ em_dash ++ py " waiting " ++ str_of_int wait
    ++ py "s before retry " ++ str_of_int (attempt + 2) ++ py "/"
    ++ str_of_int retries ++ py "...".

(** The [parts] of one attempt. *)
Definition text_parts (messages : list message) : list pystr :=
  flat_map
    (fun m =>
       match m with
       | WithContent content =>
           flat_map (fun b => match b with
                              | TextBlock text => [text]
                              | OtherBlock => []
                              end) content
       | NoContent => []
       end)
    messages.

Definition is_rate_limit (e : exn) : bool :=
  contains (py "rate_limit") (lower (exn_str e)).

Section Client.

Context {W : Type} `{Sdk W} `{Logging W}.

(** The [for attempt in range(retries)] loop; [todo] holds the attempts
    still to make. *)
Fixpoint attempts (todo : list Z) (prompt model : pystr) (retries : Z)
    : M W pystr :=
  match todo with
  | [] => ret []
  | attempt :: todo' =>
      fun w =>
        let '(s, w1) := sdk_query prompt model 1 w in
        match raised s with
        | None => (Ok (strip (join [] (text_parts (yielded s)))), w1)
        | Some e =>
            if exn_is_Exception e then
              if is_rate_limit e && (attempt <? retries - 1) then
                let wait := 60 * (attempt + 1) in
                let w2 := logging_warning
                            (rate_limit_warning wait attempt retries) w1 in
                attempts todo' prompt model retries (asyncio_sleep wait w2)
              else (Raise e, w1)
            else (Raise e, w1)
        end
  end.

Definition _query_claude (prompt model : pystr) (retries : Z) : M W pystr :=
  attempts (py_range retries) prompt model retries.

End Client.

(** The client of [pipeline.py]: [retries] at its default. *)
#[export] Instance pipeline_client {W : Type} `{Sdk W} `{Logging W}
    : ModelClient W :=
  {| query_claude prompt model := _query_claude prompt model 3 |}.

(* ------------------------------------------------------------------ *)
(** ** The orchestrator *)

Section Orchestrator.

Context {W : Type} `{ModelClient W} `{Logging W} `{Interpreter}.
Local Open Scope py_scope.

Definition info (msg : pystr) : M W unit := act (logging_info msg).

(** The loop over [enumerate(chunks)]; [total] is [len(chunks)]. *)
Fixpoint summarise_chunks (items : list (Z * pystr)) (total : Z)
    (chunk_summaries : list pystr) : M W (list pystr) :=
  match items with
  | [] => ret chunk_summaries
  | (i, c) :: items' =>
      info (py "Summarising chunk " ++ str_of_int (i + 1) ++ py "/"
              ++ str_of_int total ++ py "...") ;;
      summary <- query_claude (_build_chunk_prompt c (i + 1) total) CHUNK_MODEL ;;
      summarise_chunks items' total (chunk_summaries ++ [summary])
  end.

Definition run_pipeline (text filename : pystr) : M W pyval :=
  let word_count := len (split text) in
  response <-
    (if word_count >? CHUNK_SIZE then
       info (py "Text exceeds " ++ str_of_int CHUNK_SIZE ++ py " words ("
               ++ str_of_int word_count ++ py "), chunking...") ;;
       let chunks := _chunk_text text in
       info (py "Split into " ++ str_of_int (len chunks) ++ py " chunks") ;;
       chunk_summaries <- summarise_chunks (enumerate chunks) (len chunks) [] ;;
       let consolidated := join (nl ++ nl) chunk_summaries in
       info (py "Consolidating chunk summaries with main model...") ;;
       query_claude (_build_consolidation_prompt consolidated filename) MAIN_MODEL
     else
       query_claude (_build_summary_prompt text filename) MAIN_MODEL) ;;
  info (py "Summary generated") ;;
  lift (_extract_json response).

End Orchestrator.

(* ------------------------------------------------------------------ *)
(** ** Recorded runs

    The worlds the properties below are stated in: a run is recorded as
    the list of its events, oldest first, and what the outside answers is
    a script, a function of how many calls were made before. *)

Inductive event :=
| Query (prompt model : pystr) (max_turns : Z)   (* a call of the SDK's [query] *)
| Sleep (seconds : Z)                            (* [asyncio.sleep] *)
| Warning (msg : pystr)                          (* [logging.warning] *)
| Info (msg : pystr)                             (* [logging.info] *)
| ClientCall (prompt model : pystr).             (* a call of the Model Client *)

Definition trace := list event.

Definition is_query (e : event) : bool :=
  match e with Query _ _ _ => true | _ => false end.

Definition queries_made (t : trace) : nat := List.length (filter is_query t).

(** The calls of the Model Client in a trace: (prompt, model), in order. *)
Definition client_calls (t : trace) : list (pystr * pystr) :=
  flat_map (fun e => match e with
                     | ClientCall prompt model => [(prompt, model)]
                     | _ => []
                     end) t.

(** The sleeps in a trace, in order. *)
Definition sleeps (t : trace) : list Z :=
  flat_map (fun e => match e with Sleep s => [s] | _ => [] end) t.

Definition recorded_logging : Logging trace :=
  {| logging_warning msg t := t ++ [Warning msg];
     logging_info msg t := t ++ [Info msg] |}.

(** A backend that answers its [n]-th query (from 0) with
    [backend n prompt model]. *)
Definition scripted_sdk (backend : nat -> pystr -> pystr -> stream)
    : Sdk trace :=
  {| sdk_query prompt model max_turns t :=
       (backend (queries_made t) prompt model,
        t ++ [Query prompt model max_turns]);
     asyncio_sleep seconds t := t ++ [Sleep seconds] |}.

(** A Model Client that answers its [n]-th call (from 0) with
    [answers n prompt model]. *)
Definition scripted_client (answers : nat -> pystr -> pystr -> pyres pystr)
    : ModelClient trace :=
  {| query_claude prompt model t :=
       (answers (List.length (client_calls t)) prompt model,
        t ++ [ClientCall prompt model]) |}.

(** [_query_claude] against a scripted backend. *)
Definition query_on (backend : nat -> pystr -> pystr -> stream)
    (prompt model : pystr) (retries : Z) : M trace pystr :=
  @_query_claude trace (scripted_sdk backend) recorded_logging
    prompt model retries.

(** [run_pipeline] against a scripted Model Client. *)
Definition pipeline_on `{Interpreter}
    (answers : nat -> pystr -> pystr -> pyres pystr)
    (text filename : pystr) : M trace pyval :=
  @run_pipeline trace (scripted_client answers) recorded_logging _
    text filename.

(** [run_pipeline] with [_query_claude] against a scripted backend. *)
Definition pipeline_on_backend `{Interpreter}
    (backend : nat -> pystr -> pystr -> stream)
    (text filename : pystr) : M trace pyval :=
  @run_pipeline trace
    (@pipeline_client trace (scripted_sdk backend) recorded_logging)
    recorded_logging _ text filename.

(* ------------------------------------------------------------------ *)
(** ** Notions the properties are stated with *)

(** The least integer not below [a / b], for [0 < b]. *)
Definition ceil_div (a b : Z) : Z := - ((- a) / b).

(** Word [j] lies in the range [[k * step, k * step + size)] that chunk
    [k] spans, with [step = size - overlap]. *)
Definition in_chunk (size overlap k j : Z) : Prop :=
  k * (size - overlap) <= j < k * (size - overlap) + size.

(** Word [j] is one of the first [overlap] words of a chunk [k >= 1] out
    of [n]: the words that chunk repeats from the one before. *)
Definition in_overlap (size overlap n j : Z) : Prop :=
  exists k, 1 <= k < n /\
    k * (size - overlap) <= j < k * (size - overlap) + overlap.

(** The chunk that starts at word [i]. *)
Definition chunk_at (size : Z) (words : list pystr) (i : Z) : pystr :=
  join space (py_slice words i (i + size)).

(** The cursors of [n] chunks from [i] on. *)
Definition starts (step i : Z) (n : nat) : list Z :=
  map (fun k => i + Z.of_nat k * step) (seq 0 n).

(** The number of chunks of [L] words. *)
Definition chunk_count (size overlap L : Z) : Z :=
  if L <=? 0 then 0
  else if L <=? size then 1
  else ceil_div (L - overlap) (size - overlap).

(** A word: not empty, no white space in it. *)
Definition is_word (w : pystr) : bool :=
  match w with
  | [] => false
  | _ :: _ => forallb (fun c => negb (isspace c)) w
  end.

(** What [_query_claude] does on the attempts [first .. first + k - 1]
    when each of them is rate limited and is not the last: the query, the
    warning, the sleep of 60 seconds times the attempt's number from 1. *)
Definition backoff_events (prompt model : pystr) (retries : Z)
    (first k : nat) : trace :=
  flat_map
    (fun i =>
       let attempt := Z.of_nat i in
       [ Query prompt model 1;
         Warning (rate_limit_warning (60 * (attempt + 1)) attempt retries);
         Sleep (60 * (attempt + 1)) ])
    (seq first k).

(** The backend raises a rate-limit error, an [Exception], on its [i]-th
    query. *)
Definition rate_limited (backend : nat -> pystr -> pystr -> stream)
    (prompt model : pystr) (i : nat) : Prop :=
  exists e, raised (backend i prompt model) = Some e
            /\ exn_is_Exception e = true /\ is_rate_limit e = true.

(** What an exception does to the rest of a computation. *)
Definition and_then {A B} (r : pyres A) (k : A -> pyres B) : pyres B :=
  match r with
  | Ok a => k a
  | Raise e => Raise e
  end.

(* ------------------------------------------------------------------ *)
(** ** Sample inputs *)

(** The interpreter of the sample runs: CPython with its usual limits,
    room for a thousand arrays and objects and 4300 digits, and the
    messages of its scanner and of [int]. *)
#[export] Instance cpython : Interpreter :=
  {| recursion_room := 1000;
     int_max_str_digits := 4300;
     recursion_message := fun bracket =>
       py "maximum recursion depth exceeded while decoding a JSON "
       ++ (if (bracket =? Json.ch "{")%N then py "object" else py "array")
       ++ py " from a unicode string";
     int_limit_message := fun digits =>
       py "Exceeds the limit (4300 digits) for integer string conversion: "
       ++ py "value has " ++ str_of_int (Z.of_nat digits)
       ++ py " digits; use sys.set_int_max_str_digits() to increase the limit" |}.

(** A text of [n] words. *)
Definition sample_text (n : Z) : pystr :=
  join space (repeat (py "w") (Z.to_nat n)).

Definition sample_short : pystr := py "a short paper".

Definition sample_long : pystr := sample_text 3001.

Definition sample_7000 : pystr := sample_text 7000.

(** A Model Client that answers every call with an empty object. *)
Definition sample_answers (n : nat) (prompt model : pystr) : pyres pystr :=
  Ok (py "{}").

Definition rate_limit_error : exn :=
  mkExn (py "MessageParseError")
        (py "Unknown message type: rate_limit_event") true.

Definition connection_error : exn :=
  mkExn (py "CLIConnectionError") (py "Failed to start Claude Code") true.

Definition sample_messages : list message :=
  [ NoContent;
    WithContent [TextBlock (py " {}"); OtherBlock];
    WithContent [TextBlock (py " ")] ].

(** A backend that is rate limited twice, then answers. *)
Definition sample_backend (n : nat) (prompt model : pystr) : stream :=
  match n with
  | 0%nat | 1%nat => mkStream [] (Some rate_limit_error)
  | _ => mkStream sample_messages None
  end.

(** A backend that is down. *)
Definition failing_backend (n : nat) (prompt model : pystr) : stream :=
  mkStream [] (Some connection_error).

(** The answer of the spec's first scenario. *)
Definition scenario_response : pystr :=
  pyq "{'title':'X','summary':'S','contributions':[{'label':'A','text':'B'}],'limitations':[{'label':'C','text':'D'}],'question':'Q?'}".

(** A backend that answers every query with [scenario_response]. *)
Definition scenario_backend (n : nat) (prompt model : pystr) : stream :=
  mkStream [WithContent [TextBlock scenario_response]] None.

(** The models of the queries in a trace, in order. *)
Definition query_models (t : trace) : list pystr :=
  flat_map (fun e => match e with Query _ model _ => [model] | _ => [] end) t.

(** Goals that hold by evaluation. *)
Ltac compute_it := vm_compute; repeat split; (reflexivity || discriminate).

(** The same for any interpreter, on values nested one deep at most: the
    room is for one array or object at least. *)
Ltac compute_with_room :=
  match goal with
  | H : Interpreter |- _ =>
      let n := fresh "n" in
      let Hroom := fresh "Hroom" in
      destruct H as [room ? ? ?];
      destruct (Pos2Nat.is_succ room) as [n Hroom];
      unfold _extract_json, Json.loads, Json.decode;
      cbn [recursion_room]; rewrite ?Hroom; compute_it
  end.

(* ------------------------------------------------------------------ *)
(** ** Notions of the further properties *)

(** The words of chunk [k]: [words[k * step : k * step + size]]. *)
Definition chunk_words_at (size overlap : Z) (words : list pystr) (k : nat)
    : list pystr :=
  py_slice words (Z.of_nat k * (size - overlap))
           (Z.of_nat k * (size - overlap) + size).

(** The sum of a list of integers. *)
Definition total (l : list Z) : Z := fold_right Z.add 0 l.

(* ------------------------------------------------------------------ *)
(** ** Failures of the interpreter

    An exception the code raises itself, or a library does, is an [exn]
    with its message.  What the interpreter raises on a wrong access is
    kept by its class (and the key, for a [KeyError]): its message is the
    interpreter's and differs between versions. *)

Inductive fault :=
| Raised (e : exn)
| KeyError (key : pyval)
| IndexError
| TypeError
| AttributeError.

Inductive outcome (A : Type) :=
| Done (a : A)
| Failed (f : fault).
Arguments Done {A} a.
Arguments Failed {A} f.

Definition outcome_bind {A B} (o : outcome A) (k : A -> outcome B) : outcome B :=
  match o with
  | Done a => k a
  | Failed f => Failed f
  end.

Declare Scope outcome_scope.
Delimit Scope outcome_scope with outcome.
Notation "x <- m ;; k" := (outcome_bind m (fun x => k))
  (at level 61, m at next level, right associativity) : outcome_scope.

(** [except Exception] catches the fault. *)
Definition fault_is_Exception (f : fault) : bool :=
  match f with
  | Raised e => exn_is_Exception e
  | _ => true
  end.

(** [v[key]] for a [str] key. *)
Definition subscript (v : pyval) (key : pystr) : outcome pyval :=
  match v with
  | PyDict d =>
      match dict_get d key with
      | Some x => Done x
      | None => Failed (KeyError (PyStr key))
      end
  | _ => Failed TypeError
  end.

(** What [for item in v] goes through: the items of a [list], the keys
    of a [dict], the characters of a [str]. *)
Definition iterate (v : pyval) : outcome (list pyval) :=
  match v with
  | PyList items => Done items
  | PyDict d => Done (map (fun kv => PyStr (fst kv)) d)
  | PyStr s => Done (map (fun c => PyStr [c]) s)
  | _ => Failed TypeError
  end.

(** [s.replace(old, new)]: the occurrences of [old] in [s], taken left to
    right without overlap, each replaced by [new].  With a non-empty
    [old] every step takes a character off [s], so [length s] is fuel
    enough. *)
Fixpoint replace_from (fuel : nat) (old new s : pystr) : pystr :=
  match fuel with
  | O => []
  | S fuel' =>
      match strip_prefix old s with
      | Some r => new ++ replace_from fuel' old new r
      | None =>
          match s with
          | [] => []
          | c :: s' => c :: replace_from fuel' old new s'
          end
      end
  end.

Definition replace (old new s : pystr) : pystr :=
  match old with
  | [] => new ++ flat_map (fun c => c :: new) s
  | _ :: _ => replace_from (List.length s) old new s
  end.

(* ------------------------------------------------------------------ *)
(** ** latex_writer.py *)

Definition LATEX_TEMPLATE : pystr :=
  join nl
    [ py "\documentclass[11pt]{article}";
      py "\usepackage[margin=1in]{geometry}";
      py "\usepackage{setspace}";
      py "\usepackage{hyperref}";
      py "\usepackage{times}";
      py "\usepackage{setspace}";
      py "\usepackage{xurl}";
      py "\usepackage{float}";
      py "\singlespacing";
      [];
      py "\begin{document}";
      py "\begin{center}";
      py "    {\LARGE \textbf{TITULO_PAPER}} \\[2ex]";
      py "    \normalsize";
      py "\end{center}";
      [];
      py "\begin{center}";
      py "    {\textbf{Anna Mons" ++ [243%N] ++ py " Rodriguez}} \\[2ex]";
      py "    \normalsize";
      py "\end{center}";
      [];
      py "\section*{Paper Summary}";
      py "SUMMARY_TEXT";
      [];
      py "\section*{Contributions}";
      py "\begin{itemize}";
      py "CONTRIBUTIONS_ITEMS";
      py "\end{itemize}";
      [];
      py "\section*{Limitations}";
      py "\begin{itemize}";
      py "LIMITATIONS_ITEMS";
      py "\end{itemize}";
      [];
      py "\section*{One Question to Discuss}";
      py "QUESTION_TEXT";
      [];
      py "\vspace{2\baselineskip}";
      py "\textit{Note:} I used \href{https://www.deepl.com/es/write}{www.deepl.com} to improve the quality of my text.";
      py "\end{document}";
      [] ].

(** The keys of [_ESCAPE_MAP] with their values, in the order of the
    source. *)
Definition _ESCAPE_MAP : list (pystr * pystr) :=
  [ ([92%N], py "\textbackslash{}");
    (py "%", py "\%");
    (py "$", py "\$");
    (py "#", py "\#");
    (py "_", py "\_");
    (py "{", py "\{");
    (py "}", py "\}");
    (py "~", py "\textasciitilde{}");
    (py "^", py "\textasciicircum{}");
    (py "&", py "\&") ].

(** The characters the class of [_ESCAPE_RE] matches. *)
Definition _ESCAPE_RE : pystr := py "\%$#_{}~^&".

(** [_ESCAPE_MAP[key]] *)
Fixpoint map_get (d : list (pystr * pystr)) (key : pystr) : outcome pystr :=
  match d with
  | [] => Failed (KeyError (PyStr key))
  | (k, v) :: d' => if str_eqb k key then Done v else map_get d' key
  end.

Definition is_special (c : N) : bool := existsb (N.eqb c) _ESCAPE_RE.

(** [_ESCAPE_RE.sub(lambda m: _ESCAPE_MAP[m.group(0)], text)] on a
    [str]: each character the class matches is replaced by what the map
    holds for it. *)
Fixpoint escape_str (text : pystr) : outcome pystr :=
  match text with
  | [] => Done []
  | c :: text' =>
      (head <- (if is_special c then map_get _ESCAPE_MAP [c] else Done [c]) ;;
       tail <- escape_str text' ;;
       Done (head ++ tail))%outcome
  end.

(** [escape_latex(text)]: [re] takes a [str] only. *)
Definition escape_latex (text : pyval) : outcome pystr :=
  match text with
  | PyStr s => escape_str s
  | _ => Failed TypeError
  end.

(** The line of one item. *)
Definition item_line (label text : pystr) : pystr :=
  py "    \item \textbf{" ++ label ++ py ":} " ++ text.

(** The loop over the items of [contributions] or [limitations]. *)
Fixpoint item_lines (items : list pyval) (lines : list pystr)
    : outcome (list pystr) :=
  match items with
  | [] => Done lines
  | item :: items' =>
      (label_value <- subscript item (py "label") ;;
       label <- escape_latex label_value ;;
       text_value <- subscript item (py "text") ;;
       text <- escape_latex text_value ;;
       item_lines items' (lines ++ [item_line label text]))%outcome
  end.

Definition fill_template (data : pyval) : outcome pystr :=
  (title_value <- subscript data (py "title") ;;
   title <- escape_latex title_value ;;
   summary_value <- subscript data (py "summary") ;;
   summary <- escape_latex summary_value ;;
   contributions_value <- subscript data (py "contributions") ;;
   contributions_items <- iterate contributions_value ;;
   contributions_lines <- item_lines contributions_items [] ;;
   let contributions := join nl contributions_lines in
   limitations_value <- subscript data (py "limitations") ;;
   limitations_items <- iterate limitations_value ;;
   limitations_lines <- item_lines limitations_items [] ;;
   let limitations := join nl limitations_lines in
   question_value <- subscript data (py "question") ;;
   question <- escape_latex question_value ;;
   let tex := LATEX_TEMPLATE in
   let tex := replace (py "TITULO_PAPER") title tex in
   let tex := replace (py "SUMMARY_TEXT") summary tex in
   let tex := replace (py "CONTRIBUTIONS_ITEMS") contributions tex in
   let tex := replace (py "LIMITATIONS_ITEMS") limitations tex in
   let tex := replace (py "QUESTION_TEXT") question tex in
   Done tex)%outcome.

(** What [escape_latex] puts for one character. *)
Definition escape_image (c : N) : pystr :=
  match (if is_special c then map_get _ESCAPE_MAP [c] else Done [c]) with
  | Done image => image
  | Failed _ => []
  end.

(** The escaped text. *)
Definition escaped (text : pystr) : pystr := flat_map escape_image text.

(** A scan of an escaped text, [after_backslash] telling whether the
    character before was a backslash: no tilde and no circumflex; a
    percent sign, dollar sign, hash, underscore or ampersand only after a
    backslash; no backslash after a backslash; no backslash at the end. *)
Fixpoint scan_escaped (after_backslash : bool) (t : pystr) : bool :=
  match t with
  | [] => negb after_backslash
  | c :: t' =>
      if existsb (N.eqb c) (py "~^") then false
      else if existsb (N.eqb c) (py "%$#_&")
           then after_backslash && scan_escaped false t'
      else if (c =? 92)%N then negb after_backslash && scan_escaped true t'
      else scan_escaped false t'
  end.

(** The template with five texts in the places of the five names. *)
Definition template_with
    (title summary contributions limitations question : pystr) : pystr :=
  join nl
    [ py "\documentclass[11pt]{article}";
      py "\usepackage[margin=1in]{geometry}";
      py "\usepackage{setspace}";
      py "\usepackage{hyperref}";
      py "\usepackage{times}";
      py "\usepackage{setspace}";
      py "\usepackage{xurl}";
      py "\usepackage{float}";
      py "\singlespacing";
      [];
      py "\begin{document}";
      py "\begin{center}";
      py "    {\LARGE \textbf{" ++ title ++ py "}} \\[2ex]";
      py "    \normalsize";
      py "\end{center}";
      [];
      py "\begin{center}";
      py "    {\textbf{Anna Mons" ++ [243%N] ++ py " Rodriguez}} \\[2ex]";
      py "    \normalsize";
      py "\end{center}";
      [];
      py "\section*{Paper Summary}";
      summary;
      [];
      py "\section*{Contributions}";
      py "\begin{itemize}";
      contributions;
      py "\end{itemize}";
      [];
      py "\section*{Limitations}";
      py "\begin{itemize}";
      limitations;
      py "\end{itemize}";
      [];
      py "\section*{One Question to Discuss}";
      question;
      [];
      py "\vspace{2\baselineskip}";
      py "\textit{Note:} I used \href{https://www.deepl.com/es/write}{www.deepl.com} to improve the quality of my text.";
      py "\end{document}";
      [] ].

(** The text before the first occurrence of [old] in [s], and the text
    after it. *)
Fixpoint text_before (old s : pystr) : pystr :=
  match strip_prefix old s with
  | Some _ => []
  | None =>
      match s with
      | [] => []
      | c :: s' => c :: text_before old s'
      end
  end.

Fixpoint text_after (old s : pystr) : pystr :=
  match strip_prefix old s with
  | Some r => r
  | None =>
      match s with
      | [] => []
      | _ :: s' => text_after old s'
      end
  end.

(** Every underscore of [s] stands right after a backslash,
    [after_backslash] telling whether a backslash stands before [s]. *)
Fixpoint underscores_guarded (after_backslash : bool) (s : pystr) : bool :=
  match s with
  | [] => true
  | c :: s' =>
      (if (c =? 95)%N then after_backslash else true)
      && underscores_guarded (c =? 92)%N s'
  end.

(** An item with a [str] under [label] and a [str] under [text]. *)
Definition is_item (v : pyval) (item : pystr * pystr) : Prop :=
  subscript v (py "label") = Done (PyStr (fst item))
  /\ subscript v (py "text") = Done (PyStr (snd item)).

(** [data[key]] goes through items with these labels and texts. *)
Definition has_items (data : pyval) (key : pystr)
    (items : list (pystr * pystr)) : Prop :=
  exists v vs,
    subscript data key = Done v /\ iterate v = Done vs /\ Forall2 is_item vs items.

(** The line of an item, its label and its text escaped. *)
Definition line_of (item : pystr * pystr) : pystr :=
  item_line (escaped (fst item)) (escaped (snd item)).

(** A paper as [fill_template] takes it. *)
Definition sample_paper : pyval :=
  PyDict
    [ (py "title", PyStr (py "TITULO_PAPER & SUMMARY_TEXT"));
      (py "summary", PyStr (py "50% of QUESTION_TEXT"));
      (py "contributions",
       PyList [ PyDict [ (py "label", PyStr (py "A_1"));
                         (py "text", PyStr (py "uses {x}")) ] ]);
      (py "limitations", PyList []);
      (py "question", PyStr (py "Why #1?")) ].

(** The texts of the template between the five names, and what is left
    of it after each name. *)
Definition rest_1 : pystr := text_after (py "TITULO_PAPER") LATEX_TEMPLATE.
Definition rest_2 : pystr := text_after (py "SUMMARY_TEXT") rest_1.
Definition rest_3 : pystr := text_after (py "CONTRIBUTIONS_ITEMS") rest_2.
Definition rest_4 : pystr := text_after (py "LIMITATIONS_ITEMS") rest_3.
Definition rest_5 : pystr := text_after (py "QUESTION_TEXT") rest_4.
Definition piece_0 : pystr := text_before (py "TITULO_PAPER") LATEX_TEMPLATE.
Definition piece_1 : pystr := text_before (py "SUMMARY_TEXT") rest_1.
Definition piece_2 : pystr := text_before (py "CONTRIBUTIONS_ITEMS") rest_2.
Definition piece_3 : pystr := text_before (py "LIMITATIONS_ITEMS") rest_3.
Definition piece_4 : pystr := text_before (py "QUESTION_TEXT") rest_4.

(* ------------------------------------------------------------------ *)
(** ** watcher.py: the wait for a whole file *)

(** What [path.stat().st_size] gives: a size, an [OSError] (of any class
    under it), or an exception of another class. *)
Inductive stat_result :=
| StatSize (size : Z)
| StatOSError
| StatRaises (e : exn).

(** The file system and the clock. *)
Class Files (W : Type) := {
  path_stat : pystr -> W -> stat_result * W;
  time_sleep : pyfloat -> W -> W
}.

Section Waiting.

Context {W : Type} `{Files W}.

(** The [for _ in range(checks + 2)] loop; [todo] counts the turns still
    to make. *)
Fixpoint wait_loop (todo : nat) (path : pystr) (checks : Z)
    (interval : pyfloat) (prev_size stable : Z) : M W bool :=
  match todo with
  | O => ret false
  | S todo' =>
      fun w =>
        let '(r, w1) := path_stat path w in
        match r with
        | StatOSError => (Ok false, w1)
        | StatRaises e => (Raise e, w1)
        | StatSize size =>
            if (size >? 0) && (size =? prev_size) then
              let stable := stable + 1 in
              if stable >=? checks then (Ok true, w1)
              else wait_loop todo' path checks interval size stable
                     (time_sleep interval w1)
            else wait_loop todo' path checks interval size 0
                   (time_sleep interval w1)
        end
  end.

Definition wait_for_complete (path : pystr) (checks : Z) (interval : pyfloat)
    : M W bool :=
  wait_loop (Z.to_nat (checks + 2)) path checks interval (-1) 0.

End Waiting.

(** The events of a wait, oldest first. *)
Inductive file_event :=
| Stat (path : pystr)               (* [path.stat()] *)
| TimeSleep (interval : pyfloat).   (* [time.sleep] *)

Definition is_stat (e : file_event) : bool :=
  match e with Stat _ => true | TimeSleep _ => false end.

Definition stats_made (t : list file_event) : nat :=
  List.length (filter is_stat t).

(** A file system that answers its [n]-th [stat] (from 0) with
    [reads n]. *)
Definition scripted_files (reads : nat -> stat_result)
    : Files (list file_event) :=
  {| path_stat path t := (reads (stats_made t), t ++ [Stat path]);
     time_sleep interval t := t ++ [TimeSleep interval] |}.

(** [wait_for_complete] on a scripted file system. *)
Definition wait_on (reads : nat -> stat_result) (path : pystr) (checks : Z)
    (interval : pyfloat) : M (list file_event) bool :=
  @wait_for_complete _ (scripted_files reads) path checks interval.

(** [k] reads, each followed by a sleep. *)
Fixpoint waits (path : pystr) (interval : pyfloat) (k : nat)
    : list file_event :=
  match k with
  | O => []
  | S k' => Stat path :: TimeSleep interval :: waits path interval k'
  end.

(** A file that grows at its second read and is whole from then on. *)
Definition sample_reads (n : nat) : stat_result :=
  match n with
  | O => StatSize 100
  | _ => StatSize 2048
  end.

(* ------------------------------------------------------------------ *)
(** ** The host

    The tools of [src/tools] and [process_pdf] call libraries: PyMuPDF,
    pdfminer, [requests], [subprocess], [shutil], [pathlib], [os].  A
    computation on the host runs in a world and returns a value or fails
    with a [fault]. *)

Definition H (W A : Type) : Type := W -> outcome A * W.

Definition hret {W A} (a : A) : H W A := fun w => (Done a, w).

Definition hbind {W A B} (m : H W A) (k : A -> H W B) : H W B :=
  fun w =>
    match m w with
    | (Done a, w') => k a w'
    | (Failed f, w') => (Failed f, w')
    end.

Definition hlift {W A} (o : outcome A) : H W A := fun w => (o, w).

Definition hact {W} (f : W -> W) : H W unit := fun w => (Done tt, f w).

Definition hask {W A} (f : W -> A * W) : H W A :=
  fun w => let '(a, w') := f w in (Done a, w').

(** A computation of [pipeline.py] on the host. *)
Definition of_M {W A} (m : M W A) : H W A :=
  fun w =>
    match m w with
    | (Ok a, w') => (Done a, w')
    | (Raise e, w') => (Failed (Raised e), w')
    end.

(** [try: m] / [except Exception as e: handler e] *)
Definition try_except {W A} (m : H W A) (handler : fault -> H W A) : H W A :=
  fun w =>
    match m w with
    | (Done a, w') => (Done a, w')
    | (Failed f, w') =>
        if fault_is_Exception f then handler f w' else (Failed f, w')
    end.

Declare Scope host_scope.
Delimit Scope host_scope with host.
Notation "x <- m ;; k" := (hbind m (fun x => k))
  (at level 61, m at next level, right associativity) : host_scope.
Notation "m ;; k" := (hbind m (fun _ => k))
  (at level 61, right associativity) : host_scope.

(** What [pathlib] gives for a path. *)
Record path := mkPath {
  path_str : pystr;      (* [str(path)] *)
  path_name : pystr;     (* [path.name] *)
  path_stem : pystr;     (* [path.stem] *)
  path_suffix : pystr;   (* [path.suffix] *)
  path_parent : pystr    (* [str(path.parent)] *)
}.

(** What [requests.post] returns: the exception [raise_for_status]
    raises, if it raises, and what [json()] gives. *)
Record response := mkResponse {
  raise_for_status : option exn;
  response_json : pyres pyval
}.

(** What [subprocess.run] returns. *)
Record completed := mkCompleted {
  returncode : Z;
  stderr : pystr
}.

(** The libraries.  [fitz_pages] is the use [_extract_with_pymupdf]
    makes of PyMuPDF: the import, [fitz.open], [get_text] on each page,
    [close].  The last four are functions: the message of a fault of the
    interpreter, [str] of a value that is no [str], and two paths. *)
Class Host (W : Type) := {
  fitz_pages : pystr -> H W (list pystr);
  pdfminer_extract : pystr -> H W pystr;
  os_getenv : pystr -> pystr -> W -> pystr * W;
  requests_post : pystr -> pystr -> pyval -> Z -> H W response;
  outbox_mkdir : H W unit;
  write_text : path -> pystr -> H W unit;
  shutil_which : pystr -> W -> bool * W;
  subprocess_run : list pystr -> pystr -> Z -> H W completed;
  logging_error : pystr -> W -> W;
  fault_message : fault -> pystr;
  str_of_value : pyval -> pystr;
  outbox_file : pystr -> path;            (* [PAPERS_OUTBOX / name] *)
  with_suffix : path -> pystr -> path
}.

(** [v[i]] for an [int] index. *)
Definition subscript_int (v : pyval) (i : Z) : outcome pyval :=
  let at_index {A} (l : list A) : option A :=
    let n := len l in
    if (0 <=? i) && (i <? n) then nth_error l (Z.to_nat i)
    else if (- n <=? i) && (i <? 0) then nth_error l (Z.to_nat (i + n))
    else None in
  match v with
  | PyList items =>
      match at_index items with
      | Some x => Done x
      | None => Failed IndexError
      end
  | PyStr s =>
      match at_index s with
      | Some c => Done (PyStr [c])
      | None => Failed IndexError
      end
  | PyDict _ => Failed (KeyError (PyInt i))
  | _ => Failed TypeError
  end.

(** [v.get(key, default)] *)
Definition get_default (v : pyval) (key : pystr) (default : pyval)
    : outcome pyval :=
  match v with
  | PyDict d =>
      match dict_get d key with
      | Some x => Done x
      | None => Done default
      end
  | _ => Failed AttributeError
  end.

(** [v[key] = x] *)
Definition setitem (v : pyval) (key : pystr) (x : pyval) : outcome pyval :=
  match v with
  | PyDict d => Done (PyDict (dict_set d key x))
  | _ => Failed TypeError
  end.

Definition of_pyres {A} (r : pyres A) : outcome A :=
  match r with
  | Ok a => Done a
  | Raise e => Failed (Raised e)
  end.

(** [response.raise_for_status()] and then
    [response.json()["translations"][0]["text"]]. *)
Definition checked (r : response) : outcome pyval :=
  match raise_for_status r with
  | Some e => Failed (Raised e)
  | None =>
      (body <- of_pyres (response_json r) ;;
       translations <- subscript body (py "translations") ;;
       first <- subscript_int translations 0 ;;
       subscript first (py "text"))%outcome
  end.

Definition DEEPL_FALLBACK_PROMPT : pystr :=
  py "Rewrite the following academic text to improve clarity and academic tone. "
  ++ py "Keep the original meaning. Be concise. Maximum 500 words total. "
  ++ py "Return only the rewritten text, no explanations:".

Definition is_TimeoutExpired (f : fault) : bool :=
  match f with
  | Raised e => str_eqb (exn_class e) (py "TimeoutExpired")
  | _ => false
  end.

Definition IGNORE_EXTENSIONS : list pystr :=
  [py ".crdownload"; py ".part"; py ".tmp"].

Definition IGNORE_PREFIXES : list pystr := [py "."; py "~"].

(** [x in s] for a set of [str]. *)
Definition in_set (x : pystr) (s : list pystr) : bool := existsb (str_eqb x) s.

(** [is_temp_file(path)].  [lower] is exact below code point 256; above
    it no character has a lower case among the letters of the extensions
    compared here. *)
Definition is_temp_file (p : path) : outcome bool :=
  if in_set (lower (path_suffix p)) IGNORE_EXTENSIONS then Done true
  else
    (first <- subscript_int (PyStr (path_name p)) 0 ;;
     match first with
     | PyStr c => Done (in_set c IGNORE_PREFIXES)
     | _ => Failed TypeError
     end)%outcome.

Section Tools.

Context {W : Type} `{Host W} `{Sdk W} `{Logging W} `{ModelClient W}
        `{Interpreter}.
Local Open Scope host_scope.

(** [str(e)] *)
Definition fault_str (f : fault) : pystr :=
  match f with
  | Raised e => exn_str e
  | _ => fault_message f
  end.

(** What an f-string puts for a value. *)
Definition formatted (v : pyval) : pystr :=
  match v with
  | PyStr s => s
  | _ => str_of_value v
  end.

Definition log_info (msg : pystr) : H W unit := hact (logging_info msg).
Definition log_warning (msg : pystr) : H W unit := hact (logging_warning msg).
Definition log_error (msg : pystr) : H W unit := hact (logging_error msg).

(** *** tools/pdf_extract_tool.py *)

Definition _extract_with_pymupdf (pdf_path : path) : H W pystr :=
  pages <- fitz_pages (path_str pdf_path) ;;
  let text := strip (join nl pages) in
  match text with
  | [] => hlift (Failed (Raised (ValueError (py "PyMuPDF extracted empty text"))))
  | _ :: _ => hret text
  end.

Definition _extract_with_pdfminer (pdf_path : path) : H W pystr :=
  text <- pdfminer_extract (path_str pdf_path) ;;
  match text, strip text with
  | _ :: _, _ :: _ => hret (strip text)
  | _, _ =>
      hlift (Failed (Raised (ValueError (py "pdfminer.six extracted empty text"))))
  end.

Definition extract_text (pdf_path : path) : H W pystr :=
  text <- try_except (_extract_with_pymupdf pdf_path)
            (fun e =>
               log_warning (py "PyMuPDF failed (" ++ fault_str e
                              ++ py "), trying pdfminer.six...") ;;
               _extract_with_pdfminer pdf_path) ;;
  hret (replace [0%N] [] text).

(** *** tools/deepl_rewrite_tool.py *)

Definition _rewrite_with_deepl (text : pyval) (api_key : pystr) : H W pyval :=
  response <- requests_post (py "https://api.deepl.com/v2/translate")
                (py "DeepL-Auth-Key " ++ api_key)
                (PyDict [ (py "text", PyList [text]);
                          (py "target_lang", PyStr (py "EN-US"));
                          (py "source_lang", PyStr (py "EN")) ])
                30 ;;
  hlift (checked response).

Definition _rewrite_with_claude (text : pyval) : H W pyval :=
  let prompt := DEEPL_FALLBACK_PROMPT ++ nl ++ nl ++ formatted text in
  fun w =>
    let '(s, w1) := sdk_query prompt (py "claude-haiku-4-5-20251001") 1 w in
    match raised s with
    | Some e => (Failed (Raised e), w1)
    | None =>
        match strip (join [] (text_parts (yielded s))) with
        | [] => (Done text, w1)
        | (_ :: _) as result => (Done (PyStr result), w1)
        end
    end.

Definition rewrite_text (text : pyval) : H W pyval :=
  api_key <- hask (os_getenv (py "DEEPL_API_KEY") []) ;;
  let fallback :=
    log_info (py "DeepL unavailable, using Claude fallback") ;;
    _rewrite_with_claude text in
  match api_key with
  | [] => fallback
  | _ :: _ =>
      fun w =>
        match _rewrite_with_deepl text api_key w with
        | (Done v, w1) => (Done v, w1)
        | (Failed e, w1) =>
            if fault_is_Exception e then
              (log_warning (py "DeepL failed (" ++ fault_str e
                              ++ py "), using Claude fallback") ;;
               fallback) w1
            else (Failed e, w1)
        end
  end.

(** *** tools/latex_compile_tool.py *)

Definition compile_latex (tex_path : path) : H W bool :=
  found <- hask (shutil_which (py "latexmk")) ;;
  if negb found then
    log_info (py "latexmk not installed, skipping PDF compilation") ;;
    hret false
  else
    fun w =>
      match subprocess_run
              [ py "latexmk"; py "-pdf"; py "-interaction=nonstopmode";
                py "-halt-on-error"; path_name tex_path ]
              (path_parent tex_path) 120 w with
      | (Done result, w1) =>
          if returncode result =? 0 then (Done true, w1)
          else
            (log_error (py "latexmk exited with code "
                          ++ str_of_int (returncode result)) ;;
             log_error (match stderr result with
                        | [] => py "(no stderr)"
                        | _ :: _ =>
                            py_slice (stderr result) (-2000)
                              (len (stderr result))
                        end) ;;
             hret false) w1
      | (Failed e, w1) =>
          if is_TimeoutExpired e then
            (log_error (py "LaTeX compilation timed out") ;; hret false) w1
          else if fault_is_Exception e then
            (log_error (py "LaTeX compilation error: " ++ fault_str e) ;;
             hret false) w1
          else (Failed e, w1)
      end.

(** *** watcher.py: one PDF *)

Definition process_pdf (pdf_path : path) : H W unit :=
  log_info (py "New PDF detected: " ++ path_name pdf_path) ;;
  try_except
    (text <- extract_text pdf_path ;;
     let word_count := len (split text) in
     log_info (py "Text extracted: " ++ str_of_int word_count ++ py " words") ;;
     data <- of_M (run_pipeline text (path_stem pdf_path)) ;;
     original_summary <- hlift (get_default data (py "summary") (PyStr [])) ;;
     rewritten_summary <- rewrite_text original_summary ;;
     data <- hlift (setitem data (py "summary") rewritten_summary) ;;
     tex_content <- hlift (fill_template data) ;;
     outbox_mkdir ;;
     let tex_path := outbox_file (path_stem pdf_path ++ py ".tex") in
     write_text tex_path tex_content ;;
     log_info (py "LaTeX written: " ++ path_str tex_path) ;;
     compiled <- compile_latex tex_path ;;
     if compiled then
       log_info (py "PDF compiled: " ++ path_str (with_suffix tex_path (py ".pdf")))
     else hret tt)
    (fun e =>
       log_error (py "Failed to process " ++ path_name pdf_path ++ py ": "
                    ++ fault_str e)).

(** *** watcher.py: the handler of the watcher

    [is_directory] and [src_path] are the two fields of the event that
    the handler reads. *)

Definition on_created `{Files W} (is_directory : bool) (src_path : path)
    : H W unit :=
  if is_directory then hret tt
  else if negb (str_eqb (lower (path_suffix src_path)) (py ".pdf")) then hret tt
  else
    temp <- hlift (is_temp_file src_path) ;;
    if temp then log_info (py "Ignored temp file: " ++ path_name src_path)
    else
      complete <- of_M (wait_for_complete (path_str src_path) 3
                          (FloatOf (py "1.0"))) ;;
      if complete then process_pdf src_path
      else log_warning (py "File not stable after timeout: "
                          ++ path_name src_path).

End Tools.

(* ------------------------------------------------------------------ *)
(** ** Recorded runs on the host

    A run is recorded as the list of the calls it makes to the outside,
    oldest first; what the outside answers is fixed beforehand. *)

Inductive level := LevelInfo | LevelWarning | LevelError.

Inductive call :=
| FitzPages (file : pystr)
| PdfminerExtract (file : pystr)
| Getenv (name default : pystr)
| Post (url authorization : pystr) (json : pyval) (timeout : Z)
| SdkQuery (prompt model : pystr) (max_turns : Z)
| SdkSleep (seconds : Z)
| Client (prompt model : pystr)
| Logged (lvl : level) (msg : pystr)
| Mkdir
| WriteText (file : path) (content : pystr)
| Which (name : pystr)
| Run (args : list pystr) (cwd : pystr) (timeout : Z)
| StatSizeOf (file : pystr)
| Slept (interval : pyfloat).

Record outside := mkOutside {
  interpreter : Interpreter;
  fitz : outcome (list pystr);
  pdfminer : outcome pystr;
  deepl_api_key : pystr;
  deepl : outcome response;
  sdk_backend : nat -> pystr -> pystr -> stream;
  client_answers : nat -> pystr -> pystr -> pyres pystr;
  mkdir : outcome unit;
  written : outcome unit;
  latexmk_found : bool;
  latexmk : outcome completed;
  sizes : nat -> stat_result;
  message_of : fault -> pystr;
  str_of : pyval -> pystr;
  in_outbox : pystr -> path;
  suffixed : path -> pystr -> path
}.

Definition is_sdk_query (c : call) : bool :=
  match c with SdkQuery _ _ _ => true | _ => false end.

Definition is_client (c : call) : bool :=
  match c with Client _ _ => true | _ => false end.

Definition is_write (c : call) : bool :=
  match c with WriteText _ _ => true | _ => false end.

Definition is_post (c : call) : bool :=
  match c with Post _ _ _ _ => true | _ => false end.

Definition is_stat_call (c : call) : bool :=
  match c with StatSizeOf _ => true | _ => false end.

Definition recorded_host (o : outside) : Host (list call) :=
  {| fitz_pages file t := (fitz o, t ++ [FitzPages file]);
     pdfminer_extract file t := (pdfminer o, t ++ [PdfminerExtract file]);
     os_getenv name default t :=
       (deepl_api_key o, t ++ [Getenv name default]);
     requests_post url authorization json timeout t :=
       (deepl o, t ++ [Post url authorization json timeout]);
     outbox_mkdir t := (mkdir o, t ++ [Mkdir]);
     write_text file content t := (written o, t ++ [WriteText file content]);
     shutil_which name t := (latexmk_found o, t ++ [Which name]);
     subprocess_run args cwd timeout t :=
       (latexmk o, t ++ [Run args cwd timeout]);
     logging_error msg t := t ++ [Logged LevelError msg];
     fault_message := message_of o;
     str_of_value := str_of o;
     outbox_file := in_outbox o;
     with_suffix := suffixed o |}.

Definition recorded_host_files (o : outside) : Files (list call) :=
  {| path_stat file t :=
       (sizes o (List.length (filter is_stat_call t)), t ++ [StatSizeOf file]);
     time_sleep interval t := t ++ [Slept interval] |}.

Definition recorded_host_sdk (o : outside) : Sdk (list call) :=
  {| sdk_query prompt model max_turns t :=
       (sdk_backend o (List.length (filter is_sdk_query t)) prompt model,
        t ++ [SdkQuery prompt model max_turns]);
     asyncio_sleep seconds t := t ++ [SdkSleep seconds] |}.

Definition recorded_host_logging : Logging (list call) :=
  {| logging_warning msg t := t ++ [Logged LevelWarning msg];
     logging_info msg t := t ++ [Logged LevelInfo msg] |}.

Definition recorded_host_client (o : outside) : ModelClient (list call) :=
  {| query_claude prompt model t :=
       (client_answers o (List.length (filter is_client t)) prompt model,
        t ++ [Client prompt model]) |}.

(** The tools and [process_pdf] on a recorded host. *)
Definition extract_on (o : outside) (pdf_path : path) : H (list call) pystr :=
  @extract_text _ (recorded_host o) recorded_host_logging pdf_path.

Definition rewrite_with_claude_on (o : outside) (text : pyval)
    : H (list call) pyval :=
  @_rewrite_with_claude _ (recorded_host o) (recorded_host_sdk o) text.

Definition rewrite_on (o : outside) (text : pyval) : H (list call) pyval :=
  @rewrite_text _ (recorded_host o) (recorded_host_sdk o)
    recorded_host_logging text.

Definition compile_on (o : outside) (tex_path : path) : H (list call) bool :=
  @compile_latex _ (recorded_host o) recorded_host_logging tex_path.

Definition on_created_on (o : outside) (is_directory : bool) (src_path : path)
    : H (list call) unit :=
  @on_created _ (recorded_host o) (recorded_host_sdk o)
    recorded_host_logging (recorded_host_client o) (interpreter o)
    (recorded_host_files o) is_directory src_path.

Definition process_on (o : outside) (pdf_path : path) : H (list call) unit :=
  @process_pdf _ (recorded_host o) (recorded_host_sdk o)
    recorded_host_logging (recorded_host_client o) (interpreter o) pdf_path.

(** What the DeepL path gives on a recorded host. *)
Definition deepl_answer (o : outside) : outcome pyval :=
  (r <- deepl o ;; checked r)%outcome.

(** The request [_rewrite_with_deepl] posts. *)
Definition deepl_request (text : pyval) (api_key : pystr) : call :=
  Post (py "https://api.deepl.com/v2/translate")
    (py "DeepL-Auth-Key " ++ api_key)
    (PyDict [ (py "text", PyList [text]);
              (py "target_lang", PyStr (py "EN-US"));
              (py "source_lang", PyStr (py "EN")) ])
    30.

(** The text with its NUL characters taken out. *)
Definition without_nul (s : pystr) : pystr :=
  filter (fun c => negb (c =? 0)%N) s.

(** A PDF and a host on which PyMuPDF fails and pdfminer reads a text
    with NUL characters in it. *)
Definition sample_pdf : path :=
  mkPath (py "/in/a.pdf") (py "a.pdf") (py "a") (py ".pdf") (py "/in").

Definition sample_outside : outside :=
  {| interpreter := cpython;
     fitz := Failed (Raised (mkExn (py "RuntimeError") (py "no fitz") true));
     pdfminer := Done ([32; 0; 65; 0; 66; 10]%N);
     deepl_api_key := [];
     deepl := Failed (Raised connection_error);
     sdk_backend := fun _ _ _ =>
       mkStream [WithContent [TextBlock (py " Better. ")]] None;
     client_answers := fun _ _ _ =>
       Ok (pyq "{'title': 'T_1', 'contributions': [], 'limitations': [], 'question': 'Q?'}");
     mkdir := Done tt;
     written := Done tt;
     latexmk_found := false;
     latexmk := Done (mkCompleted 0 []);
     sizes := sample_reads;
     message_of := fun _ => py "fault";
     str_of := fun _ => py "value";
     in_outbox := fun name =>
       mkPath (py "/out/" ++ name) name [] [] (py "/out");
     suffixed := fun p _ => p |}.

(** [run_pipeline] on a recorded host. *)
Definition pipeline_host (o : outside) (text filename : pystr)
    : M (list call) pyval :=
  @run_pipeline _ (recorded_host_client o) recorded_host_logging
    (interpreter o) text filename.

(** What the [except] clause of [process_pdf] does with a failure on a
    recorded host. *)
Definition reported (o : outside) (pdf_path : path) (e : fault)
    (t : list call) : outcome unit * list call :=
  if fault_is_Exception e then
    (Done tt,
     t ++ [Logged LevelError
             (py "Failed to process " ++ path_name pdf_path ++ py ": "
              ++ @fault_str _ (recorded_host o) e)])
  else (Failed e, t).

(** The writes of a run, in order. *)
Definition writes (t : list call) : list call := filter is_write t.

(** A computation that does after [t] what it does without it. *)
Definition framed {A} (m : M (list call) A) (t : list call) : Prop :=
  forall u, m (t ++ u) = (fst (m u), t ++ snd (m u)).

(** A computation that only adds calls that satisfy [P]. *)
Definition adds {A} (P : call -> bool) (m : M (list call) A) : Prop :=
  forall u, exists new, snd (m u) = u ++ new /\ forallb P new = true.

(** The calls of [run_pipeline]: the Model Client and the log. *)
Definition is_pipeline_call (c : call) : bool :=
  match c with
  | Client _ _ | Logged _ _ => true
  | _ => false
  end.

(* ================================================================== *)
(** * Properties *)

(* ------------------------------------------------------------------ *)
(** ** The chunker *)

Lemma ceil_div_bounds (a b : Z) :
  0 < b -> (ceil_div a b - 1) * b < a <= ceil_div a b * b.
Proof.
  intros Hb. unfold ceil_div.
  pose proof (Z.div_mod (- a) b ltac:(lia)) as Hdm.
  pose proof (Z.mod_pos_bound (- a) b Hb) as Hr.
  nia.
Qed.

Lemma ceil_div_unique (a b q : Z) :
  0 < b -> (q - 1) * b < a <= q * b -> ceil_div a b = q.
Proof.
  intros Hb Hq. pose proof (ceil_div_bounds a b Hb) as Hc. nia.
Qed.

Lemma len_nonneg {A} (l : list A) : 0 <= len l.
Proof. unfold len. lia. Qed.

Lemma len_app {A} (l l' : list A) : len (l ++ l') = len l + len l'.
Proof. unfold len. rewrite length_app. lia. Qed.

(** A cursor inside the words whose chunk reaches the end: the loop
    appends that chunk and returns. *)
Lemma chunk_step_last size overlap words i chunks :
  i < len words -> len words <= i + size ->
  chunk_step size overlap words (i, chunks)
  = inr (chunks ++ [chunk_at size words i]).
Proof.
  intros Hi Hend. unfold chunk_step, chunk_at.
  destruct (Z.ltb_spec i (len words)); [|lia].
  destruct (Z.geb_spec (i + size) (len words)); [reflexivity|lia].
Qed.

(** A cursor whose chunk stops short of the end: the loop appends that
    chunk and moves the cursor on by [size - overlap]. *)
Lemma chunk_step_next size overlap words i chunks :
  i < len words -> i + size < len words ->
  chunk_step size overlap words (i, chunks)
  = inl (i + (size - overlap), chunks ++ [chunk_at size words i]).
Proof.
  intros Hi Hend. unfold chunk_step, chunk_at.
  destruct (Z.ltb_spec i (len words)); [|lia].
  destruct (Z.geb_spec (i + size) (len words)); [lia|reflexivity].
Qed.

(** A cursor at or past the end: the loop returns what it has. *)
Lemma chunk_step_done size overlap words i chunks :
  len words <= i ->
  chunk_step size overlap words (i, chunks) = inr chunks.
Proof.
  intros Hi. unfold chunk_step.
  destruct (Z.ltb_spec i (len words)); [lia|reflexivity].
Qed.

Lemma starts_S step i n :
  starts step i (S n) = i :: starts step (i + step) n.
Proof.
  unfold starts. cbn [seq map]. f_equal; [lia|].
  rewrite <- seq_shift, map_map. apply map_ext. intros k. lia.
Qed.

Lemma starts_length step i n : List.length (starts step i n) = n.
Proof. unfold starts. now rewrite length_map, length_seq. Qed.

(** The loop from a cursor inside the words, when the [n]-th chunk from
    there is the first to reach the end. *)
Lemma chunk_loop_run size overlap words :
  0 <= overlap < size ->
  forall (n fuel : nat) i chunks,
    (n < fuel)%nat ->
    i < len words ->
    (forall k, 0 <= k < Z.of_nat n ->
               i + k * (size - overlap) + size < len words) ->
    len words <= i + Z.of_nat n * (size - overlap) + size ->
    chunk_loop fuel size overlap words (i, chunks)
    = Some (chunks ++ map (chunk_at size words)
                          (starts (size - overlap) i (S n))).
Proof.
  intros Hov n. induction n as [|n IH]; intros fuel i chunks Hfuel Hi Hbefore Hlast.
  - destruct fuel as [|fuel]; [lia|]. cbn [chunk_loop].
    rewrite chunk_step_last by lia.
    unfold starts. cbn. now replace (i + 0) with i by lia.
  - destruct fuel as [|fuel]; [lia|]. cbn [chunk_loop].
    rewrite chunk_step_next; [|lia|specialize (Hbefore 0); lia].
    rewrite (IH fuel); try lia.
    + rewrite (starts_S _ i (S n)). cbn [map]. now rewrite <- app_assoc.
    + specialize (Hbefore 0). lia.
    + intros k Hk. specialize (Hbefore (k + 1)). lia.
Qed.

Lemma chunk_count_bounds size overlap L :
  0 <= overlap < size -> 0 < L ->
  let n := chunk_count size overlap L in
  1 <= n <= L /\
  (forall k, 0 <= k < n - 1 -> k * (size - overlap) + size < L) /\
  L <= (n - 1) * (size - overlap) + size.
Proof.
  intros Hov HL. unfold chunk_count.
  destruct (Z.leb_spec L 0); [lia|].
  destruct (Z.leb_spec L size).
  - cbn zeta. repeat split; try lia.
  - pose proof (ceil_div_bounds (L - overlap) (size - overlap) ltac:(lia)) as Hc.
    cbn zeta. set (n := ceil_div (L - overlap) (size - overlap)) in *.
    assert (2 <= n) by nia.
    split; [nia|]. split; [|nia].
    intros k Hk. nia.
Qed.

(** [_chunk_text] returns, and returns the chunks that start every
    [size - overlap] words. *)
Lemma chunk_text_run size overlap text (fuel : nat) :
  0 <= overlap < size ->
  (List.length (split text) < fuel)%nat ->
  chunk_text_with fuel size overlap text
  = Some (map (chunk_at size (split text))
              (starts (size - overlap) 0
                 (Z.to_nat (chunk_count size overlap (len (split text)))))).
Proof.
  intros Hov Hfuel. unfold chunk_text_with.
  set (words := split text) in *.
  destruct (Z.eq_dec (len words) 0) as [H0|H0].
  - rewrite H0. cbn. destruct fuel as [|fuel]; [lia|]. cbn [chunk_loop].
    rewrite chunk_step_done by lia. reflexivity.
  - pose proof (len_nonneg words) as Hnn.
    destruct (chunk_count_bounds size overlap (len words) Hov ltac:(lia))
      as (Hn & Hbefore & Hlast).
    set (n := chunk_count size overlap (len words)) in *.
    replace (Z.to_nat n) with (S (Z.to_nat (n - 1))) by lia.
    rewrite (chunk_loop_run size overlap words Hov (Z.to_nat (n - 1)) fuel 0 []).
    + reflexivity.
    + unfold len in *. lia.
    + lia.
    + intros k Hk. specialize (Hbefore k). lia.
    + rewrite Z2Nat.id by lia. lia.
Qed.

Lemma chunk_loop_more_fuel size overlap words (fuel fuel' : nat) st r :
  chunk_loop fuel size overlap words st = Some r ->
  (fuel <= fuel')%nat ->
  chunk_loop fuel' size overlap words st = Some r.
Proof.
  revert fuel' st. induction fuel as [|fuel IH]; intros fuel' st Hrun Hle.
  - discriminate.
  - destruct fuel' as [|fuel']; [lia|]. cbn [chunk_loop] in *.
    destruct (chunk_step size overlap words st) as [st'|chunks].
    + apply IH; [assumption|lia].
    + assumption.
Qed.

(** Each turn that does not return moves the cursor forward. *)
Lemma chunk_step_advances size overlap words i chunks i' chunks' :
  overlap < size ->
  chunk_step size overlap words (i, chunks) = inl (i', chunks') ->
  i < i'.
Proof.
  intros Hov. unfold chunk_step.
  destruct (i <? len words); [|discriminate].
  destruct (i + size >=? len words); [discriminate|].
  intros [= <- _]. lia.
Qed.

Lemma chunk_loop_returns size overlap words :
  overlap < size ->
  forall (fuel : nat) i chunks,
    len words - i < Z.of_nat fuel -> 0 < Z.of_nat fuel ->
    exists r, chunk_loop fuel size overlap words (i, chunks) = Some r.
Proof.
  intros Hov fuel. induction fuel as [|fuel IH]; intros i chunks Hfuel Hpos.
  - lia.
  - cbn [chunk_loop].
    destruct (chunk_step size overlap words (i, chunks)) as [[i' chunks']|r] eqn:Hstep.
    + pose proof (chunk_step_advances _ _ _ _ _ _ _ Hov Hstep) as Hadv.
      assert (i < len words).
      { unfold chunk_step in Hstep.
        destruct (Z.ltb_spec i (len words)); [assumption|discriminate]. }
      apply IH; lia.
    + now exists r.
Qed.

Lemma _chunk_text_eq (text : pystr) :
  _chunk_text text
  = map (chunk_at CHUNK_SIZE (split text))
        (starts (CHUNK_SIZE - CHUNK_OVERLAP) 0
           (Z.to_nat (chunk_count CHUNK_SIZE CHUNK_OVERLAP (len (split text))))).
Proof.
  unfold _chunk_text. rewrite chunk_text_run; [reflexivity| |lia].
  unfold CHUNK_SIZE, CHUNK_OVERLAP. lia.
Qed.

Lemma chunk_text_returns (text : pystr) (fuel : nat) :
  (List.length (split text) < fuel)%nat ->
  chunk_text_with fuel CHUNK_SIZE CHUNK_OVERLAP text = Some (_chunk_text text).
Proof.
  intros Hfuel. rewrite _chunk_text_eq. apply chunk_text_run; [|assumption].
  unfold CHUNK_SIZE, CHUNK_OVERLAP. lia.
Qed.

Lemma chunk_count_nonneg size overlap L :
  0 <= overlap < size -> 0 <= chunk_count size overlap L.
Proof.
  intros Hov. destruct (Z.leb_spec L 0) as [H0|H0].
  - unfold chunk_count. destruct (Z.leb_spec L 0); lia.
  - pose proof (chunk_count_bounds size overlap L Hov H0). cbn zeta in *. lia.
Qed.

Lemma len_chunk_text (text : pystr) :
  len (_chunk_text text)
  = chunk_count CHUNK_SIZE CHUNK_OVERLAP (len (split text)).
Proof.
  rewrite _chunk_text_eq. unfold len at 1.
  rewrite length_map, starts_length.
  apply Z2Nat.id, chunk_count_nonneg. unfold CHUNK_SIZE, CHUNK_OVERLAP. lia.
Qed.

(* ------------------------------------------------------------------ *)
(** ** The orchestrator *)

Lemma client_calls_app (t t' : trace) :
  client_calls (t ++ t') = client_calls t ++ client_calls t'.
Proof. unfold client_calls. apply flat_map_app. Qed.

(** A text within the budget: one call, with the single-pass prompt and
    the main model; its answer is parsed, its exception is passed on. *)
Lemma pipeline_on_single_pass `{Interpreter} answers text filename
    (t0 : trace) :
  len (split text) <= CHUNK_SIZE ->
  let prompt := _build_summary_prompt text filename in
  let answer := answers (List.length (client_calls t0)) prompt MAIN_MODEL in
  pipeline_on answers text filename t0
  = (and_then answer _extract_json,
     t0 ++ ClientCall prompt MAIN_MODEL
        :: match answer with
           | Ok _ => [Info (py "Summary generated")]
           | Raise _ => []
           end).
Proof.
  intros Hle prompt answer.
  unfold pipeline_on, run_pipeline.
  destruct (Z.gtb_spec (len (split text)) CHUNK_SIZE) as [Hgt|_]; [lia|].
  unfold bind, info, act, lift.
  cbn [query_claude scripted_client logging_info recorded_logging].
  fold prompt. fold answer.
  destruct answer as [response|e]; cbn [and_then].
  - now rewrite <- app_assoc.
  - reflexivity.
Qed.

(** The loop over the chunks when every call returns: one call per item,
    in order, and the summaries gathered in that order. *)
Lemma summarise_chunks_run answers total :
  forall (items : list (Z * pystr)) (summaries acc : list pystr) (t0 : trace),
    List.length summaries = List.length items ->
    (forall k, (k < List.length items)%nat ->
       answers (List.length (client_calls t0) + k)%nat
         (_build_chunk_prompt (snd (nth k items (0, [])))
            (fst (nth k items (0, [])) + 1) total)
         CHUNK_MODEL
       = Ok (nth k summaries [])) ->
    exists t1,
      @summarise_chunks trace (scripted_client answers) recorded_logging
        items total acc t0
      = (Ok (acc ++ summaries), t1)
      /\ client_calls t1
         = client_calls t0
           ++ map (fun item => (_build_chunk_prompt (snd item) (fst item + 1) total,
                                CHUNK_MODEL)) items.
Proof.
  induction items as [|[i c] items IH]; intros summaries acc t0 Hlen Hans.
  - destruct summaries; [|discriminate]. exists t0. cbn.
    now rewrite !app_nil_r.
  - destruct summaries as [|s summaries]; [discriminate|].
    cbn [summarise_chunks]. unfold bind at 1. unfold info, act.
    cbn [logging_info recorded_logging].
    unfold bind at 1. cbn [query_claude scripted_client].
    rewrite client_calls_app. cbn [client_calls flat_map]. rewrite app_nil_r.
    pose proof (Hans 0%nat ltac:(cbn; lia)) as H0. cbn [nth fst snd] in H0.
    rewrite Nat.add_0_r in H0. rewrite H0.
    destruct (IH summaries (acc ++ [s])
                ((t0 ++ [Info (py "Summarising chunk " ++ str_of_int (i + 1)
                                 ++ py "/" ++ str_of_int total ++ py "...")])
                 ++ [ClientCall (_build_chunk_prompt c (i + 1) total) CHUNK_MODEL]))
      as (t1 & Hrun & Hcalls).
    + cbn in Hlen. lia.
    + intros k Hk. specialize (Hans (S k) ltac:(cbn; lia)).
      cbn [nth] in Hans. rewrite <- Hans. f_equal.
      rewrite !client_calls_app. cbn. rewrite !length_app. cbn. lia.
    + exists t1. split.
      * rewrite Hrun. now rewrite <- app_assoc.
      * rewrite Hcalls. rewrite !client_calls_app. cbn [client_calls flat_map map fst snd].
        rewrite !app_nil_r. now rewrite <- app_assoc.
Qed.

Lemma py_range_len {A} (l : list A) :
  py_range (len l) = map Z.of_nat (seq 0 (List.length l)).
Proof. unfold py_range, len. now rewrite Nat2Z.id. Qed.

Lemma combine_seq_nth {A} (d : A) (l : list A) (start : nat) :
  combine (map Z.of_nat (seq start (List.length l))) l
  = map (fun k => (Z.of_nat (start + k), nth k l d)) (seq 0 (List.length l)).
Proof.
  revert start. induction l as [|a l IH]; intros start; [reflexivity|].
  cbn [List.length seq map combine nth]. f_equal.
  - now rewrite Nat.add_0_r.
  - rewrite IH, <- seq_shift, map_map. apply map_ext. intros k.
    cbn [nth]. f_equal. lia.
Qed.

(** [enumerate(l)] pairs each element with its index. *)
Lemma enumerate_nth {A} (d : A) (l : list A) :
  enumerate l = map (fun k => (Z.of_nat k, nth k l d)) (seq 0 (List.length l)).
Proof. unfold enumerate. rewrite py_range_len. apply (combine_seq_nth d l 0). Qed.

Lemma enumerate_length {A} (l : list A) :
  List.length (enumerate l) = List.length l.
Proof.
  unfold enumerate. rewrite py_range_len, length_combine, length_map, length_seq.
  apply Nat.min_id.
Qed.

Lemma enumerate_at {A} (d : A) (l : list A) (k : nat) (d' : Z * A) :
  (k < List.length l)%nat ->
  nth k (enumerate l) d' = (Z.of_nat k, nth k l d).
Proof.
  intros Hk. rewrite (enumerate_nth d).
  rewrite (nth_indep _ d' (Z.of_nat 0, nth 0 l d))
    by now rewrite length_map, length_seq.
  rewrite (map_nth (fun k => (Z.of_nat k, nth k l d))).
  now rewrite seq_nth.
Qed.

(** A text over the budget, when every call returns: one call per chunk
    with the chunk model, in chunk order, then one call with the main
    model on the summaries joined by blank lines; its answer is parsed. *)
Lemma pipeline_on_chunked `{Interpreter} answers text filename
      (summaries : list pystr) (response : pystr) :
  let chunks := _chunk_text text in
  let chunk_call (k : nat) :=
    (_build_chunk_prompt (nth k chunks []) (Z.of_nat k + 1) (len chunks),
     CHUNK_MODEL) in
  let final :=
    _build_consolidation_prompt (join (nl ++ nl) summaries) filename in
  CHUNK_SIZE < len (split text) ->
  List.length summaries = List.length chunks ->
  (forall k, (k < List.length chunks)%nat ->
     answers k (fst (chunk_call k)) CHUNK_MODEL = Ok (nth k summaries [])) ->
  answers (List.length chunks) final MAIN_MODEL = Ok response ->
  exists t,
    pipeline_on answers text filename [] = (_extract_json response, t)
    /\ client_calls t
       = map chunk_call (seq 0 (List.length chunks)) ++ [(final, MAIN_MODEL)].
Proof.
  intros chunks chunk_call final Hgt Hlen Hans Hfinal.
  unfold pipeline_on, run_pipeline.
  destruct (Z.gtb_spec (len (split text)) CHUNK_SIZE) as [_|Hle]; [|lia].
  fold chunks.
  set (t0 := [Info (py "Text exceeds " ++ str_of_int CHUNK_SIZE ++ py " words ("
                      ++ str_of_int (len (split text)) ++ py "), chunking...");
              Info (py "Split into " ++ str_of_int (len chunks) ++ py " chunks")]).
  destruct (summarise_chunks_run answers (len chunks) (enumerate chunks)
              summaries [] t0) as (t1 & Hrun & Hcalls).
  - now rewrite enumerate_length.
  - intros k Hk. rewrite enumerate_length in Hk.
    rewrite (enumerate_at ([] : pystr) chunks k) by assumption. cbn [fst snd].
    apply (Hans k Hk).
  - unfold bind at 1. unfold bind at 1. unfold bind at 1.
    unfold info at 1, act at 1. cbn [logging_info recorded_logging app].
    unfold bind at 1. unfold info at 1, act at 1.
    cbn [logging_info recorded_logging app].
    unfold bind at 1. fold t0. rewrite Hrun. cbn [app].
    unfold bind at 1. unfold info at 1, act at 1.
    cbn [logging_info recorded_logging].
    cbn [query_claude scripted_client].
    fold final.
    assert (Hn : List.length (client_calls
                   (t1 ++ [Info (py "Consolidating chunk summaries with main model...")]))
                 = List.length chunks).
    { rewrite client_calls_app, Hcalls. cbn.
      now rewrite app_nil_r, length_map, enumerate_length. }
    rewrite Hn, Hfinal.
    unfold info, act, lift. cbn [logging_info recorded_logging].
    eexists. split; [reflexivity|].
    rewrite !client_calls_app, Hcalls. cbn [client_calls flat_map app].
    rewrite !app_nil_r. f_equal.
    change (client_calls t0) with (@nil (pystr * pystr)). cbn [app].
    rewrite (enumerate_nth ([] : pystr) chunks), map_map. reflexivity.
Qed.

(** The single-pass prompt holds the filename and ends in the text. *)
Lemma summary_prompt_embeds text filename :
  exists head middle,
    _build_summary_prompt text filename = head ++ filename ++ middle ++ text.
Proof.
  exists (join nl
            [ py "You are an academic paper summarizer.";
              [];
              py "Analyze the following paper and return a structured JSON summary with this exact schema:";
              _JSON_SCHEMA;
              [];
              pyq "The 'title' should be the actual paper title if detectable, otherwise use '" ]).
  exists (join nl [pyq "'."; _JSON_RULES; []; py "Paper text:"; []]).
  unfold _build_summary_prompt. cbn [join].
  rewrite <- !app_assoc. rewrite ?app_nil_r. reflexivity.
Qed.

(** The consolidation prompt holds the filename and ends in the
    summaries. *)
Lemma consolidation_prompt_embeds summaries filename :
  exists head middle,
    _build_consolidation_prompt summaries filename
    = head ++ filename ++ middle ++ summaries.
Proof.
  exists (join nl
            [ py "You are an academic paper summarizer.";
              py "The following are partial summaries of consecutive chunks from a long academic paper.";
              [];
              py "Consolidate them into a single structured JSON summary with this exact schema:";
              _JSON_SCHEMA;
              [];
              pyq "The 'title' should be the actual paper title if detectable, otherwise use '" ]).
  exists (join nl [pyq "'."; _JSON_RULES; []; py "Partial summaries:"; []]).
  unfold _build_consolidation_prompt. cbn [join].
  rewrite <- !app_assoc. rewrite ?app_nil_r. reflexivity.
Qed.

(** The prompt of a chunk ends in the chunk. *)
Lemma chunk_prompt_embeds chunk chunk_num total :
  exists head, _build_chunk_prompt chunk chunk_num total = head ++ chunk.
Proof.
  exists (join nl
            [ py "Summarize portion " ++ str_of_int chunk_num ++ py "/"
                ++ str_of_int total ++ py " of an academic paper.";
              py "Extract the main points, any contributions mentioned, and any limitations mentioned.";
              py "Return a concise paragraph of at most 100 words.";
              py "Return ONLY the summary text, no labels or JSON.";
              [];
              py "Text:";
              [] ]).
  unfold _build_chunk_prompt. cbn [join].
  rewrite <- !app_assoc. rewrite ?app_nil_r. reflexivity.
Qed.

(** C1.  [run_pipeline] on a text of at most [CHUNK_SIZE] (3000) words
    makes exactly one call of the Model Client, with the main model and
    the single-pass prompt, which holds the filename and the whole text,
    and returns that answer parsed.  On a longer text, when the calls
    return, it makes exactly one call with the chunk model per chunk, in
    chunk order, then exactly one call with the main model, whose
    consolidation prompt holds the partial summaries joined by double
    newlines in chunk order, and returns that answer parsed. *)
Theorem run_pipeline_calls `{Interpreter}
    (answers : nat -> pystr -> pystr -> pyres pystr) (text filename : pystr) :
  (len (split text) <= CHUNK_SIZE ->
     let prompt := _build_summary_prompt text filename in
     let run := pipeline_on answers text filename [] in
     client_calls (snd run) = [(prompt, MAIN_MODEL)]
     /\ fst run = and_then (answers 0%nat prompt MAIN_MODEL) _extract_json
     /\ exists head middle, prompt = head ++ filename ++ middle ++ text)
  /\
  (CHUNK_SIZE < len (split text) ->
     forall (summaries : list pystr) (response : pystr),
       let chunks := _chunk_text text in
       let chunk_call (k : nat) :=
         (_build_chunk_prompt (nth k chunks []) (Z.of_nat k + 1) (len chunks),
          CHUNK_MODEL) in
       let final :=
         _build_consolidation_prompt (join (nl ++ nl) summaries) filename in
       List.length summaries = List.length chunks ->
       (forall k, (k < List.length chunks)%nat ->
          answers k (fst (chunk_call k)) CHUNK_MODEL = Ok (nth k summaries [])) ->
       answers (List.length chunks) final MAIN_MODEL = Ok response ->
       let run := pipeline_on answers text filename [] in
       client_calls (snd run)
       = map chunk_call (seq 0 (List.length chunks)) ++ [(final, MAIN_MODEL)]
       /\ fst run = _extract_json response
       /\ (forall k, exists head, fst (chunk_call k) = head ++ nth k chunks [])
       /\ exists head middle,
            final = head ++ filename ++ middle ++ join (nl ++ nl) summaries).
Proof.
  split.
  - intros Hle prompt run. subst run.
    rewrite (pipeline_on_single_pass answers text filename [] Hle).
    change (List.length (client_calls [])) with 0%nat.
    cbn [fst snd app]. fold prompt.
    split; [|split; [reflexivity|exact (summary_prompt_embeds text filename)]].
    destruct (answers 0%nat prompt MAIN_MODEL); reflexivity.
  - intros Hgt summaries response chunks chunk_call final Hlen Hans Hfinal run.
    destruct (pipeline_on_chunked answers text filename summaries response
                Hgt Hlen Hans Hfinal) as (t & Hrun & Hcalls).
    subst run. rewrite Hrun. cbn [fst snd].
    split; [exact Hcalls|]. split; [reflexivity|]. split.
    + intros k.
      exact (chunk_prompt_embeds (nth k chunks []) (Z.of_nat k + 1) (len chunks)).
    + exact (consolidation_prompt_embeds (join (nl ++ nl) summaries) filename).
Qed.

(** C2.  For a text of [L > CHUNK_SIZE] words (chunk size 3000, overlap
    200) [_chunk_text] returns exactly
    [ceil ((L - overlap) / (size - overlap))] chunks; for [L <= CHUNK_SIZE]
    the orchestrator makes exactly one call of the Model Client, the
    single-pass one, and none for a chunk. *)
Theorem chunk_count_formula `{Interpreter} (text : pystr) :
  let L := len (split text) in
  (CHUNK_SIZE < L ->
     (forall fuel : nat, (List.length (split text) < fuel)%nat ->
        chunk_text_with fuel CHUNK_SIZE CHUNK_OVERLAP text
        = Some (_chunk_text text))
     /\ len (_chunk_text text)
        = ceil_div (L - CHUNK_OVERLAP) (CHUNK_SIZE - CHUNK_OVERLAP))
  /\
  (L <= CHUNK_SIZE ->
     forall answers filename,
       client_calls (snd (pipeline_on answers text filename []))
       = [(_build_summary_prompt text filename, MAIN_MODEL)]).
Proof.
  intros L. split.
  - intros Hgt. split.
    + intros fuel Hfuel. now apply chunk_text_returns.
    + rewrite len_chunk_text. fold L. unfold chunk_count.
      destruct (Z.leb_spec L 0); [unfold CHUNK_SIZE in *; lia|].
      destruct (Z.leb_spec L CHUNK_SIZE); [lia|reflexivity].
  - intros Hle answers filename.
    rewrite (pipeline_on_single_pass answers text filename [] Hle).
    cbn [snd app]. change (List.length (client_calls [])) with 0%nat.
    destruct (answers 0%nat _ MAIN_MODEL); reflexivity.
Qed.

Lemma starts_map step (n : nat) :
  starts step 0 n = map (fun k => Z.of_nat k * step) (seq 0 n).
Proof. unfold starts. apply map_ext. intros k. lia. Qed.

(** Every word lies in the range of some chunk. *)
Lemma chunks_cover size overlap L j :
  0 <= overlap < size -> 0 <= j < L ->
  exists k, 0 <= k < chunk_count size overlap L /\ in_chunk size overlap k j.
Proof.
  intros Hov Hj.
  destruct (chunk_count_bounds size overlap L Hov ltac:(lia)) as (Hn & _ & Hlast).
  set (n := chunk_count size overlap L) in *.
  set (step := size - overlap) in *.
  assert (Hstep : 0 < step) by (unfold step; lia).
  pose proof (Z.div_mod j step ltac:(lia)) as Hdm.
  pose proof (Z.mod_pos_bound j step Hstep) as Hr.
  assert (0 <= j / step) by (apply Z.div_pos; lia).
  destruct (Z_lt_le_dec (j / step) n) as [Hk|Hk].
  - exists (j / step). unfold in_chunk. fold step. split; [lia|]. nia.
  - exists (n - 1). unfold in_chunk. fold step. split; [lia|]. nia.
Qed.

(** A word that lies in the ranges of two chunks is one of the words the
    later chunk repeats. *)
Lemma chunks_share_only_overlap size overlap n j k k' :
  0 <= overlap < size ->
  0 <= k < k' -> k' < n ->
  in_chunk size overlap k j -> in_chunk size overlap k' j ->
  in_overlap size overlap n j.
Proof.
  unfold in_chunk, in_overlap. intros Hov Hk Hk' Hin Hin'.
  exists k'. split; [lia|]. nia.
Qed.

(** C3.  For every text and every chunk size and overlap with
    [0 <= overlap < size], [_chunk_text] returns the chunks of the word
    ranges [[k * step, k * step + size)], [step = size - overlap], for
    [k = 0 .. n - 1]: consecutive starts differ by [step]; every word of
    the text lies in one of the ranges, so none is dropped at the end;
    and a word outside the overlaps lies in exactly one.  For 7000 words
    at 3000 and 200 the chunks are the ranges [[0, 3000)], [[2800, 5800)]
    and [[5600, 7000)]. *)
Theorem chunk_coverage :
  (forall (size overlap : Z) (text : pystr),
     0 <= overlap < size ->
     let words := split text in
     let step := size - overlap in
     exists n : nat,
       (forall fuel : nat, (List.length words < fuel)%nat ->
          chunk_text_with fuel size overlap text
          = Some (map (fun k => join space
                                  (py_slice words (Z.of_nat k * step)
                                            (Z.of_nat k * step + size)))
                      (seq 0 n)))
       /\ (forall j, 0 <= j < len words ->
             exists k, 0 <= k < Z.of_nat n /\ in_chunk size overlap k j)
       /\ (forall j k k',
             0 <= j < len words ->
             ~ in_overlap size overlap (Z.of_nat n) j ->
             0 <= k < Z.of_nat n -> in_chunk size overlap k j ->
             0 <= k' < Z.of_nat n -> in_chunk size overlap k' j ->
             k = k'))
  /\
  (forall text : pystr,
     let words := split text in
     len words = 7000 ->
     _chunk_text text
     = [ join space (py_slice words 0 3000);
         join space (py_slice words 2800 5800);
         join space (py_slice words 5600 7000) ]).
Proof.
  split.
  - intros size overlap text Hov words step.
    pose proof (chunk_count_nonneg size overlap (len words) Hov) as Hnn.
    exists (Z.to_nat (chunk_count size overlap (len words))).
    rewrite Z2Nat.id by assumption.
    split; [|split].
    + intros fuel Hfuel.
      rewrite (chunk_text_run size overlap text fuel Hov Hfuel).
      fold words. fold step. rewrite starts_map, map_map. reflexivity.
    + intros j Hj. now apply chunks_cover.
    + intros j k k' Hj Hout Hk Hin Hk' Hin'.
      destruct (Z.lt_trichotomy k k') as [Hlt|[Heq|Hgt]]; [|exact Heq|].
      * exfalso. apply Hout.
        apply (chunks_share_only_overlap size overlap _ j k k'); try assumption; lia.
      * exfalso. apply Hout.
        apply (chunks_share_only_overlap size overlap _ j k' k); try assumption; lia.
  - intros text words Hlen.
    rewrite _chunk_text_eq. fold words. rewrite Hlen.
    replace (Z.to_nat (chunk_count CHUNK_SIZE CHUNK_OVERLAP 7000)) with 3%nat
      by (vm_compute; reflexivity).
    unfold starts, chunk_at. cbn [seq map].
    unfold py_slice. rewrite Hlen. reflexivity.
Qed.

(** An overlap below zero is a gap: the chunks of four words at size 2
    and overlap -1 leave the third word out; the coverage of the words
    needs [0 <= overlap]. *)
Example negative_overlap_skips_words :
  chunk_text_with 5 2 (-1) (py "a b c d") = Some [py "a b"; py "d"].
Proof. reflexivity. Qed.

(** With the overlap equal to the chunk size the cursor of [_chunk_text]
    stays where it is. *)
Lemma chunk_loop_stuck (fuel : nat) (chunks : list pystr) :
  chunk_loop fuel 1 1 (split (py "a b")) (0, chunks) = None.
Proof.
  revert chunks. induction fuel as [|fuel IH]; intros chunks; [reflexivity|].
  cbn [chunk_loop].
  change (chunk_step 1 1 (split (py "a b")) (0, chunks))
    with (@inl (Z * list pystr) (list pystr) (0, chunks ++ [py "a"])).
  apply IH.
Qed.

(** C4, as stated, fails: nothing checks the overlap against the chunk
    size.  With both at 1 the chunker takes a one-word text and returns
    its chunk, and on a two-word text it never returns, whatever the
    fuel. *)
Lemma chunker_checks_nothing :
  chunk_text_with 1 1 1 (py "a") = Some [py "a"]
  /\ forall fuel : nat, chunk_text_with fuel 1 1 (py "a b") = None.
Proof.
  split; [reflexivity|]. intros fuel. apply chunk_loop_stuck.
Qed.

(** C4, amended.  [_chunk_text] checks nothing; when the overlap is below
    the chunk size every turn of its loop that goes on moves the cursor
    forward, and the function returns on every text. *)
Theorem chunker_terminates (size overlap : Z) (text : pystr) :
  overlap < size ->
  (forall i chunks i' chunks',
     chunk_step size overlap (split text) (i, chunks) = inl (i', chunks') ->
     i < i')
  /\
  (exists chunks,
     forall fuel : nat, (List.length (split text) < fuel)%nat ->
       chunk_text_with fuel size overlap text = Some chunks).
Proof.
  intros Hov. split.
  - intros i chunks i' chunks'. now apply chunk_step_advances.
  - destruct (chunk_loop_returns size overlap (split text) Hov
                (S (List.length (split text))) 0 [])
      as (chunks & Hrun); [unfold len; lia|lia|].
    exists chunks. intros fuel Hfuel. unfold chunk_text_with.
    apply (chunk_loop_more_fuel _ _ _ _ fuel _ _ Hrun). lia.
Qed.

(* ------------------------------------------------------------------ *)
(** ** Texts within one chunk *)

Lemma py_slice_all {A} (l : list A) (size : Z) :
  len l <= size -> py_slice l 0 (0 + size) = l.
Proof.
  intros Hle. pose proof (len_nonneg l) as Hnn. unfold py_slice.
  change (0 <? 0) with false. cbn iota.
  destruct (Z.ltb_spec (0 + size) 0); [lia|].
  rewrite (Z.min_l 0 (len l)) by lia.
  rewrite (Z.min_r (0 + size) (len l)) by lia. cbn [Z.to_nat skipn].
  rewrite Z.sub_0_r. unfold len. rewrite Nat2Z.id. apply firstn_all.
Qed.

Lemma split_from_word (w rest cur : pystr) :
  forallb (fun c => negb (isspace c)) w = true ->
  split_from (w ++ rest) cur = split_from rest (cur ++ w).
Proof.
  revert cur. induction w as [|c w IH]; intros cur Hw.
  - now rewrite app_nil_r.
  - cbn [forallb] in Hw. apply andb_prop in Hw as [Hc Hw].
    cbn [app split_from]. apply negb_true_iff in Hc. rewrite Hc.
    rewrite IH by assumption. now rewrite <- app_assoc.
Qed.

(** Words joined by single spaces split into those words. *)
Lemma split_join (ws : list pystr) :
  forallb is_word ws = true -> split (join space ws) = ws.
Proof.
  unfold split. induction ws as [|w ws IH]; intros Hws; [reflexivity|].
  cbn [forallb] in Hws. apply andb_prop in Hws as [Hw Hws].
  assert (Hne : w <> []) by (destruct w; [discriminate|congruence]).
  assert (Hns : forallb (fun c => negb (isspace c)) w = true)
    by (destruct w; [discriminate|exact Hw]).
  destruct ws as [|w' ws].
  - cbn [join]. rewrite <- (app_nil_r w) at 1.
    rewrite split_from_word by assumption. cbn.
    destruct w; [contradiction|reflexivity].
  - change (join space (w :: w' :: ws))
      with (w ++ space ++ join space (w' :: ws)).
    rewrite split_from_word by assumption. cbn [app].
    change (space ++ join space (w' :: ws))
      with (32%N :: join space (w' :: ws)).
    cbn [split_from]. change (isspace 32) with true. cbn iota.
    rewrite (IH Hws). destruct w; [contradiction|reflexivity].
Qed.

(** C10, as stated, fails twice: the empty text has no chunk, and the one
    chunk of a short text is its words joined by single spaces, here not
    the text. *)
Lemma small_text_not_one_whole_chunk :
  len (split (py "")) <= CHUNK_SIZE
  /\ _chunk_text (py "") = []
  /\ len (split (py "a  b")) <= CHUNK_SIZE
  /\ _chunk_text (py "a  b") = [py "a b"]
  /\ py "a b" <> py "a  b".
Proof.
  repeat split; try (vm_compute; congruence).
Qed.

(** C10, amended.  For every text of at least one and at most
    [CHUNK_SIZE] words [_chunk_text] returns exactly one chunk, the words
    of the text joined by single spaces, which is the text itself when
    the text is words joined by single spaces; for a text without a word
    it returns no chunk. *)
Theorem small_text_single_chunk (text : pystr) :
  let words := split text in
  (1 <= len words <= CHUNK_SIZE -> _chunk_text text = [join space words])
  /\ (len words = 0 -> _chunk_text text = [])
  /\ (1 <= len words <= CHUNK_SIZE ->
      forall ws, forallb is_word ws = true -> text = join space ws ->
                 _chunk_text text = [text]).
Proof.
  intros words.
  assert (Hone : 1 <= len words <= CHUNK_SIZE ->
                 _chunk_text text = [join space words]).
  { intros Hlen. rewrite _chunk_text_eq. fold words. unfold chunk_count.
    destruct (Z.leb_spec (len words) 0); [lia|].
    destruct (Z.leb_spec (len words) CHUNK_SIZE); [|lia].
    change (Z.to_nat 1) with 1%nat. unfold starts, chunk_at. cbn [seq map].
    change (0 + Z.of_nat 0 * (CHUNK_SIZE - CHUNK_OVERLAP)) with 0.
    rewrite py_slice_all by lia. reflexivity. }
  split; [exact Hone|]. split.
  - intros H0. rewrite _chunk_text_eq. fold words. rewrite H0. reflexivity.
  - intros Hlen ws Hws Htext. rewrite (Hone Hlen). subst words.
    rewrite Htext at 1. rewrite split_join by assumption. now rewrite Htext.
Qed.

(* ------------------------------------------------------------------ *)
(** ** The Model Client *)

Lemma queries_made_app (t t' : trace) :
  queries_made (t ++ t') = (queries_made t + queries_made t')%nat.
Proof. unfold queries_made. now rewrite filter_app, length_app. Qed.

Lemma sleeps_app (t t' : trace) : sleeps (t ++ t') = sleeps t ++ sleeps t'.
Proof. unfold sleeps. apply flat_map_app. Qed.

Lemma backoff_events_S prompt model retries (first k : nat) :
  backoff_events prompt model retries first (S k)
  = [ Query prompt model 1;
      Warning (rate_limit_warning (60 * (Z.of_nat first + 1))
                 (Z.of_nat first) retries);
      Sleep (60 * (Z.of_nat first + 1)) ]
    ++ backoff_events prompt model retries (S first) k.
Proof. reflexivity. Qed.

Lemma queries_made_backoff prompt model retries (first k : nat) :
  queries_made (backoff_events prompt model retries first k) = k.
Proof.
  revert first. induction k as [|k IH]; intros first; [reflexivity|].
  rewrite backoff_events_S, queries_made_app, IH. reflexivity.
Qed.

Lemma sleeps_backoff prompt model retries (first k : nat) :
  sleeps (backoff_events prompt model retries first k)
  = map (fun i => 60 * (Z.of_nat i + 1)) (seq first k).
Proof.
  revert first. induction k as [|k IH]; intros first; [reflexivity|].
  rewrite backoff_events_S, sleeps_app, IH. reflexivity.
Qed.

Section ScriptedBackend.

Variable backend : nat -> pystr -> pystr -> stream.
Variables prompt model : pystr.
Variable retries : Z.

Let attempts_on (todo : list Z) : M trace pystr :=
  @attempts trace (scripted_sdk backend) recorded_logging
    todo prompt model retries.

(** An attempt whose query returns: the text of its blocks, joined and
    stripped. *)
Lemma attempt_returns attempt todo (t : trace) :
  raised (backend (queries_made t) prompt model) = None ->
  attempts_on (attempt :: todo) t
  = (Ok (strip (join [] (text_parts
                           (yielded (backend (queries_made t) prompt model))))),
     t ++ [Query prompt model 1]).
Proof.
  intros Hok. unfold attempts_on. cbn [attempts sdk_query scripted_sdk].
  now rewrite Hok.
Qed.

(** An attempt whose query raises and that is not retried: the
    exception goes to the caller, and nothing else happens. *)
Lemma attempt_raises attempt todo (t : trace) e :
  raised (backend (queries_made t) prompt model) = Some e ->
  exn_is_Exception e = false \/ is_rate_limit e = false
    \/ retries - 1 <= attempt ->
  attempts_on (attempt :: todo) t = (Raise e, t ++ [Query prompt model 1]).
Proof.
  intros Hraise Hwhy. unfold attempts_on.
  cbn [attempts sdk_query scripted_sdk]. rewrite Hraise.
  destruct (exn_is_Exception e); [|reflexivity].
  destruct (is_rate_limit e); [|reflexivity].
  destruct (Z.ltb_spec attempt (retries - 1)) as [Hlt|Hge]; [|reflexivity].
  destruct Hwhy as [Hw|[Hw|Hw]]; [discriminate|discriminate|lia].
Qed.

(** An attempt that is rate limited and not the last: warning, sleep,
    next attempt. *)
Lemma attempt_retries attempt todo (t : trace) :
  rate_limited backend prompt model (queries_made t) ->
  attempt < retries - 1 ->
  attempts_on (attempt :: todo) t
  = attempts_on todo
      (t ++ [ Query prompt model 1;
              Warning (rate_limit_warning (60 * (attempt + 1)) attempt retries);
              Sleep (60 * (attempt + 1)) ]).
Proof.
  intros (e & Hraise & Hexc & Hrl) Hmore. unfold attempts_on.
  cbn [attempts sdk_query scripted_sdk asyncio_sleep logging_warning
       recorded_logging].
  rewrite Hraise, Hexc, Hrl.
  destruct (Z.ltb_spec attempt (retries - 1)); [|lia].
  cbn [andb]. now rewrite <- !app_assoc.
Qed.

(** [k] rate-limited attempts in a row, none of them the last. *)
Lemma attempts_backoff (k : nat) :
  forall (first : nat) (todo : list Z) (t : trace),
    (forall i, (i < k)%nat ->
       rate_limited backend prompt model (queries_made t + i)) ->
    Z.of_nat (first + k) <= retries - 1 ->
    attempts_on (map Z.of_nat (seq first k) ++ todo) t
    = attempts_on todo (t ++ backoff_events prompt model retries first k).
Proof.
  induction k as [|k IH]; intros first todo t Hrl Hmore.
  - cbn. now rewrite app_nil_r.
  - cbn [seq map app]. rewrite attempt_retries.
    + rewrite IH.
      * rewrite backoff_events_S. now rewrite <- app_assoc.
      * intros i Hi. rewrite queries_made_app. cbn.
        replace (queries_made t + 1 + i)%nat with (queries_made t + S i)%nat by lia.
        apply Hrl. lia.
      * lia.
    + specialize (Hrl 0%nat ltac:(lia)). now rewrite Nat.add_0_r in Hrl.
    + lia.
Qed.

Lemma py_range_split (k : nat) :
  Z.of_nat k < retries ->
  py_range retries
  = map Z.of_nat (seq 0 k)
    ++ Z.of_nat k :: map Z.of_nat (seq (S k) (Z.to_nat retries - S k)).
Proof.
  intros Hk. unfold py_range.
  replace (Z.to_nat retries) with (k + S (Z.to_nat retries - S k))%nat at 1 by lia.
  rewrite seq_app, map_app. reflexivity.
Qed.

(** After [k] rate-limited attempts, the attempt that returns. *)
Lemma query_on_returns (k : nat) :
  Z.of_nat k < retries ->
  (forall i, (i < k)%nat -> rate_limited backend prompt model i) ->
  raised (backend k prompt model) = None ->
  query_on backend prompt model retries []
  = (Ok (strip (join [] (text_parts (yielded (backend k prompt model))))),
     backoff_events prompt model retries 0 k ++ [Query prompt model 1]).
Proof.
  intros Hk Hrl Hok. unfold query_on, _query_claude.
  rewrite (py_range_split k Hk).
  change (@attempts trace (scripted_sdk backend) recorded_logging
            ?todo prompt model retries) with (attempts_on todo).
  rewrite attempts_backoff; [|exact Hrl|lia].
  cbn [app]. rewrite attempt_returns;
    rewrite queries_made_backoff; [reflexivity|exact Hok].
Qed.

(** After [k] rate-limited attempts, the attempt whose exception is not
    retried. *)
Lemma query_on_raises (k : nat) (e : exn) :
  Z.of_nat k < retries ->
  (forall i, (i < k)%nat -> rate_limited backend prompt model i) ->
  raised (backend k prompt model) = Some e ->
  exn_is_Exception e = false \/ is_rate_limit e = false
    \/ Z.of_nat k = retries - 1 ->
  query_on backend prompt model retries []
  = (Raise e, backoff_events prompt model retries 0 k ++ [Query prompt model 1]).
Proof.
  intros Hk Hrl Hraise Hwhy. unfold query_on, _query_claude.
  rewrite (py_range_split k Hk).
  change (@attempts trace (scripted_sdk backend) recorded_logging
            ?todo prompt model retries) with (attempts_on todo).
  rewrite attempts_backoff; [|exact Hrl|lia].
  cbn [app]. rewrite (attempt_raises _ _ _ e);
    rewrite ?queries_made_backoff; [reflexivity|exact Hraise|].
  destruct Hwhy as [H|[H|H]]; [now left|now right; left|right; right; lia].
Qed.

End ScriptedBackend.

(** C5.  When the backend raises an exception that is not a rate-limit
    error, on the first attempt or after rate-limited ones,
    [_query_claude] raises that same exception: the failed query is the
    last thing it does, with no sleep and no retry after it.  A
    rate-limit error on the last attempt is passed on in the same way. *)
Theorem fatal_errors_propagate
    (backend : nat -> pystr -> pystr -> stream) (prompt model : pystr)
    (retries : Z) (k : nat) (e : exn) :
  Z.of_nat k < retries ->
  (forall i, (i < k)%nat -> rate_limited backend prompt model i) ->
  raised (backend k prompt model) = Some e ->
  is_rate_limit e = false \/ Z.of_nat k = retries - 1 ->
  let run := query_on backend prompt model retries [] in
  fst run = Raise e
  /\ snd run
     = backoff_events prompt model retries 0 k ++ [Query prompt model 1]
  /\ queries_made (snd run) = S k
  /\ sleeps (snd run) = map (fun i => 60 * (Z.of_nat i + 1)) (seq 0 k)
  /\ (k = 0%nat -> snd run = [Query prompt model 1]).
Proof.
  intros Hk Hrl Hraise Hwhy run. subst run.
  rewrite (query_on_raises backend prompt model retries k e Hk Hrl Hraise)
    by (destruct Hwhy; [right; now left|right; now right]).
  cbn [fst snd]. split; [reflexivity|]. split; [reflexivity|]. split; [|split].
  - rewrite queries_made_app, queries_made_backoff. cbn. lia.
  - rewrite sleeps_app, sleeps_backoff. cbn. now rewrite app_nil_r.
  - intros ->. reflexivity.
Qed.

(** C6.  With [retries = 3], when the backend raises a rate-limit error
    on the first two attempts and returns on the third, [_query_claude]
    sleeps 60 seconds after the first failure and 120 after the second
    ([60 * (attempt + 1)]), and returns the text of the third attempt,
    joined and stripped of the white space around it. *)
Theorem backoff_schedule
    (backend : nat -> pystr -> pystr -> stream) (prompt model : pystr)
    (messages : list message) :
  rate_limited backend prompt model 0 ->
  rate_limited backend prompt model 1 ->
  backend 2%nat prompt model = mkStream messages None ->
  let run := query_on backend prompt model 3 [] in
  fst run = Ok (strip (join [] (text_parts messages)))
  /\ snd run
     = [ Query prompt model 1;
         Warning (rate_limit_warning 60 0 3); Sleep 60;
         Query prompt model 1;
         Warning (rate_limit_warning 120 1 3); Sleep 120;
         Query prompt model 1 ]
  /\ sleeps (snd run) = [60; 120].
Proof.
  intros H0 H1 H2 run. subst run.
  rewrite (query_on_returns backend prompt model 3 2).
  - rewrite H2. cbn [yielded fst snd]. repeat split; reflexivity.
  - lia.
  - intros i Hi. destruct i as [|[|i]]; [assumption|assumption|lia].
  - now rewrite H2.
Qed.

(* ------------------------------------------------------------------ *)
(** ** The response parser *)

(** What [re.search] finds runs from the first opening brace of the text
    to the last closing brace after it. *)
Lemma from_first_open_spec (s t : pystr) :
  from_first_open s = Some t ->
  exists a body, s = a ++ t /\ t = Json.ch "{" :: body /\ ~ In (Json.ch "{") a.
Proof.
  revert t. induction s as [|c s IH]; intros t Ht; [discriminate|].
  cbn [from_first_open] in Ht. destruct (N.eqb_spec c (Json.ch "{")) as [->|Hc].
  - injection Ht as <-. exists [], s. repeat split. intros [].
  - destruct (IH t Ht) as (a & body & -> & -> & Hno).
    exists (c :: a), body. repeat split.
    intros [Hin|Hin]; [now apply Hc|now apply Hno].
Qed.

Lemma upto_last_close_spec (s p : pystr) :
  upto_last_close s = Some p ->
  exists body b, s = p ++ b /\ p = body ++ [Json.ch "}"]
                 /\ ~ In (Json.ch "}") b.
Proof.
  revert p. induction s as [|c s IH]; intros p Hp; [discriminate|].
  cbn [upto_last_close] in Hp.
  destruct (upto_last_close s) as [p'|] eqn:Hs.
  - injection Hp as <-. destruct (IH p' eq_refl) as (body & b & -> & -> & Hno).
    exists (c :: body), b. repeat split. exact Hno.
  - destruct (N.eqb_spec c (Json.ch "}")) as [->|Hc]; [|discriminate].
    injection Hp as <-. exists [], s. repeat split.
    clear IH. induction s as [|d s IHs]; [intros []|].
    cbn [upto_last_close] in Hs.
    destruct (upto_last_close s); [discriminate|].
    destruct (N.eqb_spec d (Json.ch "}")) as [->|Hd]; [discriminate|].
    intros [Hin|Hin]; [now apply Hd|now apply IHs].
Qed.

Lemma re_search_braces_spec (s group : pystr) :
  re_search_braces s = Some group ->
  exists a body b,
    s = a ++ group ++ b
    /\ group = Json.ch "{" :: body ++ [Json.ch "}"]
    /\ ~ In (Json.ch "{") a /\ ~ In (Json.ch "}") b.
Proof.
  unfold re_search_braces. intros Hs.
  destruct (from_first_open s) as [t|] eqn:Hopen; [|discriminate].
  destruct (from_first_open_spec s t Hopen) as (a & rest & -> & -> & Hno).
  destruct (upto_last_close rest) as [p|] eqn:Hclose; [|discriminate].
  injection Hs as <-.
  destruct (upto_last_close_spec rest p Hclose) as (body & b & -> & -> & Hnob).
  exists a, body, b. repeat split; assumption.
Qed.

(** The parser takes a fenced answer, with a comment before it, as it
    takes the bare one. *)
Example extract_json_fenced `{Interpreter} :
  _extract_json (pyq "Here is the summary:
```json
{'title': 'X', 'question': 'Q?'}
```
")
  = _extract_json (pyq "{'title': 'X', 'question': 'Q?'}")
  /\ _extract_json (pyq "{'title': 'X', 'question': 'Q?'}")
     = Ok (PyDict [(py "title", PyStr (py "X")); (py "question", PyStr (py "Q?"))]).
Proof. compute_with_room. Qed.

(** C7, as stated, fails: a text of two thousand opening brackets does
    not decode, and [_extract_json] raises the [RecursionError] of
    [json.loads], not the [ValueError] with the first 400 characters. *)
Lemma unparsable_response_overruns :
  let text := repeat (Json.ch "[") 2000 in
  (forall v, Json.loads (fence_clean text) <> Json.Decoded v)
  /\ re_search_braces (fence_clean text) = None
  /\ _extract_json text = Raise (RecursionError (Json.ch "["))
  /\ _extract_json text
     <> Raise (ValueError (py "Could not parse JSON from Claude response:"
                             ++ nl ++ firstn 400 text)).
Proof.
  cbv zeta.
  assert (Hloads : Json.loads (fence_clean (repeat (Json.ch "[") 2000))
                   = Json.LimitError (RecursionError (Json.ch "[")))
    by (vm_compute; reflexivity).
  assert (Hrun : _extract_json (repeat (Json.ch "[") 2000)
                 = Raise (RecursionError (Json.ch "[")))
    by (unfold _extract_json; now rewrite Hloads).
  split; [intros v; rewrite Hloads; discriminate|].
  split; [vm_compute; reflexivity|].
  split; [exact Hrun|]. rewrite Hrun. intros Heq.
  apply (f_equal (fun r => match r with
                           | Raise e => exn_class e
                           | Ok _ => []
                           end)) in Heq.
  vm_compute in Heq. discriminate Heq.
Qed.

(** C7, amended.  When the decoding of the cleaned text and of what
    [re.search] finds in it, from its first opening brace to its last
    closing brace, both fail with a [JSONDecodeError], [_extract_json]
    raises a [ValueError] whose message ends in the first 400 characters
    of the raw response; the text without a brace
    [Sorry, I cannot help with that.] is such a response.  An exception
    of another class that [json.loads] raises on one of the two goes
    through as it is. *)
Theorem unparsable_response_fails `{Interpreter} :
  (forall text : pystr,
     Json.loads (fence_clean text) = Json.DecodeError ->
     (forall group, re_search_braces (fence_clean text) = Some group ->
                    Json.loads group = Json.DecodeError) ->
     _extract_json text
     = Raise (ValueError (py "Could not parse JSON from Claude response:"
                            ++ nl ++ firstn 400 text)))
  /\
  (forall (text : pystr) (e : exn),
     Json.loads (fence_clean text) = Json.LimitError e
     \/ (Json.loads (fence_clean text) = Json.DecodeError
         /\ exists group, re_search_braces (fence_clean text) = Some group
                          /\ Json.loads group = Json.LimitError e) ->
     _extract_json text = Raise e)
  /\
  (re_search_braces (py "Sorry, I cannot help with that.") = None
   /\ _extract_json (py "Sorry, I cannot help with that.")
      = Raise (ValueError (py "Could not parse JSON from Claude response:"
                             ++ nl ++ py "Sorry, I cannot help with that."))).
Proof.
  split; [|split].
  - intros text Hwhole Hgroup. unfold _extract_json. rewrite Hwhole.
    destruct (re_search_braces (fence_clean text)) as [group|] eqn:Hsearch.
    + now rewrite (Hgroup group eq_refl).
    + reflexivity.
  - intros text e [Hwhole|(Hwhole & group & Hsearch & Hgroup)];
      unfold _extract_json; rewrite Hwhole; [reflexivity|].
    now rewrite Hsearch, Hgroup.
  - split; [vm_compute; reflexivity|]. compute_with_room.
Qed.

(** C8: [_extract_json] returns what [json.loads] returns, of whatever
    type: here an [int], a [list] and [None], none of them a [dict]. *)
Theorem extract_json_returns_non_object `{Interpreter} :
  _extract_json (py "42") = Ok (PyInt 42)
  /\ _extract_json (py "[1, 2]") = Ok (PyList [PyInt 1; PyInt 2])
  /\ _extract_json (py "null") = Ok PyNone
  /\ is_dict (PyInt 42) = false.
Proof. compute_with_room. Qed.

(** C9, as stated, fails: a fence marker inside a JSON string is taken
    out like any other, and the value decoded is not the one sent. *)
Lemma fence_clean_alters_payload :
  fence_clean (pyq "{'a': 'x```y'}") = pyq "{'a': 'xy'}"
  /\ Json.loads (pyq "{'a': 'x```y'}")
     = Json.Decoded (PyDict [(py "a", PyStr (py "x```y"))])
  /\ _extract_json (pyq "{'a': 'x```y'}")
     = Ok (PyDict [(py "a", PyStr (py "xy"))]).
Proof. repeat split; vm_compute; reflexivity. Qed.

Lemma strip_prefix_length (p s r : pystr) :
  strip_prefix p s = Some r ->
  List.length s = (List.length p + List.length r)%nat.
Proof.
  revert s. induction p as [|a p IH]; intros s Hs.
  - cbn in Hs. injection Hs as ->. reflexivity.
  - destruct s as [|b s]; [discriminate|]. cbn [strip_prefix] in Hs.
    destruct (a =? b)%N; [|discriminate]. cbn. now rewrite (IH s Hs).
Qed.

Lemma strip_prefix_self (p r : pystr) : strip_prefix p (p ++ r) = Some r.
Proof.
  induction p as [|a p IH]; [reflexivity|].
  cbn [app strip_prefix]. now rewrite N.eqb_refl.
Qed.

Lemma strip_prefix_eq (p : pystr) :
  forall s r, strip_prefix p s = Some r -> s = p ++ r.
Proof.
  induction p as [|a p IH]; intros s r Hs.
  - cbn in Hs. now injection Hs as ->.
  - destruct s as [|b s]; [discriminate|]. cbn [strip_prefix] in Hs.
    destruct (N.eqb_spec a b) as [->|]; [|discriminate].
    cbn [app]. f_equal. now apply IH.
Qed.

Lemma lstrip_length (s : pystr) : (List.length (lstrip s) <= List.length s)%nat.
Proof.
  induction s as [|c s IH]; [reflexivity|]. cbn [lstrip].
  destruct (isspace c); cbn; lia.
Qed.

(** More fuel than the length of the text changes nothing. *)
Lemma sub_fence_fuel (fuel : nat) :
  forall s, (List.length s <= fuel)%nat -> sub_fence fuel s = re_sub_fence s.
Proof.
  unfold re_sub_fence.
  induction fuel as [fuel IH] using lt_wf_ind. intros s Hlen.
  destruct s as [|c s].
  { destruct fuel; reflexivity. }
  destruct fuel as [|fuel]; [cbn in Hlen; lia|].
  cbn [List.length sub_fence].
  destruct (strip_prefix fence (c :: s)) as [r|] eqn:Hfence.
  - apply strip_prefix_length in Hfence. cbn in Hfence.
    set (r' := match strip_prefix (py "json") r with
               | Some after_tag => after_tag
               | None => r
               end).
    assert (Hr' : (List.length r' <= List.length r)%nat).
    { subst r'. destruct (strip_prefix (py "json") r) as [x|] eqn:Hx; [|lia].
      apply strip_prefix_length in Hx. lia. }
    pose proof (lstrip_length r') as Hl. cbn [List.length] in Hlen.
    rewrite (IH fuel ltac:(lia) (lstrip r') ltac:(lia)).
    rewrite (IH (List.length s) ltac:(lia) (lstrip r') ltac:(lia)). reflexivity.
  - cbn [List.length] in Hlen. f_equal.
    rewrite (IH fuel ltac:(lia) s ltac:(lia)). reflexivity.
Qed.

Lemma contains_tail (p : pystr) (c : N) (s : pystr) :
  contains p (c :: s) = false ->
  strip_prefix p (c :: s) = None /\ contains p s = false.
Proof.
  cbn [contains]. destruct (strip_prefix p (c :: s)); [discriminate|]. now split.
Qed.

(** A text without a fence marker is left as it is. *)
Lemma sub_fence_id (fuel : nat) :
  forall s, (List.length s <= fuel)%nat -> contains fence s = false ->
            sub_fence fuel s = s.
Proof.
  induction fuel as [|fuel IH]; intros s Hlen Hno.
  - destruct s; [reflexivity|cbn in Hlen; lia].
  - destruct s as [|c s]; [reflexivity|].
    apply contains_tail in Hno as [Hhead Htail].
    cbn [sub_fence]. rewrite Hhead. f_equal. apply IH; [cbn in Hlen; lia|assumption].
Qed.

(** A text that does not start with a fence marker keeps its first
    character. *)
Lemma sub_fence_cons (fuel : nat) (c : N) (s : pystr) :
  strip_prefix fence (c :: s) = None ->
  sub_fence (S fuel) (c :: s) = c :: sub_fence fuel s.
Proof. intros Hs. cbn [sub_fence]. now rewrite Hs. Qed.

Lemma strip_prefix_backquote (c : N) (s : pystr) :
  strip_prefix backquote (c :: s) = if (96 =? c)%N then Some s else None.
Proof. reflexivity. Qed.

Lemma strip_prefix_backquotes (c : N) (s : pystr) :
  strip_prefix (backquote ++ backquote) (c :: s)
  = if (96 =? c)%N then strip_prefix backquote s else None.
Proof. reflexivity. Qed.

Lemma strip_prefix_fence (c : N) (s : pystr) :
  strip_prefix fence (c :: s)
  = if (96 =? c)%N then strip_prefix (backquote ++ backquote) s else None.
Proof. reflexivity. Qed.

(** What does not start with a backquote is not made to. *)
Lemma sub_fence_head1 (fuel : nat) (s : pystr) :
  strip_prefix backquote s = None ->
  strip_prefix backquote (sub_fence fuel s) = None.
Proof.
  intros Hs. destruct fuel as [|fuel]; [reflexivity|].
  destruct s as [|c s]; [reflexivity|].
  rewrite strip_prefix_backquote in Hs.
  destruct (96 =? c)%N eqn:Hc; [discriminate|].
  rewrite sub_fence_cons by (rewrite strip_prefix_fence; now rewrite Hc).
  rewrite strip_prefix_backquote. now rewrite Hc.
Qed.

(** What does not start with two backquotes is not made to. *)
Lemma sub_fence_head2 (fuel : nat) (s : pystr) :
  strip_prefix (backquote ++ backquote) s = None ->
  strip_prefix (backquote ++ backquote) (sub_fence fuel s) = None.
Proof.
  intros Hs. destruct fuel as [|fuel]; [reflexivity|].
  destruct s as [|c s]; [reflexivity|].
  rewrite strip_prefix_backquotes in Hs.
  destruct (96 =? c)%N eqn:Hc.
  - rewrite sub_fence_cons.
    + rewrite strip_prefix_backquotes, Hc. now apply sub_fence_head1.
    + rewrite strip_prefix_fence, Hc.
      destruct s as [|d s]; [reflexivity|].
      rewrite strip_prefix_backquotes. rewrite strip_prefix_backquote in Hs.
      destruct (96 =? d)%N; [discriminate|reflexivity].
  - rewrite sub_fence_cons by (rewrite strip_prefix_fence; now rewrite Hc).
    rewrite strip_prefix_backquotes. now rewrite Hc.
Qed.

(** After the substitution no fence marker is left. *)
Lemma sub_fence_clean (fuel : nat) :
  forall s, contains fence (sub_fence fuel s) = false.
Proof.
  induction fuel as [|fuel IH]; intros s; [reflexivity|].
  destruct (strip_prefix fence s) as [r|] eqn:Hfence.
  - cbn [sub_fence]. rewrite Hfence. apply IH.
  - destruct s as [|c s]; [reflexivity|].
    rewrite sub_fence_cons by assumption.
    cbn [contains]. rewrite IH.
    replace (strip_prefix fence (c :: sub_fence fuel s)) with (@None pystr);
      [reflexivity|].
    rewrite strip_prefix_fence in *.
    destruct (96 =? c)%N; [|reflexivity].
    symmetry. now apply sub_fence_head2.
Qed.

Lemma strip_prefix_app (p s r b : pystr) :
  strip_prefix p s = Some r -> strip_prefix p (s ++ b) = Some (r ++ b).
Proof.
  revert s. induction p as [|a p IH]; intros s Hs.
  - cbn in *. now injection Hs as ->.
  - destruct s as [|c s]; [discriminate|]. cbn [strip_prefix app] in *.
    destruct (a =? c)%N; [now apply IH|discriminate].
Qed.

Lemma contains_app_r (p a b : pystr) :
  contains p (a ++ b) = false -> contains p b = false.
Proof.
  induction a as [|c a IH]; intros Hno; [exact Hno|].
  apply IH. now apply (contains_tail p c (a ++ b)).
Qed.

Lemma contains_app_l (p a b : pystr) :
  contains p (a ++ b) = false -> contains p a = false.
Proof.
  induction a as [|c a IH]; intros Hno.
  - destruct (contains p []) eqn:Hp; [|reflexivity].
    cbn [contains] in Hp.
    destruct (strip_prefix p []) as [r|] eqn:Hr; [|discriminate].
    apply (strip_prefix_app p [] r b) in Hr. cbn [app] in *.
    destruct b as [|d b]; cbn [contains] in Hno; rewrite Hr in Hno; discriminate.
  - cbn [app] in Hno. apply contains_tail in Hno as [Hhead Htail].
    cbn [contains].
    destruct (strip_prefix p (c :: a)) as [r|] eqn:Hr.
    + apply (strip_prefix_app p (c :: a) r b) in Hr. cbn [app] in Hr. congruence.
    + now apply IH.
Qed.

Lemma lstrip_suffix (s : pystr) : exists a, s = a ++ lstrip s.
Proof.
  induction s as [|c s [a IH]]; [now exists []|].
  cbn [lstrip]. destruct (isspace c).
  - exists (c :: a). cbn. now f_equal.
  - now exists [].
Qed.

Lemma rstrip_prefix (s : pystr) : exists b, s = rstrip s ++ b.
Proof.
  induction s as [|c s [b IH]]; [now exists []|].
  cbn [rstrip]. destruct (rstrip s) as [|d r] eqn:Hr.
  - destruct (isspace c).
    + exists (c :: s). reflexivity.
    + exists b. cbn in *. now f_equal.
  - exists b. cbn [app] in *. now f_equal.
Qed.

(** Stripping white space leaves a part of the text, so it makes no
    fence marker. *)
Lemma strip_keeps_clean (p s : pystr) :
  contains p s = false -> contains p (strip s) = false.
Proof.
  intros Hno. unfold strip.
  destruct (lstrip_suffix s) as [a Ha].
  destruct (rstrip_prefix (lstrip s)) as [b Hb].
  rewrite Ha in Hno. apply contains_app_r in Hno.
  rewrite Hb in Hno. now apply contains_app_l in Hno.
Qed.

Lemma lstrip_spaces (space rest : pystr) :
  forallb isspace space = true -> lstrip (space ++ rest) = lstrip rest.
Proof.
  induction space as [|c space IH]; [reflexivity|]. cbn [forallb app lstrip].
  intros Hs. apply andb_prop in Hs as [Hc Hs]. rewrite Hc. now apply IH.
Qed.

Lemma lstrip_split (s : pystr) :
  exists space, s = space ++ lstrip s /\ forallb isspace space = true
                /\ lstrip (lstrip s) = lstrip s.
Proof.
  induction s as [|c s (space & Hs & Hall & Hidem)].
  - now exists [].
  - cbn [lstrip]. destruct (isspace c) eqn:Hc.
    + exists (c :: space). cbn [app forallb]. rewrite Hc. repeat split.
      * now f_equal.
      * assumption.
      * assumption.
    + exists []. repeat split. cbn [lstrip]. now rewrite Hc.
Qed.

(** Where the first fence marker of a text starts: a fence marker at
    the head of [c :: before ++ ...] is decided by [c] and the two
    characters after it. *)
Lemma fence_head_later (c : N) (before r : pystr) :
  strip_prefix fence (c :: before ++ backquote ++ backquote) = None ->
  strip_prefix fence (c :: before ++ fence ++ r) = None.
Proof.
  rewrite !strip_prefix_fence. destruct (96 =? c)%N; [|reflexivity].
  destruct before as [|d [|e before]]; cbn -[N.eqb].
  - discriminate.
  - destruct (96 =? d)%N; [discriminate|reflexivity].
  - destruct (96 =? d)%N; [|reflexivity].
    destruct (96 =? e)%N; [discriminate|reflexivity].
Qed.

Lemma fence_head_sooner (c : N) (before r : pystr) :
  strip_prefix fence (c :: before ++ fence ++ r) = None ->
  strip_prefix fence (c :: before ++ backquote ++ backquote) = None.
Proof.
  rewrite !strip_prefix_fence. destruct (96 =? c)%N; [|reflexivity].
  destruct before as [|d [|e before]]; cbn -[N.eqb].
  - discriminate.
  - destruct (96 =? d)%N; [discriminate|reflexivity].
  - destruct (96 =? d)%N; [|reflexivity].
    destruct (96 =? e)%N; [discriminate|reflexivity].
Qed.

(** What stands before the first fence marker is kept. *)
Lemma sub_fence_before (before r : pystr) :
  contains fence (before ++ backquote ++ backquote) = false ->
  forall fuel,
    sub_fence (List.length before + fuel) (before ++ fence ++ r)
    = before ++ sub_fence fuel (fence ++ r).
Proof.
  induction before as [|c before IH]; intros Hno fuel; [reflexivity|].
  cbn [app] in Hno. apply contains_tail in Hno as [Hhead Htail].
  cbn [List.length Nat.add app].
  rewrite sub_fence_cons by now apply fence_head_later.
  f_equal. now apply IH.
Qed.

(** One fence marker is taken out whole: the backquotes, the tag and the
    white space. *)
Lemma sub_fence_marker (fuel : nat) (tag space rest : pystr) :
  tag = py "json"
  \/ (tag = [] /\ strip_prefix (py "json") (space ++ rest) = None) ->
  forallb isspace space = true ->
  lstrip rest = rest ->
  sub_fence (S fuel) (fence ++ tag ++ space ++ rest) = sub_fence fuel rest.
Proof.
  intros Htag Hspace Hrest. cbn [sub_fence]. rewrite strip_prefix_self.
  destruct Htag as [->|[-> Hnone]].
  - rewrite strip_prefix_self. now rewrite lstrip_spaces, Hrest.
  - cbn [app]. rewrite Hnone. now rewrite lstrip_spaces, Hrest.
Qed.

(** The substitution of the source takes out the markers and nothing
    else. *)
Lemma fences_removed_sound (text kept : pystr) :
  fences_removed text kept -> re_sub_fence text = kept.
Proof.
  induction 1 as [s Hno|before tag space rest kept Hno Htag Hspace Hrest _ IH].
  - unfold re_sub_fence. now apply sub_fence_id.
  - set (r := tag ++ space ++ rest).
    rewrite <- (sub_fence_fuel
                  (List.length before + S (List.length (fence ++ r)))).
    2:{ rewrite !length_app. lia. }
    rewrite sub_fence_before by assumption. f_equal. subst r.
    rewrite sub_fence_marker by assumption.
    rewrite sub_fence_fuel; [assumption|].
    rewrite !length_app. lia.
Qed.

Lemma fences_removed_cons (c : N) (s kept : pystr) :
  strip_prefix fence (c :: s) = None ->
  fences_removed s kept -> fences_removed (c :: s) (c :: kept).
Proof.
  intros Hhead Hs.
  inversion Hs
    as [s' Hno|before tag space rest kept' Hno Htag Hspace Hrest Hkept];
    subst.
  - apply removed_none. cbn [contains]. now rewrite Hhead.
  - apply (removed_marker (c :: before)); try assumption.
    cbn [app contains].
    rewrite (fence_head_sooner c before _ Hhead). exact Hno.
Qed.

(** Every text can be read as kept pieces and fence markers. *)
Lemma fences_removed_total (n : nat) :
  forall text, (List.length text <= n)%nat ->
               fences_removed text (re_sub_fence text).
Proof.
  induction n as [|n IH]; intros text Hlen.
  { destruct text; [|cbn in Hlen; lia]. now apply removed_none. }
  destruct text as [|c s]; [now apply removed_none|].
  destruct (strip_prefix fence (c :: s)) as [r|] eqn:Hfence.
  - pose proof (strip_prefix_length _ _ _ Hfence) as Hl.
    apply strip_prefix_eq in Hfence.
    assert (Htag : exists tag r',
               r = tag ++ r' /\ (List.length r' <= List.length r)%nat
               /\ (tag = py "json"
                   \/ (tag = [] /\ strip_prefix (py "json") r' = None))).
    { destruct (strip_prefix (py "json") r) as [after_tag|] eqn:Hj.
      - exists (py "json"), after_tag. pose proof (strip_prefix_length _ _ _ Hj).
        apply strip_prefix_eq in Hj. repeat split; [assumption|lia|now left].
      - exists [], r. repeat split; [lia|now right]. }
    destruct Htag as (tag & r' & -> & Hl' & Htag).
    destruct (lstrip_split r') as (space & Hr' & Hspace & Hidem).
    pose proof (lstrip_length r') as Hl''. cbn [List.length] in Hlen, Hl.
    assert (Hrest : fences_removed (lstrip r') (re_sub_fence (lstrip r'))).
    { apply IH. change (List.length fence) with 3%nat in Hl.
      rewrite length_app in Hl. lia. }
    assert (Hall : fences_removed ([] ++ fence ++ tag ++ space ++ lstrip r')
                     ([] ++ re_sub_fence (lstrip r'))).
    { apply removed_marker; try assumption; [reflexivity|].
      rewrite <- Hr'. exact Htag. }
    rewrite <- Hr' in Hall. cbn [app] in Hall. rewrite <- Hfence in Hall.
    rewrite (fences_removed_sound _ _ Hall). exact Hall.
  - unfold re_sub_fence. cbn [List.length]. rewrite sub_fence_cons by assumption.
    apply fences_removed_cons; [assumption|].
    apply IH. cbn [List.length] in Hlen. lia.
Qed.

(** C9, amended.  The fence-cleaning step of the parser takes out every
    fence marker (three backquotes, the tag [json] if it follows, and the
    white space after that) wherever it stands in the raw text, at the
    start, at the end or inside, and nothing else: what stands before,
    between and after the markers is kept, in its order.  No run of three
    backquotes is left, and the white space around the result is
    stripped; a raw text without three backquotes in a row is only
    stripped. *)
Theorem fence_clean_spec (text : pystr) :
  contains fence (fence_clean text) = false
  /\ (contains fence text = false -> fence_clean text = strip text)
  /\ (exists kept, fences_removed text kept)
  /\ (forall kept, fences_removed text kept ->
        re_sub_fence text = kept /\ fence_clean text = strip kept).
Proof.
  unfold fence_clean. split; [|split; [|split]].
  - apply strip_keeps_clean. apply sub_fence_clean.
  - intros Hno. unfold re_sub_fence. now rewrite sub_fence_id.
  - exists (re_sub_fence text).
    now apply (fences_removed_total (List.length text)).
  - intros kept Hkept. apply fences_removed_sound in Hkept. now rewrite Hkept.
Qed.

(* ------------------------------------------------------------------ *)
(** ** The fuel of [json.loads] *)

Module JsonFuel.
Import Json.

Lemma skip_ws_length (s : pystr) :
  (List.length (skip_ws s) <= List.length s)%nat.
Proof.
  induction s as [|c s IH]; [reflexivity|]. cbn [skip_ws].
  destruct (is_json_ws c); cbn; lia.
Qed.

Lemma digits_length (s ds r : pystr) :
  digits s = (ds, r) -> List.length s = (List.length ds + List.length r)%nat.
Proof.
  revert ds r. induction s as [|c s IH]; intros ds r Hd.
  - injection Hd as <- <-. reflexivity.
  - cbn [digits] in Hd. destruct (is_digit c).
    + destruct (digits s) as [ds' r'] eqn:Hs. injection Hd as <- <-.
      cbn. now rewrite (IH ds' r' eq_refl).
    + injection Hd as <- <-. reflexivity.
Qed.

(** A string scanned from after its quote stops after it. *)
Lemma scanstring_advances (s acc : pystr) :
  advanced (scanstring s acc) (34%N :: s).
Proof.
  functional induction (scanstring s acc);
    cbn [advanced List.length] in *; try lia; try exact I.
  all: destruct (scanstring _ _); cbn [advanced List.length] in *;
    try lia; try exact I.
Qed.

Lemma sign_part_length (s lex r : pystr) :
  sign_part s = (lex, r) ->
  List.length s = (List.length lex + List.length r)%nat.
Proof.
  unfold sign_part. destruct s as [|c s]; [now intros [= <- <-]|].
  destruct (c =? 45)%N; now intros [= <- <-].
Qed.

Lemma int_part_length (s lex r : pystr) :
  int_part s = Some (lex, r) ->
  List.length s = (List.length lex + List.length r)%nat /\ lex <> [].
Proof.
  unfold int_part. destruct s as [|d s]; [discriminate|].
  destruct (is_digit d); [|discriminate].
  destruct (d =? 48)%N.
  - intros [= <- <-]. now split.
  - destruct (digits s) as [ds r'] eqn:Hd. apply digits_length in Hd.
    intros [= <- <-]. cbn. split; [lia|discriminate].
Qed.

Lemma frac_part_length (s lex r : pystr) :
  frac_part s = (lex, r) ->
  List.length s = (List.length lex + List.length r)%nat.
Proof.
  unfold frac_part. destruct s as [|p s]; [now intros [= <- <-]|].
  destruct (p =? 46)%N; [|now intros [= <- <-]].
  destruct (digits s) as [ds r'] eqn:Hd. apply digits_length in Hd.
  destruct ds; intros [= <- <-]; cbn in *; lia.
Qed.

Lemma exp_part_length (s lex r : pystr) :
  exp_part s = (lex, r) ->
  List.length s = (List.length lex + List.length r)%nat.
Proof.
  unfold exp_part. destruct s as [|e s]; [now intros [= <- <-]|].
  destruct ((e =? 101) || (e =? 69))%N; [|now intros [= <- <-]].
  destruct (match s with
            | [] => ([], s)
            | g :: r' => if ((g =? 45) || (g =? 43))%N then ([g], r') else ([], s)
            end) as [sign r1] eqn:Hsign.
  assert (Hs : List.length s = (List.length sign + List.length r1)%nat).
  { destruct s as [|g s']; [now injection Hsign as <- <-|].
    destruct ((g =? 45) || (g =? 43))%N; now injection Hsign as <- <-. }
  destruct (digits r1) as [ds r2] eqn:Hd. apply digits_length in Hd.
  destruct ds; intros [= <- <-]; cbn [List.length] in *;
    rewrite ?length_app; cbn [List.length] in *; lia.
Qed.

Lemma match_number_advances `{Interpreter} (s : pystr) :
  advanced (match_number s) s.
Proof.
  unfold match_number.
  destruct (sign_part s) as [sign s1] eqn:H1. apply sign_part_length in H1.
  destruct (int_part s1) as [[int_digits s2]|] eqn:H2; [|exact I].
  apply int_part_length in H2 as [H2 Hne].
  destruct (frac_part s2) as [frac s3] eqn:H3. apply frac_part_length in H3.
  destruct (exp_part s3) as [exp s4] eqn:H4. apply exp_part_length in H4.
  assert (0 < List.length int_digits)%nat
    by (destruct int_digits; [contradiction|cbn; lia]).
  destruct frac, exp; cbn [advanced]; try lia.
  destruct (exceeds_int_limit (List.length int_digits)); cbn [advanced];
    [exact I|lia].
Qed.

Lemma advanced_longer {A} (x : scan A) (s s' : pystr) :
  advanced x s -> (List.length s <= List.length s')%nat -> advanced x s'.
Proof. destruct x; cbn [advanced]; [lia|trivial|trivial|trivial]. Qed.

Lemma skip_ws_cons (s : pystr) (c : N) (r : pystr) :
  skip_ws s = c :: r -> (List.length r < List.length s)%nat.
Proof.
  intros Hs. pose proof (skip_ws_length s) as Hl. rewrite Hs in Hl.
  cbn in Hl. lia.
Qed.

Section Containers.

Variable scan_value : pystr -> scan pyval.
Variable bound : nat.
Hypothesis scan_value_advances :
  forall s, (List.length s < bound)%nat -> advanced (scan_value s) s.

Lemma array_items_advances (fuel : nat) :
  forall s values,
    (List.length s < bound)%nat -> (List.length s < fuel)%nat ->
    advanced (array_items scan_value fuel s values) s.
Proof.
  induction fuel as [|fuel IH]; intros s values Hb Hf; [lia|].
  cbn [array_items]. pose proof (scan_value_advances s Hb) as Hv.
  destruct (scan_value s) as [v r| | |e]; cbn [advanced] in *;
    [|exact I|exact Hv|exact I].
  destruct (skip_ws r) as [|c r'] eqn:Hr; [exact I|].
  apply skip_ws_cons in Hr.
  destruct (c =? ch "]")%N; [cbn [advanced]; lia|].
  destruct (c =? ch ",")%N; [|exact I].
  pose proof (skip_ws_length r') as Hl.
  apply (advanced_longer _ (skip_ws r')); [apply IH; lia|lia].
Qed.

Lemma parse_array_advances (fuel : nat) (s : pystr) :
  (List.length s < bound)%nat -> (List.length s < fuel)%nat ->
  advanced (parse_array scan_value fuel s) (ch "[" :: s).
Proof.
  intros Hb Hf. unfold parse_array.
  destruct (skip_ws s) as [|c r] eqn:Hs; [exact I|].
  pose proof (skip_ws_length s) as Hl. rewrite Hs in Hl. cbn in Hl.
  destruct (c =? ch "]")%N; [cbn; lia|].
  apply (advanced_longer _ (c :: r)); [apply array_items_advances|]; cbn; lia.
Qed.

Lemma object_pairs_advances (fuel : nat) :
  forall s d,
    (List.length s < bound)%nat -> (List.length s < fuel)%nat ->
    advanced (object_pairs scan_value fuel s d) s.
Proof.
  induction fuel as [|fuel IH]; intros s d Hb Hf; [lia|].
  cbn [object_pairs]. destruct s as [|q s1]; [exact I|].
  destruct (negb (q =? 34)%N); [exact I|].
  pose proof (scanstring_advances s1 []) as Hk.
  destruct (scanstring s1 []) as [key r| | |e]; cbn [advanced] in Hk;
    [|exact I|contradiction|exact I].
  destruct (skip_ws r) as [|c r1] eqn:Hr; [exact I|].
  apply skip_ws_cons in Hr.
  destruct (negb (c =? ch ":")%N); [exact I|].
  pose proof (skip_ws_length r1) as Hl1. cbn [List.length] in *.
  pose proof (scan_value_advances (skip_ws r1) ltac:(lia)) as Hv.
  destruct (scan_value (skip_ws r1)) as [v r2| | |e]; cbn [advanced] in *;
    [|exact I|exact Hv|exact I].
  destruct (skip_ws r2) as [|c2 r3] eqn:Hr2; [exact I|].
  apply skip_ws_cons in Hr2.
  destruct (c2 =? ch "}")%N; [cbn [advanced List.length]; lia|].
  destruct (c2 =? ch ",")%N; [|exact I].
  pose proof (skip_ws_length r3) as Hl3.
  apply (advanced_longer _ (skip_ws r3)); [apply IH; lia|cbn; lia].
Qed.

Lemma parse_object_advances (fuel : nat) (s : pystr) :
  (List.length s < bound)%nat -> (List.length s < fuel)%nat ->
  advanced (parse_object scan_value fuel s) (ch "{" :: s).
Proof.
  intros Hb Hf. unfold parse_object.
  destruct (skip_ws s) as [|c r] eqn:Hs; [exact I|].
  pose proof (skip_ws_length s) as Hl. rewrite Hs in Hl. cbn in Hl.
  destruct (c =? ch "}")%N; [cbn; lia|].
  apply (advanced_longer _ (c :: r)); [apply object_pairs_advances|]; cbn; lia.
Qed.

End Containers.

(** With more fuel than characters the scanner does not run out, and
    what it scans it takes off the input. *)
Lemma scan_once_advances `{Interpreter} (fuel : nat) :
  forall room s,
    (List.length s < fuel)%nat -> advanced (scan_once fuel room s) s.
Proof.
  induction fuel as [|fuel IH]; intros room s Hf; [lia|].
  cbn [scan_once]. destruct s as [|c r]; [exact I|]. cbn [List.length] in Hf.
  destruct (c =? 34)%N.
  { pose proof (scanstring_advances r []) as Hs.
    destruct (scanstring r []); cbn [advanced List.length] in *;
      [lia|exact I|exact Hs|exact I]. }
  destruct (c =? ch "{")%N.
  { destruct room as [|room]; [exact I|].
    apply (advanced_longer _ (ch "{" :: r));
      [apply (parse_object_advances _ fuel (IH room)); lia|reflexivity]. }
  destruct (c =? ch "[")%N.
  { destruct room as [|room]; [exact I|].
    apply (advanced_longer _ (ch "[" :: r));
      [apply (parse_array_advances _ fuel (IH room)); lia|reflexivity]. }
  repeat match goal with
         | |- context [strip_prefix ?p (c :: r)] =>
             let H := fresh "Hp" in
             destruct (strip_prefix p (c :: r)) eqn:H;
             [apply strip_prefix_length in H;
              let n := eval vm_compute in (List.length p) in
              change (List.length p) with n in H;
              cbn [List.length] in H|]
         end;
    try (cbn [advanced List.length]; lia).
  apply match_number_advances.
Qed.

(** [json.loads] never runs out of fuel. *)
Lemma decode_fuel `{Interpreter} (s : pystr) :
  decode (S (List.length s)) s <> NoFuel.
Proof.
  unfold decode. pose proof (skip_ws_length s) as Hl.
  pose proof (scan_once_advances (S (List.length s))
                (Pos.to_nat recursion_room) (skip_ws s) ltac:(lia)) as Hs.
  destruct (scan_once (S (List.length s)) (Pos.to_nat recursion_room)
              (skip_ws s)) as [v r| | |e];
    [|discriminate|contradiction|discriminate].
  destruct (skip_ws r); discriminate.
Qed.

End JsonFuel.

(* ------------------------------------------------------------------ *)
(** ** The orchestrator with [_query_claude] as its client *)

(** A text within the budget against a backend whose first query
    returns: that one query, with the main model, and its text parsed. *)
Lemma pipeline_on_backend_single_pass `{Interpreter} backend text filename :
  len (split text) <= CHUNK_SIZE ->
  let prompt := _build_summary_prompt text filename in
  raised (backend 0%nat prompt MAIN_MODEL) = None ->
  pipeline_on_backend backend text filename []
  = (_extract_json
       (strip (join [] (text_parts (yielded (backend 0%nat prompt MAIN_MODEL))))),
     [Query prompt MAIN_MODEL 1; Info (py "Summary generated")]).
Proof.
  intros Hle prompt Hok. unfold pipeline_on_backend, run_pipeline.
  destruct (Z.gtb_spec (len (split text)) CHUNK_SIZE) as [Hgt|_]; [lia|].
  unfold bind at 1. cbn [query_claude pipeline_client]. fold prompt.
  change (@_query_claude trace (scripted_sdk backend) recorded_logging
            prompt MAIN_MODEL 3)
    with (query_on backend prompt MAIN_MODEL 3).
  rewrite (query_on_returns backend prompt MAIN_MODEL 3 0);
    [reflexivity|lia|intros i Hi; lia|exact Hok].
Qed.

(** The first scenario of the spec: 500 words, the file [paper1]. *)
Example scenario_1 :
  let run := pipeline_on_backend scenario_backend (sample_text 500) (py "paper1") [] in
  snd run
  = [ Query (_build_summary_prompt (sample_text 500) (py "paper1")) MAIN_MODEL 1;
      Info (py "Summary generated") ]
  /\ exists d, fst run = Ok (PyDict d)
               /\ dict_get d (py "title") = Some (PyStr (py "X")).
Proof.
  cbv zeta.
  rewrite (pipeline_on_backend_single_pass scenario_backend (sample_text 500)
             (py "paper1")) by compute_it.
  split; [reflexivity|]. cbn [fst]. eexists. split; vm_compute; reflexivity.
Qed.

(** The second scenario of the spec: 7000 words give three queries with
    the chunk model, then one with the main model. *)
Example scenario_2 :
  query_models (snd (pipeline_on_backend scenario_backend sample_7000 (py "paper2") []))
  = [CHUNK_MODEL; CHUNK_MODEL; CHUNK_MODEL; MAIN_MODEL].
Proof. vm_compute. reflexivity. Qed.

(* ------------------------------------------------------------------ *)
(** ** The properties at sample inputs *)

Lemma sample_long_chunks : List.length (_chunk_text sample_long) = 2%nat.
Proof. vm_compute. reflexivity. Qed.

Lemma run_pipeline_calls_witness :
  (client_calls (snd (pipeline_on sample_answers sample_short (py "paper1") []))
   = [(_build_summary_prompt sample_short (py "paper1"), MAIN_MODEL)]
   /\ fst (pipeline_on sample_answers sample_short (py "paper1") [])
      = _extract_json (py "{}"))
  /\
  (client_calls (snd (pipeline_on sample_answers sample_long (py "paper1") []))
   = map (fun k : nat =>
            (_build_chunk_prompt (nth k (_chunk_text sample_long) [])
               (Z.of_nat k + 1) (len (_chunk_text sample_long)),
             CHUNK_MODEL))
         (seq 0 (List.length (_chunk_text sample_long)))
     ++ [(_build_consolidation_prompt
            (join (nl ++ nl) [py "{}"; py "{}"]) (py "paper1"),
          MAIN_MODEL)]
   /\ fst (pipeline_on sample_answers sample_long (py "paper1") [])
      = _extract_json (py "{}")).
Proof.
  split.
  - assert (Hshort : len (split sample_short) <= CHUNK_SIZE) by compute_it.
    destruct (proj1 (run_pipeline_calls sample_answers sample_short (py "paper1"))
                Hshort) as (Hcalls & Hresult & _).
    split; [exact Hcalls|exact Hresult].
  - assert (Hlong : CHUNK_SIZE < len (split sample_long)) by compute_it.
    assert (Hlen : List.length [py "{}"; py "{}"]
                   = List.length (_chunk_text sample_long))
      by (now rewrite sample_long_chunks).
    assert (Hans : forall k, (k < List.length (_chunk_text sample_long))%nat ->
              sample_answers k
                (fst (_build_chunk_prompt (nth k (_chunk_text sample_long) [])
                        (Z.of_nat k + 1) (len (_chunk_text sample_long)),
                      CHUNK_MODEL))
                CHUNK_MODEL
              = Ok (nth k [py "{}"; py "{}"] [])).
    { intros k Hk. rewrite sample_long_chunks in Hk.
      cbv beta delta [sample_answers].
      destruct k as [|[|k]]; [reflexivity|reflexivity|lia]. }
    destruct (proj2 (run_pipeline_calls sample_answers sample_long (py "paper1"))
                Hlong [py "{}"; py "{}"] (py "{}") Hlen Hans eq_refl)
      as (Hcalls & Hresult & _).
    split; [exact Hcalls|exact Hresult].
Defined.

Lemma chunk_count_formula_witness :
  ((forall fuel : nat, (List.length (split sample_long) < fuel)%nat ->
      chunk_text_with fuel CHUNK_SIZE CHUNK_OVERLAP sample_long
      = Some (_chunk_text sample_long))
   /\ len (_chunk_text sample_long)
      = ceil_div (len (split sample_long) - CHUNK_OVERLAP)
                 (CHUNK_SIZE - CHUNK_OVERLAP))
  /\
  (forall answers filename,
     client_calls (snd (pipeline_on answers sample_short filename []))
     = [(_build_summary_prompt sample_short filename, MAIN_MODEL)]).
Proof.
  split.
  - apply (proj1 (chunk_count_formula sample_long)). compute_it.
  - apply (proj2 (chunk_count_formula sample_short)). compute_it.
Defined.

Lemma chunk_coverage_witness :
  (exists n : nat,
     (forall fuel : nat, (List.length (split (py "a b c d e f g")) < fuel)%nat ->
        chunk_text_with fuel 3 1 (py "a b c d e f g")
        = Some (map (fun k => join space
                                (py_slice (split (py "a b c d e f g"))
                                          (Z.of_nat k * (3 - 1))
                                          (Z.of_nat k * (3 - 1) + 3)))
                    (seq 0 n)))
     /\ (forall j, 0 <= j < len (split (py "a b c d e f g")) ->
           exists k, 0 <= k < Z.of_nat n /\ in_chunk 3 1 k j)
     /\ (forall j k k',
           0 <= j < len (split (py "a b c d e f g")) ->
           ~ in_overlap 3 1 (Z.of_nat n) j ->
           0 <= k < Z.of_nat n -> in_chunk 3 1 k j ->
           0 <= k' < Z.of_nat n -> in_chunk 3 1 k' j ->
           k = k'))
  /\
  _chunk_text sample_7000
  = [ join space (py_slice (split sample_7000) 0 3000);
      join space (py_slice (split sample_7000) 2800 5800);
      join space (py_slice (split sample_7000) 5600 7000) ].
Proof.
  split.
  - apply (proj1 chunk_coverage 3 1 (py "a b c d e f g")). lia.
  - apply (proj2 chunk_coverage sample_7000). compute_it.
Defined.

Lemma chunker_terminates_witness :
  (forall i chunks i' chunks',
     chunk_step 3 1 (split (py "a b c d e f g")) (i, chunks) = inl (i', chunks') ->
     i < i')
  /\
  (exists chunks,
     forall fuel : nat, (List.length (split (py "a b c d e f g")) < fuel)%nat ->
       chunk_text_with fuel 3 1 (py "a b c d e f g") = Some chunks).
Proof. apply (chunker_terminates 3 1 (py "a b c d e f g")). lia. Defined.

Lemma fatal_errors_propagate_witness :
  fst (query_on failing_backend (py "prompt") MAIN_MODEL 3 [])
  = Raise connection_error
  /\ snd (query_on failing_backend (py "prompt") MAIN_MODEL 3 [])
     = backoff_events (py "prompt") MAIN_MODEL 3 0 0
       ++ [Query (py "prompt") MAIN_MODEL 1]
  /\ queries_made (snd (query_on failing_backend (py "prompt") MAIN_MODEL 3 []))
     = 1%nat
  /\ sleeps (snd (query_on failing_backend (py "prompt") MAIN_MODEL 3 [])) = []
  /\ (0%nat = 0%nat ->
      snd (query_on failing_backend (py "prompt") MAIN_MODEL 3 [])
      = [Query (py "prompt") MAIN_MODEL 1]).
Proof.
  apply (fatal_errors_propagate failing_backend (py "prompt") MAIN_MODEL 3 0
           connection_error).
  - lia.
  - intros i Hi. lia.
  - reflexivity.
  - left. vm_compute. reflexivity.
Defined.

Lemma sample_backend_rate_limited (i : nat) :
  (i < 2)%nat -> rate_limited sample_backend (py "prompt") MAIN_MODEL i.
Proof.
  intros Hi. exists rate_limit_error.
  destruct i as [|[|i]]; [compute_it|compute_it|lia].
Qed.

Lemma backoff_schedule_witness :
  fst (query_on sample_backend (py "prompt") MAIN_MODEL 3 []) = Ok (py "{}")
  /\ snd (query_on sample_backend (py "prompt") MAIN_MODEL 3 [])
     = [ Query (py "prompt") MAIN_MODEL 1;
         Warning (rate_limit_warning 60 0 3); Sleep 60;
         Query (py "prompt") MAIN_MODEL 1;
         Warning (rate_limit_warning 120 1 3); Sleep 120;
         Query (py "prompt") MAIN_MODEL 1 ]
  /\ sleeps (snd (query_on sample_backend (py "prompt") MAIN_MODEL 3 []))
     = [60; 120].
Proof.
  apply (backoff_schedule sample_backend (py "prompt") MAIN_MODEL sample_messages).
  - apply sample_backend_rate_limited. lia.
  - apply sample_backend_rate_limited. lia.
  - reflexivity.
Defined.

Lemma unparsable_response_fails_witness :
  _extract_json (py "Here you go: {oops}")
  = Raise (ValueError (py "Could not parse JSON from Claude response:"
                         ++ nl ++ firstn 400 (py "Here you go: {oops}")))
  /\ _extract_json (py "12" ++ repeat (Json.ch "1") 4300)
     = Raise (ValueError (int_limit_message 4302)).
Proof.
  split.
  - apply (proj1 unparsable_response_fails (py "Here you go: {oops}")).
    + vm_compute. reflexivity.
    + intros group Hgroup. vm_compute in Hgroup. injection Hgroup as <-.
      vm_compute. reflexivity.
  - apply (proj1 (proj2 unparsable_response_fails)). left.
    vm_compute. reflexivity.
Defined.

Lemma fence_clean_spec_witness :
  fence_clean (py "Here: ```json" ++ nl ++ pyq "{'a': 1}" ++ nl ++ py "``` Bye.")
  = strip (py "Here: " ++ pyq "{'a': 1}" ++ nl ++ py "Bye.")
  /\ fence_clean (pyq " {'a': 1} ") = strip (pyq " {'a': 1} ").
Proof.
  split.
  - refine (proj2 (proj2 (proj2 (proj2 (fence_clean_spec _))) _
              (removed_marker (py "Here: ") (py "json") nl
                 (pyq "{'a': 1}" ++ nl ++ py "``` Bye.")
                 (pyq "{'a': 1}" ++ nl ++ py "Bye.") _ _ _ _
                 (removed_marker (pyq "{'a': 1}" ++ nl) [] (py " ") (py "Bye.")
                    (py "Bye.") _ _ _ _ (removed_none (py "Bye.") _))))).
    all: try (vm_compute; reflexivity).
    + left. reflexivity.
    + right. split; reflexivity.
  - apply (proj1 (proj2 (fence_clean_spec (pyq " {'a': 1} ")))).
    vm_compute. reflexivity.
Defined.

Lemma small_text_single_chunk_witness :
  _chunk_text (py "a b") = [join space (split (py "a b"))]
  /\ _chunk_text (py "") = []
  /\ _chunk_text (py "a b") = [py "a b"].
Proof.
  split; [|split].
  - apply (proj1 (small_text_single_chunk (py "a b"))). compute_it.
  - apply (proj1 (proj2 (small_text_single_chunk (py "")))). compute_it.
  - apply (proj2 (proj2 (small_text_single_chunk (py "a b")))
             ltac:(compute_it) [py "a"; py "b"]); compute_it.
Defined.

(* ================================================================== *)
(** * Further properties *)

(* ------------------------------------------------------------------ *)
(** ** The words of the chunks *)

Lemma is_word_nonspace (w : pystr) :
  w <> [] -> forallb (fun c => negb (isspace c)) w = true -> is_word w = true.
Proof. destruct w; [contradiction|trivial]. Qed.

(** What [split] returns are words. *)
Lemma split_from_words (s cur : pystr) :
  forallb (fun c => negb (isspace c)) cur = true ->
  forallb is_word (split_from s cur) = true.
Proof.
  revert cur. induction s as [|c s IH]; intros cur Hcur.
  - cbn [split_from]. destruct cur as [|d cur]; [reflexivity|].
    cbn [forallb]. rewrite andb_true_r. now apply is_word_nonspace.
  - cbn [split_from]. destruct (isspace c) eqn:Hc.
    + destruct cur as [|d cur]; [now apply IH|].
      cbn [forallb]. rewrite (IH [] eq_refl), andb_true_r.
      now apply is_word_nonspace.
    + apply IH. rewrite forallb_app, Hcur. cbn. now rewrite Hc.
Qed.

Lemma split_words (text : pystr) : forallb is_word (split text) = true.
Proof. now apply split_from_words. Qed.

Lemma forallb_firstn {A} (f : A -> bool) (n : nat) (l : list A) :
  forallb f l = true -> forallb f (firstn n l) = true.
Proof.
  revert n. induction l as [|a l IH]; intros [|n] Hl; try reflexivity.
  cbn [forallb firstn] in *. apply andb_prop in Hl as [Ha Hl].
  now rewrite Ha, IH.
Qed.

Lemma forallb_skipn {A} (f : A -> bool) (n : nat) (l : list A) :
  forallb f l = true -> forallb f (skipn n l) = true.
Proof.
  revert n. induction l as [|a l IH]; intros [|n] Hl; try reflexivity; try exact Hl.
  cbn [forallb skipn] in *. apply andb_prop in Hl as [Ha Hl]. now apply IH.
Qed.

Lemma forallb_py_slice {A} (f : A -> bool) (l : list A) (a b : Z) :
  forallb f l = true -> forallb f (py_slice l a b) = true.
Proof. intros Hl. unfold py_slice. now apply forallb_firstn, forallb_skipn. Qed.

(** A slice from a bound inside the list: Python's clamping only cuts the
    end. *)
Lemma py_slice_nonneg {A} (l : list A) (a b : Z) :
  0 <= a <= b ->
  py_slice l a b = firstn (Z.to_nat (b - a)) (skipn (Z.to_nat a) l).
Proof.
  intros Hab. unfold py_slice. pose proof (len_nonneg l) as Hl.
  destruct (Z.ltb_spec a 0); [lia|]. destruct (Z.ltb_spec b 0); [lia|].
  unfold len in *.
  destruct (Z_le_gt_dec a (Z.of_nat (List.length l))) as [Hin|Hout].
  - rewrite (Z.min_l a) by lia.
    destruct (Z_le_gt_dec b (Z.of_nat (List.length l))) as [Hb|Hb].
    + now rewrite (Z.min_l b) by lia.
    + rewrite (Z.min_r b) by lia.
      rewrite (firstn_all2 (n := Z.to_nat (b - a))); [|rewrite length_skipn; lia].
      apply firstn_all2. rewrite length_skipn. lia.
  - rewrite (Z.min_r a), (Z.min_r b) by lia.
    rewrite !skipn_all2 by lia. now rewrite !firstn_nil.
Qed.

Lemma py_slice_length {A} (l : list A) (a b : Z) :
  0 <= a <= b ->
  len (py_slice l a b) = Z.min (b - a) (Z.max 0 (len l - a)).
Proof.
  intros Hab. rewrite py_slice_nonneg by assumption. unfold len.
  rewrite length_firstn, length_skipn. lia.
Qed.

(** The chunks [_chunk_text] returns, by their words. *)
Lemma chunk_text_words size overlap text (fuel : nat) chunks :
  0 <= overlap < size ->
  chunk_text_with fuel size overlap text = Some chunks ->
  chunks
  = map (fun k => join space (chunk_words_at size overlap (split text) k))
        (seq 0 (Z.to_nat (chunk_count size overlap (len (split text))))).
Proof.
  intros Hov Hrun.
  pose proof (chunk_text_run size overlap text
                (Nat.max fuel (S (List.length (split text)))) Hov ltac:(lia)) as Hbig.
  unfold chunk_text_with in *.
  rewrite (chunk_loop_more_fuel _ _ _ fuel _ _ _ Hrun) in Hbig by lia.
  injection Hbig as ->. rewrite starts_map, map_map. reflexivity.
Qed.

(** Chunk [k] of [n] has between one and [size] words. *)
Lemma chunk_words_at_length size overlap (words : list pystr) (k : nat) :
  0 <= overlap < size ->
  Z.of_nat k < chunk_count size overlap (len words) ->
  1 <= len (chunk_words_at size overlap words k) <= size.
Proof.
  intros Hov Hk. pose proof (len_nonneg words) as Hl.
  assert (HL : 0 < len words).
  { destruct (Z_le_gt_dec (len words) 0); [|lia].
    unfold chunk_count in Hk. destruct (Z.leb_spec (len words) 0); lia. }
  destruct (chunk_count_bounds size overlap (len words) Hov HL) as (Hn & Hbefore & Hlast).
  set (n := chunk_count size overlap (len words)) in *.
  unfold chunk_words_at. rewrite py_slice_length by nia.
  assert (Hstart : Z.of_nat k * (size - overlap) < len words).
  { destruct (Z.eq_dec (Z.of_nat k) 0) as [->|Hk0]; [lia|].
    specialize (Hbefore (Z.of_nat k - 1) ltac:(lia)). nia. }
  lia.
Qed.

(** The words of chunk [k] as [_chunk_text] returns it. *)
Lemma chunk_split_words size overlap text (fuel : nat) chunks (k : nat) :
  0 <= overlap < size ->
  chunk_text_with fuel size overlap text = Some chunks ->
  (k < List.length chunks)%nat ->
  split (nth k chunks []) = chunk_words_at size overlap (split text) k
  /\ Z.of_nat (List.length chunks)
     = chunk_count size overlap (len (split text)).
Proof.
  intros Hov Hrun Hk.
  rewrite (chunk_text_words size overlap text fuel chunks Hov Hrun) in *.
  rewrite length_map, length_seq in *.
  set (f := fun k => join space (chunk_words_at size overlap (split text) k)).
  rewrite (nth_indep _ [] (f 0%nat)) by now rewrite length_map, length_seq.
  rewrite (map_nth f), seq_nth by assumption. cbn [Nat.add]. subst f. cbv beta.
  rewrite split_join by (apply forallb_py_slice, split_words).
  split; [reflexivity|].
  apply Z2Nat.id, chunk_count_nonneg, Hov.
Qed.

(** X1.  Every chunk [_chunk_text] returns has at least one word and at
    most [size] words, and splits into the words of its range: the
    joining by spaces loses nothing of them. *)
Theorem chunks_within_budget (size overlap : Z) (text : pystr) (fuel : nat)
    (chunks : list pystr) :
  0 <= overlap < size ->
  chunk_text_with fuel size overlap text = Some chunks ->
  forall k : nat, (k < List.length chunks)%nat ->
    split (nth k chunks []) = chunk_words_at size overlap (split text) k
    /\ 1 <= len (split (nth k chunks [])) <= size.
Proof.
  intros Hov Hrun k Hk.
  destruct (chunk_split_words size overlap text fuel chunks k Hov Hrun Hk)
    as [Hwords Hn].
  rewrite Hwords. split; [reflexivity|].
  apply chunk_words_at_length; [assumption|lia].
Qed.

Lemma chunks_within_budget_witness :
  split (nth 1 [py "a b c"; py "c d e"; py "e f g"] [])
  = chunk_words_at 3 1 (split (py "a b c d e f g")) 1
  /\ 1 <= len (split (nth 1 [py "a b c"; py "c d e"; py "e f g"] [])) <= 3.
Proof.
  apply (chunks_within_budget 3 1 (py "a b c d e f g") 10
           [py "a b c"; py "c d e"; py "e f g"]).
  - lia.
  - reflexivity.
  - cbn. lia.
Defined.

Lemma chunk_words_at_nat size overlap (words : list pystr) (k : nat) :
  0 <= overlap < size ->
  chunk_words_at size overlap words k
  = firstn (Z.to_nat size) (skipn (k * Z.to_nat (size - overlap)) words).
Proof.
  intros Hov. unfold chunk_words_at. rewrite py_slice_nonneg by nia.
  f_equal; [f_equal; lia|f_equal; nia].
Qed.

Lemma firstn_add {A} (a b : nat) (l : list A) :
  firstn (a + b) l = firstn a l ++ firstn b (skipn a l).
Proof.
  revert l. induction a as [|a IH]; intros l; [reflexivity|].
  destruct l as [|x l]; [now rewrite !firstn_nil|].
  cbn [Nat.add firstn skipn app]. now rewrite IH.
Qed.

(** [m] pieces of [s] elements from [base] on make the [m * s] elements
    from [base] on. *)
Lemma concat_pieces {A} (s : nat) (l : list A) (m : nat) :
  forall base,
    List.concat (map (fun k => firstn s (skipn (base + k * s) l)) (seq 0 m))
    = firstn (m * s) (skipn base l).
Proof.
  induction m as [|m IH]; intros base; [reflexivity|].
  cbn [seq map List.concat]. rewrite <- seq_shift, map_map.
  rewrite (map_ext _ (fun k => firstn s (skipn ((base + s) + k * s) l)))
    by (intros k; do 2 f_equal; lia).
  rewrite IH. cbn [Nat.mul]. rewrite firstn_add, skipn_skipn.
  do 2 f_equal; [f_equal; lia|f_equal; lia].
Qed.

(** X2.  Two chunks in a row share [overlap] words: the words of the
    first after its first [size - overlap] are the first [overlap] words
    of the second. *)
Theorem consecutive_chunks_overlap (size overlap : Z) (text : pystr)
    (fuel : nat) (chunks : list pystr) (k : nat) :
  0 <= overlap < size ->
  chunk_text_with fuel size overlap text = Some chunks ->
  (S k < List.length chunks)%nat ->
  skipn (Z.to_nat (size - overlap)) (split (nth k chunks []))
  = firstn (Z.to_nat overlap) (split (nth (S k) chunks []))
  /\ len (firstn (Z.to_nat overlap) (split (nth (S k) chunks []))) = overlap.
Proof.
  intros Hov Hrun Hk.
  destruct (chunk_split_words size overlap text fuel chunks k Hov Hrun ltac:(lia))
    as [Hwk Hn].
  destruct (chunk_split_words size overlap text fuel chunks (S k) Hov Hrun Hk)
    as [Hwk1 _].
  rewrite Hwk, Hwk1, !chunk_words_at_nat by assumption.
  set (words := split text) in *.
  pose proof (len_nonneg words) as Hl.
  assert (HL : 0 < len words).
  { destruct (Z_le_gt_dec (len words) 0); [|lia].
    unfold chunk_count in Hn. destruct (Z.leb_spec (len words) 0); lia. }
  destruct (chunk_count_bounds size overlap (len words) Hov HL)
    as (_ & Hbefore & _).
  specialize (Hbefore (Z.of_nat k) ltac:(lia)).
  set (s := Z.to_nat (size - overlap)) in *.
  assert (Hs : Z.of_nat s = size - overlap) by (subst s; lia).
  rewrite skipn_firstn_comm, skipn_skipn, firstn_firstn.
  replace (Z.to_nat size - s)%nat with (Z.to_nat overlap) by lia.
  rewrite Nat.min_l by lia. cbn [Nat.mul].
  replace (s + k * s)%nat with (s + k * s)%nat by reflexivity.
  split; [reflexivity|].
  unfold len. rewrite length_firstn, length_skipn. unfold len in *. nia.
Qed.

Lemma consecutive_chunks_overlap_witness :
  skipn (Z.to_nat (3 - 1)) (split (nth 0 [py "a b c"; py "c d e"; py "e f g"] []))
  = firstn (Z.to_nat 1) (split (nth 1 [py "a b c"; py "c d e"; py "e f g"] []))
  /\ len (firstn (Z.to_nat 1)
            (split (nth 1 [py "a b c"; py "c d e"; py "e f g"] []))) = 1.
Proof.
  apply (consecutive_chunks_overlap 3 1 (py "a b c d e f g") 10
           [py "a b c"; py "c d e"; py "e f g"] 0).
  - lia.
  - reflexivity.
  - cbn. lia.
Defined.

(** X3.  The words of the text are the words of the first chunk followed
    by the words of each later chunk after its first [overlap]: the
    chunks hold every word, in order, and repeat only the overlaps. *)
Theorem chunks_rebuild_text (size overlap : Z) (text : pystr) (fuel : nat)
    (chunks : list pystr) :
  0 <= overlap < size ->
  chunk_text_with fuel size overlap text = Some chunks ->
  List.concat (map (fun k => match k with
                        | O => split (nth k chunks [])
                        | S _ => skipn (Z.to_nat overlap) (split (nth k chunks []))
                        end)
              (seq 0 (List.length chunks)))
  = split text.
Proof.
  intros Hov Hrun.
  set (words := split text).
  set (s := Z.to_nat (size - overlap)).
  set (o := Z.to_nat overlap).
  assert (Hpieces :
    forall k, (k < List.length chunks)%nat ->
      match k with
      | O => split (nth k chunks [])
      | S _ => skipn o (split (nth k chunks []))
      end
      = match k with
        | O => firstn (o + s) words
        | S j => firstn s (skipn ((o + s) + j * s) words)
        end).
  { intros k Hk.
    destruct (chunk_split_words size overlap text fuel chunks k Hov Hrun Hk)
      as [Hwk _].
    rewrite Hwk, chunk_words_at_nat by assumption. fold words s.
    replace (Z.to_nat size) with (o + s)%nat by (subst o s; lia).
    destruct k as [|j]; [reflexivity|].
    rewrite skipn_firstn_comm, skipn_skipn.
    f_equal; [lia|f_equal; lia]. }
  destruct chunks as [|c0 chunks'] eqn:Hchunks.
  { pose proof (chunk_text_words size overlap text fuel [] Hov Hrun) as Hnone.
    apply (f_equal (@List.length pystr)) in Hnone.
    rewrite length_map, length_seq in Hnone. cbn [List.length] in Hnone.
    pose proof (len_nonneg words) as Hl.
    destruct (Z_le_gt_dec (len words) 0) as [H0|H0].
    - subst words. destruct (split text); [reflexivity|unfold len in *; cbn in *; lia].
    - pose proof (chunk_count_bounds size overlap (len words) Hov ltac:(lia))
        as (Hn & _).
      fold words in Hnone. lia. }
  rewrite <- Hchunks in *.
  assert (Hlen : List.length chunks = S (List.length chunks'))
    by now rewrite Hchunks.
  rewrite (map_ext_in _ (fun k => match k with
                                | O => firstn (o + s) words
                                | S j => firstn s (skipn ((o + s) + j * s) words)
                                end)).
  2:{ intros k Hk. apply in_seq in Hk. apply Hpieces. lia. }
  rewrite Hlen. cbn [seq map List.concat]. rewrite <- seq_shift, map_map.
  rewrite concat_pieces, <- firstn_add.
  apply firstn_all2.
  destruct (chunk_split_words size overlap text fuel chunks 0 Hov Hrun ltac:(lia))
    as [_ Hn].
  pose proof (len_nonneg words) as Hl.
  destruct (Z_le_gt_dec (len words) 0) as [H0|H0]; [unfold len in *; lia|].
  destruct (chunk_count_bounds size overlap (len words) Hov ltac:(lia))
    as (_ & _ & Hlast).
  fold words in Hn. rewrite <- Hn, Hlen in Hlast.
  unfold len in *. subst o s. nia.
Qed.

Lemma chunks_rebuild_text_witness :
  List.concat (map (fun k => match k with
                        | O => split (nth k [py "a b c"; py "c d e"; py "e f g"] [])
                        | S _ => skipn (Z.to_nat 1)
                                   (split (nth k [py "a b c"; py "c d e"; py "e f g"] []))
                        end)
              (seq 0 (List.length [py "a b c"; py "c d e"; py "e f g"])))
  = split (py "a b c d e f g").
Proof.
  apply (chunks_rebuild_text 3 1 (py "a b c d e f g") 10).
  - lia.
  - reflexivity.
Defined.

(* ------------------------------------------------------------------ *)
(** ** The Model Client against any backend *)

Lemma backoff_events_snoc prompt model retries (first k : nat) :
  [ Query prompt model 1;
    Warning (rate_limit_warning (60 * (Z.of_nat first + 1))
               (Z.of_nat first) retries);
    Sleep (60 * (Z.of_nat first + 1)) ]
  ++ backoff_events prompt model retries (S first) k
  = backoff_events prompt model retries first (S k).
Proof. reflexivity. Qed.

(** Whatever the backend does, the attempts from [first] on end in a
    query, after some rate-limited attempts with their sleeps. *)
Lemma attempts_shape backend prompt model retries (n : nat) :
  forall (first : nat) (t : trace) r t',
    Z.of_nat (first + S n) = retries ->
    @attempts trace (scripted_sdk backend) recorded_logging
      (map Z.of_nat (seq first (S n))) prompt model retries t = (r, t') ->
    exists k : nat,
      (k <= n)%nat
      /\ t' = t ++ backoff_events prompt model retries first k
                ++ [Query prompt model 1].
Proof.
  induction n as [|n IH]; intros first t r t' Hretries Hrun.
  - cbn [seq map] in Hrun. exists 0%nat. split; [lia|].
    destruct (raised (backend (queries_made t) prompt model)) as [e|] eqn:Hb.
    + rewrite (attempt_raises backend prompt model retries _ _ t e Hb) in Hrun
        by (right; right; lia).
      now injection Hrun as _ <-.
    + rewrite (attempt_returns backend prompt model retries _ _ t Hb) in Hrun.
      now injection Hrun as _ <-.
  - cbn [seq map] in Hrun.
    destruct (raised (backend (queries_made t) prompt model)) as [e|] eqn:Hb.
    + destruct (exn_is_Exception e) eqn:Hexc;
        [destruct (is_rate_limit e) eqn:Hrl|].
      * rewrite (attempt_retries backend prompt model retries) in Hrun;
          [|now exists e|lia].
        apply (IH (S first)) in Hrun; [|lia].
        destruct Hrun as (k & Hk & ->). exists (S k). split; [lia|].
        rewrite <- backoff_events_snoc. now rewrite <- !app_assoc.
      * rewrite (attempt_raises backend prompt model retries _ _ t e Hb) in Hrun
          by (right; now left).
        exists 0%nat. split; [lia|]. now injection Hrun as _ <-.
      * rewrite (attempt_raises backend prompt model retries _ _ t e Hb) in Hrun
          by now left.
        exists 0%nat. split; [lia|]. now injection Hrun as _ <-.
    + rewrite (attempt_returns backend prompt model retries _ _ t Hb) in Hrun.
      exists 0%nat. split; [lia|]. now injection Hrun as _ <-.
Qed.

Lemma total_schedule (k : nat) :
  total (map (fun i => 60 * (Z.of_nat i + 1)) (seq 0 k))
  = 30 * Z.of_nat k * (Z.of_nat k + 1).
Proof.
  induction k as [|k IH]; [reflexivity|].
  rewrite seq_S, map_app. unfold total in *. rewrite fold_right_app.
  cbn [map fold_right Nat.add].
  assert (Hshift : forall (l : list Z) a,
             fold_right Z.add a l = fold_right Z.add 0 l + a).
  { induction l as [|x l IHl]; intros a; cbn; [lia|]. rewrite IHl. lia. }
  rewrite Hshift, IH. lia.
Qed.

(** X4.  Whatever the backend answers, [_query_claude] with no attempt
    to make ([retries <= 0]) returns the empty string without a query;
    otherwise it makes at most [retries] queries, all with the prompt
    and the model it was given and one turn; between two queries it
    warns and sleeps 60 seconds times the number of the failed attempt,
    and after its last query it does nothing; so it sleeps at most
    [30 * retries * (retries - 1)] seconds in all. *)
Theorem query_claude_bounded
    (backend : nat -> pystr -> pystr -> stream) (prompt model : pystr)
    (retries : Z) :
  let run := query_on backend prompt model retries [] in
  (retries <= 0 -> run = (Ok [], []))
  /\ (0 < retries ->
      exists k : nat,
        Z.of_nat k < retries
        /\ snd run = backoff_events prompt model retries 0 k
                     ++ [Query prompt model 1]
        /\ queries_made (snd run) = S k
        /\ sleeps (snd run) = map (fun i => 60 * (Z.of_nat i + 1)) (seq 0 k)
        /\ total (sleeps (snd run)) <= 30 * retries * (retries - 1)).
Proof.
  intros run. subst run. unfold query_on, _query_claude, py_range. split.
  - intros Hle. replace (Z.to_nat retries) with 0%nat by lia. reflexivity.
  - intros Hpos.
    destruct (Z.to_nat retries) as [|n] eqn:Hn; [lia|].
    destruct (@attempts trace (scripted_sdk backend) recorded_logging
                (map Z.of_nat (seq 0 (S n))) prompt model retries [])
      as [r t'] eqn:Hrun.
    apply attempts_shape in Hrun; [|lia].
    destruct Hrun as (k & Hk & ->). cbn [app snd].
    exists k. split; [lia|]. split; [reflexivity|]. split; [|split].
    + rewrite queries_made_app, queries_made_backoff. cbn. lia.
    + rewrite sleeps_app, sleeps_backoff. cbn. now rewrite app_nil_r.
    + rewrite sleeps_app, sleeps_backoff. cbn [sleeps flat_map app].
      rewrite app_nil_r, total_schedule. nia.
Qed.

(* ------------------------------------------------------------------ *)
(** ** A chunk that fails *)

(** The loop over the chunks when call [k] raises and the calls before
    it return: the exception leaves the loop, after [k + 1] calls. *)
Lemma summarise_chunks_fails answers total (e : exn) :
  forall (items : list (Z * pystr)) (k : nat) (acc : list pystr) (t0 : trace),
    (k < List.length items)%nat ->
    (forall j, (j < k)%nat ->
       exists s,
         answers (List.length (client_calls t0) + j)%nat
           (_build_chunk_prompt (snd (nth j items (0, [])))
              (fst (nth j items (0, [])) + 1) total)
           CHUNK_MODEL
         = Ok s) ->
    answers (List.length (client_calls t0) + k)%nat
      (_build_chunk_prompt (snd (nth k items (0, [])))
         (fst (nth k items (0, [])) + 1) total)
      CHUNK_MODEL
    = Raise e ->
    exists t1,
      @summarise_chunks trace (scripted_client answers) recorded_logging
        items total acc t0
      = (Raise e, t1)
      /\ client_calls t1
         = client_calls t0
           ++ map (fun item => (_build_chunk_prompt (snd item) (fst item + 1) total,
                                CHUNK_MODEL)) (firstn (S k) items).
Proof.
  induction items as [|[i c] items IH]; intros k acc t0 Hk Hbefore Hfail.
  - cbn in Hk. lia.
  - cbn [summarise_chunks]. unfold bind at 1. unfold info, act.
    cbn [logging_info recorded_logging].
    unfold bind at 1. cbn [query_claude scripted_client].
    rewrite client_calls_app. cbn [client_calls flat_map]. rewrite app_nil_r.
    destruct k as [|k].
    + cbn [nth fst snd] in Hfail. rewrite Nat.add_0_r in Hfail. rewrite Hfail.
      eexists. split; [reflexivity|].
      rewrite !client_calls_app. cbn. now rewrite !app_nil_r.
    + destruct (Hbefore 0%nat ltac:(lia)) as [s Hs].
      cbn [nth fst snd] in Hs. rewrite Nat.add_0_r in Hs. rewrite Hs.
      destruct (IH k (acc ++ [s])
                  ((t0 ++ [Info (py "Summarising chunk " ++ str_of_int (i + 1)
                                   ++ py "/" ++ str_of_int total ++ py "...")])
                   ++ [ClientCall (_build_chunk_prompt c (i + 1) total) CHUNK_MODEL]))
        as (t1 & Hrun & Hcalls).
      * cbn in Hk. lia.
      * intros j Hj. destruct (Hbefore (S j) ltac:(lia)) as [s' Hs'].
        exists s'. cbn [nth] in Hs'. rewrite <- Hs'. f_equal.
        rewrite !client_calls_app. cbn. rewrite !length_app. cbn. lia.
      * cbn [nth] in Hfail. rewrite <- Hfail. f_equal.
        rewrite !client_calls_app. cbn. rewrite !length_app. cbn. lia.
      * exists t1. split; [exact Hrun|].
        rewrite Hcalls, !client_calls_app.
        cbn [client_calls flat_map map fst snd firstn].
        rewrite !app_nil_r. now rewrite <- app_assoc.
Qed.

Lemma firstn_seq_le (m : nat) :
  forall start n, (m <= n)%nat -> firstn m (seq start n) = seq start m.
Proof.
  induction m as [|m IH]; intros start n Hm; [reflexivity|].
  destruct n as [|n]; [lia|]. cbn [seq firstn]. f_equal. apply IH. lia.
Qed.

(** X5.  On a text over the budget, when the call for chunk [k] raises
    and the calls before it return, [run_pipeline] raises that
    exception after [k + 1] calls, all with the chunk model: it makes no
    call for a later chunk and none with the main model. *)
Theorem chunk_failure_stops_pipeline `{Interpreter}
    (answers : nat -> pystr -> pystr -> pyres pystr) (text filename : pystr)
    (k : nat) (e : exn) :
  let chunks := _chunk_text text in
  let chunk_call (j : nat) :=
    (_build_chunk_prompt (nth j chunks []) (Z.of_nat j + 1) (len chunks),
     CHUNK_MODEL) in
  CHUNK_SIZE < len (split text) ->
  (k < List.length chunks)%nat ->
  (forall j, (j < k)%nat ->
     exists s, answers j (fst (chunk_call j)) CHUNK_MODEL = Ok s) ->
  answers k (fst (chunk_call k)) CHUNK_MODEL = Raise e ->
  let run := pipeline_on answers text filename [] in
  fst run = Raise e
  /\ client_calls (snd run) = map chunk_call (seq 0 (S k)).
Proof.
  intros chunks chunk_call Hgt Hk Hbefore Hfail run.
  set (t0 := [Info (py "Text exceeds " ++ str_of_int CHUNK_SIZE ++ py " words ("
                      ++ str_of_int (len (split text)) ++ py "), chunking...");
              Info (py "Split into " ++ str_of_int (len chunks) ++ py " chunks")]).
  destruct (summarise_chunks_fails answers (len chunks) e (enumerate chunks)
              k [] t0) as (t1 & Hrun & Hcalls).
  - now rewrite enumerate_length.
  - intros j Hj. rewrite (enumerate_at ([] : pystr) chunks j) by lia.
    cbn [fst snd]. apply (Hbefore j Hj).
  - rewrite (enumerate_at ([] : pystr) chunks k) by lia. cbn [fst snd].
    exact Hfail.
  - assert (Hpipe : run = (Raise e, t1)).
    { subst run. unfold pipeline_on, run_pipeline.
      destruct (Z.gtb_spec (len (split text)) CHUNK_SIZE) as [_|Hle]; [|lia].
      fold chunks.
      unfold bind at 1. unfold bind at 1. unfold bind at 1.
      unfold info at 1, act at 1. cbn [logging_info recorded_logging app].
      unfold bind at 1. unfold info at 1, act at 1.
      cbn [logging_info recorded_logging app].
      unfold bind at 1. fold t0. now rewrite Hrun. }
    rewrite Hpipe. cbn [fst snd].
    split; [reflexivity|]. rewrite Hcalls.
    change (client_calls t0) with (@nil (pystr * pystr)). cbn [app].
    rewrite (enumerate_nth ([] : pystr) chunks), firstn_map, map_map.
    f_equal. apply firstn_seq_le. lia.
Qed.

Lemma chunk_failure_stops_pipeline_witness :
  fst (pipeline_on (fun _ _ _ => Raise connection_error)
         sample_long (py "paper1") [])
  = Raise connection_error
  /\ client_calls (snd (pipeline_on (fun _ _ _ => Raise connection_error)
                          sample_long (py "paper1") []))
     = map (fun j : nat =>
              (_build_chunk_prompt (nth j (_chunk_text sample_long) [])
                 (Z.of_nat j + 1) (len (_chunk_text sample_long)),
               CHUNK_MODEL))
           (seq 0 1).
Proof.
  apply (chunk_failure_stops_pipeline (fun _ _ _ => Raise connection_error)
           sample_long (py "paper1") 0 connection_error).
  - compute_it.
  - rewrite sample_long_chunks. lia.
  - intros j Hj. lia.
  - reflexivity.
Defined.

Lemma query_claude_bounded_witness :
  query_on sample_backend (py "prompt") MAIN_MODEL 0 [] = (Ok [], [])
  /\ exists k : nat,
       Z.of_nat k < 3
       /\ snd (query_on sample_backend (py "prompt") MAIN_MODEL 3 [])
          = backoff_events (py "prompt") MAIN_MODEL 3 0 k
            ++ [Query (py "prompt") MAIN_MODEL 1]
       /\ queries_made (snd (query_on sample_backend (py "prompt") MAIN_MODEL 3 []))
          = S k
       /\ sleeps (snd (query_on sample_backend (py "prompt") MAIN_MODEL 3 []))
          = map (fun i => 60 * (Z.of_nat i + 1)) (seq 0 k)
       /\ total (sleeps (snd (query_on sample_backend (py "prompt") MAIN_MODEL 3 [])))
          <= 30 * 3 * (3 - 1).
Proof.
  split.
  - apply (proj1 (query_claude_bounded sample_backend (py "prompt") MAIN_MODEL 0)).
    lia.
  - apply (proj2 (query_claude_bounded sample_backend (py "prompt") MAIN_MODEL 3)).
    lia.
Defined.

(* ------------------------------------------------------------------ *)
(** ** An object with text around it *)

Lemma lstrip_before_nonspace (a : pystr) (c : N) (r : pystr) :
  isspace c = false ->
  exists a0 a', a = a0 ++ a' /\ lstrip (a ++ c :: r) = a' ++ c :: r
                /\ (forallb isspace a = true -> a' = []).
Proof.
  intros Hc. induction a as [|d a (a0 & a' & Ha & Hl & Hall)].
  - exists [], []. cbn [app lstrip]. rewrite Hc. repeat split.
  - cbn [app lstrip]. destruct (isspace d) eqn:Hd.
    + exists (d :: a0), a'. subst a. repeat split; [assumption|].
      intros Hsp. cbn [forallb app] in Hsp. rewrite Hd in Hsp. now apply Hall.
    + exists [], (d :: a). repeat split.
      cbn [forallb]. rewrite Hd. discriminate.
Qed.

Lemma rstrip_nonspace (d : N) (b : pystr) :
  isspace d = false -> rstrip (d :: b) = d :: rstrip b.
Proof. intros Hd. cbn [rstrip]. destruct (rstrip b); now rewrite ?Hd. Qed.

Lemma rstrip_after_nonspace (x : pystr) (d : N) (b : pystr) :
  isspace d = false -> rstrip (x ++ d :: b) = x ++ d :: rstrip b.
Proof.
  intros Hd. induction x as [|c x IH]; [now apply rstrip_nonspace|].
  cbn [app rstrip]. rewrite IH. destruct x; reflexivity.
Qed.

Lemma rstrip_spaces (b : pystr) : forallb isspace b = true -> rstrip b = [].
Proof.
  induction b as [|c b IH]; [reflexivity|]. cbn [forallb rstrip].
  intros Hb. apply andb_prop in Hb as [Hc Hb]. now rewrite (IH Hb), Hc.
Qed.

Lemma from_first_open_found (a r : pystr) :
  ~ In (Json.ch "{") a ->
  from_first_open (a ++ Json.ch "{" :: r) = Some (Json.ch "{" :: r).
Proof.
  induction a as [|c a IH]; intros Hno; [reflexivity|].
  cbn [app from_first_open].
  destruct (N.eqb_spec c (Json.ch "{")) as [->|Hc].
  - exfalso. apply Hno. now left.
  - apply IH. intros Hin. apply Hno. now right.
Qed.

Lemma upto_last_close_none (b : pystr) :
  ~ In (Json.ch "}") b -> upto_last_close b = None.
Proof.
  induction b as [|c b IH]; intros Hno; [reflexivity|].
  cbn [upto_last_close]. rewrite IH by (intros Hin; apply Hno; now right).
  destruct (N.eqb_spec c (Json.ch "}")) as [->|Hc]; [|reflexivity].
  exfalso. apply Hno. now left.
Qed.

Lemma upto_last_close_found (body b : pystr) :
  ~ In (Json.ch "}") b ->
  upto_last_close (body ++ Json.ch "}" :: b) = Some (body ++ [Json.ch "}"]).
Proof.
  intros Hno. induction body as [|c body IH].
  - cbn [app upto_last_close]. now rewrite (upto_last_close_none b Hno).
  - cbn [app upto_last_close]. now rewrite IH.
Qed.

Lemma in_app_suffix {A} (x : A) (a0 a' : list A) :
  ~ In x (a0 ++ a') -> ~ In x a'.
Proof. intros Hno Hin. apply Hno, in_or_app. now right. Qed.

(** X6.  On a response that holds no fence marker and one JSON object
    with text around it, no opening brace before the object and no
    closing brace after it, [_extract_json] returns what the whole
    stripped text decodes to, if it decodes; it returns the object when
    the decoding of the whole fails with a [JSONDecodeError]; and an
    exception of another class raised on the whole goes through.  It
    returns the object when only white space is around it. *)
Theorem extract_json_tolerates_prose `{Interpreter} (a body b : pystr)
    (v : pyval) :
  let object := Json.ch "{" :: body ++ [Json.ch "}"] in
  let text := a ++ object ++ b in
  ~ In (Json.ch "{") a ->
  ~ In (Json.ch "}") b ->
  contains fence text = false ->
  Json.loads object = Json.Decoded v ->
  _extract_json text
  = match Json.loads (strip text) with
    | Json.Decoded w => Ok w
    | Json.DecodeError => Ok v
    | Json.LimitError e => Raise e
    end
  /\ (forallb isspace a = true -> forallb isspace b = true ->
      _extract_json text = Ok v).
Proof.
  intros object text Ha Hb Hfence Hobject.
  assert (Hclean : fence_clean text = strip text).
  { unfold fence_clean, re_sub_fence. now rewrite sub_fence_id. }
  destruct (lstrip_before_nonspace a (Json.ch "{") (body ++ [Json.ch "}"] ++ b)
              eq_refl) as (a0 & a' & Hsplit & Hlstrip & Hall).
  assert (Hstrip : strip text
                   = a' ++ Json.ch "{" :: body ++ Json.ch "}" :: rstrip b).
  { unfold strip, text, object. cbn [app]. rewrite <- app_assoc.
    rewrite Hlstrip. cbn [app].
    change (a' ++ Json.ch "{" :: body ++ Json.ch "}" :: b)
      with (a' ++ (Json.ch "{" :: body) ++ Json.ch "}" :: b).
    rewrite app_assoc, rstrip_after_nonspace by reflexivity.
    now rewrite <- app_assoc. }
  assert (Hsearch : re_search_braces (strip text) = Some object).
  { rewrite Hstrip. unfold re_search_braces.
    rewrite from_first_open_found
      by (subst a; now apply in_app_suffix in Ha).
    rewrite upto_last_close_found; [reflexivity|].
    destruct (rstrip_prefix b) as [b' Hb']. rewrite Hb' in Hb.
    intros Hin. apply Hb, in_or_app. now left. }
  assert (Hmain : _extract_json text
                  = match Json.loads (strip text) with
                    | Json.Decoded w => Ok w
                    | Json.DecodeError => Ok v
                    | Json.LimitError e => Raise e
                    end).
  { unfold _extract_json. rewrite Hclean.
    destruct (Json.loads (strip text)); [reflexivity| |reflexivity].
    now rewrite Hsearch, Hobject. }
  split; [exact Hmain|].
  intros Hwa Hwb. rewrite Hmain, Hstrip, (Hall Hwa), (rstrip_spaces b Hwb).
  cbn [app]. fold object. now rewrite Hobject.
Qed.

Lemma extract_json_tolerates_prose_witness :
  _extract_json (py "Sure: " ++ (Json.ch "{" :: pyq "'a': 1" ++ [Json.ch "}"])
                   ++ py " Done.")
  = match Json.loads
            (strip (py "Sure: " ++ (Json.ch "{" :: pyq "'a': 1" ++ [Json.ch "}"])
                      ++ py " Done."))
    with
    | Json.Decoded w => Ok w
    | Json.DecodeError => Ok (PyDict [(py "a", PyInt 1)])
    | Json.LimitError e => Raise e
    end.
Proof.
  refine (proj1 (extract_json_tolerates_prose (py "Sure: ") (pyq "'a': 1")
                   (py " Done.") (PyDict [(py "a", PyInt 1)]) _ _ _ _)).
  - vm_compute. intuition discriminate.
  - vm_compute. intuition discriminate.
  - vm_compute. reflexivity.
  - vm_compute. reflexivity.
Defined.

(* ------------------------------------------------------------------ *)
(** ** [escape_latex] *)

Lemma is_special_cases (c : N) :
  is_special c = true ->
  In c [92; 37; 36; 35; 95; 123; 125; 126; 94; 38]%N.
Proof.
  unfold is_special. intros H. apply existsb_exists in H as (x & Hin & Heq).
  apply N.eqb_eq in Heq. subst x. exact Hin.
Qed.

Ltac special_cases H :=
  apply is_special_cases in H; cbn [In] in H;
  repeat (destruct H as [<-|H]); [..|contradiction].

(** Every character the pattern matches has its entry in the map. *)
Lemma escape_image_found (c : N) :
  (if is_special c then map_get _ESCAPE_MAP [c] else Done [c])
  = Done (escape_image c).
Proof.
  unfold escape_image. destruct (is_special c) eqn:Hc; [|reflexivity].
  special_cases Hc; reflexivity.
Qed.

Lemma escape_str_escaped (text : pystr) : escape_str text = Done (escaped text).
Proof.
  induction text as [|c text IH]; [reflexivity|].
  cbn [escape_str]. rewrite escape_image_found, IH. reflexivity.
Qed.

Lemma escaped_app (a b : pystr) : escaped (a ++ b) = escaped a ++ escaped b.
Proof. apply flat_map_app. Qed.

(** X7.  [escape_latex] never fails on a [str]: every character its
    pattern matches is a key of [_ESCAPE_MAP], so no [KeyError]; and it
    works piece by piece, the escaped text of [a + b] being the escaped
    [a] followed by the escaped [b]. *)
Theorem escape_latex_total (a b : pystr) :
  exists ta tb,
    escape_latex (PyStr a) = Done ta
    /\ escape_latex (PyStr b) = Done tb
    /\ escape_latex (PyStr (a ++ b)) = Done (ta ++ tb).
Proof.
  exists (escaped a), (escaped b). cbn [escape_latex].
  rewrite !escape_str_escaped, escaped_app. repeat split.
Qed.

(** The image of a character, from either state, leaves the scan as it
    was without a backslash before. *)
Lemma scan_escaped_image (c : N) (t : pystr) :
  scan_escaped false (escape_image c ++ t) = scan_escaped false t.
Proof.
  unfold escape_image. destruct (is_special c) eqn:Hc.
  - special_cases Hc; reflexivity.
  - cbn [app scan_escaped].
    assert (Hno : forall x, In x [92; 37; 36; 35; 95; 123; 125; 126; 94; 38]%N ->
                            (c =? x)%N = false).
    { intros x Hx. apply N.eqb_neq. intros ->.
      assert (is_special x = true); [|congruence].
      cbn [In] in Hx. repeat (destruct Hx as [<-|Hx]); try reflexivity.
      contradiction. }
    cbn [existsb py map list_ascii_of_string].
    change (N_of_ascii "~") with 126%N. change (N_of_ascii "^") with 94%N.
    change (N_of_ascii "%") with 37%N. change (N_of_ascii "$") with 36%N.
    change (N_of_ascii "#") with 35%N. change (N_of_ascii "_") with 95%N.
    change (N_of_ascii "&") with 38%N.
    rewrite !Hno by (cbn; tauto). reflexivity.
Qed.

Lemma scan_escaped_escaped (text : pystr) : scan_escaped false (escaped text) = true.
Proof.
  induction text as [|c text IH]; [reflexivity|].
  unfold escaped in *. cbn [flat_map]. now rewrite scan_escaped_image.
Qed.

(** One step of the scan. *)
Lemma scan_escaped_step (st : bool) (e : N) (t : pystr) :
  scan_escaped st (e :: t) = true ->
  scan_escaped (e =? 92)%N t = true
  /\ e <> 126%N /\ e <> 94%N
  /\ (In e (py "%$#_&") -> st = true)
  /\ (e = 92%N -> st = false).
Proof.
  cbn [scan_escaped]. intros Hscan.
  destruct (existsb (N.eqb e) (py "~^")) eqn:Hbad; [discriminate|].
  assert (H126 : e <> 126%N) by (intros ->; discriminate).
  assert (H94 : e <> 94%N) by (intros ->; discriminate).
  destruct (existsb (N.eqb e) (py "%$#_&")) eqn:Hguard.
  - apply andb_prop in Hscan as [-> Hscan].
    assert (H92 : (e =? 92)%N = false).
    { apply N.eqb_neq. intros ->. discriminate. }
    rewrite H92.
    split; [exact Hscan|]. split; [exact H126|]. split; [exact H94|].
    split; [reflexivity|intros ->; discriminate].
  - assert (Hnot : ~ In e (py "%$#_&")).
    { intros Hin. assert (existsb (N.eqb e) (py "%$#_&") = true); [|congruence].
      apply existsb_exists. exists e. split; [exact Hin|apply N.eqb_refl]. }
    destruct (e =? 92)%N eqn:H92.
    + apply andb_prop in Hscan as [Hst Hscan]. apply negb_true_iff in Hst.
      split; [exact Hscan|]. split; [exact H126|]. split; [exact H94|].
      split; [intros Hin; now destruct Hnot|intros _; exact Hst].
    + apply N.eqb_neq in H92.
      split; [exact Hscan|]. split; [exact H126|]. split; [exact H94|].
      split; [intros Hin; now destruct Hnot|intros ->; now destruct H92].
Qed.

Lemma scan_escaped_no_tilde (t : pystr) :
  forall st, scan_escaped st t = true -> ~ In 126%N t /\ ~ In 94%N t.
Proof.
  induction t as [|e t IH]; intros st Hscan; [split; intros []|].
  apply scan_escaped_step in Hscan as (Hscan & H126 & H94 & _).
  destruct (IH _ Hscan) as [H1 H2].
  split; (intros [Heq|Hin]; [congruence|auto]).
Qed.

Lemma scan_escaped_guarded (x : pystr) (c : N) (y : pystr) :
  In c (py "%$#_&") ->
  forall st, scan_escaped st (x ++ c :: y) = true ->
    match x with
    | [] => st = true
    | _ :: _ => exists x', x = x' ++ [92%N]
    end.
Proof.
  intros Hc. induction x as [|e x IH]; intros st Hscan.
  - now apply scan_escaped_step in Hscan as (_ & _ & _ & Hst & _); auto.
  - cbn [app] in Hscan.
    apply scan_escaped_step in Hscan as (Hscan & _).
    specialize (IH _ Hscan). destruct x as [|e' x].
    + apply N.eqb_eq in IH. subst e. now exists [].
    + destruct IH as [x' ->]. now exists (e :: x').
Qed.

Lemma scan_escaped_no_double (x y : pystr) :
  forall st, scan_escaped st (x ++ 92%N :: 92%N :: y) = false.
Proof.
  induction x as [|e x IH]; intros st.
  - cbn. now rewrite andb_false_r.
  - destruct (scan_escaped st ((e :: x) ++ 92%N :: 92%N :: y)) eqn:Hscan;
      [|reflexivity].
    cbn [app] in Hscan. apply scan_escaped_step in Hscan as (Hscan & _).
    now rewrite IH in Hscan.
Qed.

Lemma scan_escaped_no_last (x : pystr) :
  forall st, scan_escaped st (x ++ [92%N]) = false.
Proof.
  induction x as [|e x IH]; intros st.
  - cbn. now rewrite andb_false_r.
  - destruct (scan_escaped st ((e :: x) ++ [92%N])) eqn:Hscan; [|reflexivity].
    cbn [app] in Hscan. apply scan_escaped_step in Hscan as (Hscan & _).
    now rewrite IH in Hscan.
Qed.

(** X8.  What [escape_latex] returns holds no tilde and no circumflex;
    a percent sign, dollar sign, hash, underscore or ampersand stands in
    it only right after a backslash; it never has two backslashes in a
    row, and it does not end in a backslash. *)
Theorem escape_latex_safe (text t : pystr) :
  escape_latex (PyStr text) = Done t ->
  ~ In 126%N t /\ ~ In 94%N t
  /\ (forall x c y, t = x ++ c :: y -> In c (py "%$#_&") ->
        exists x', x = x' ++ [92%N])
  /\ (forall x y, t <> x ++ 92%N :: 92%N :: y)
  /\ (forall x, t <> x ++ [92%N]).
Proof.
  cbn [escape_latex]. rewrite escape_str_escaped. intros [= <-].
  pose proof (scan_escaped_escaped text) as Hscan.
  destruct (scan_escaped_no_tilde _ _ Hscan) as [H1 H2].
  split; [exact H1|]. split; [exact H2|]. split; [|split].
  - intros x c y Heq Hc. rewrite Heq in Hscan.
    pose proof (scan_escaped_guarded x c y Hc _ Hscan) as Hx.
    destruct x; [discriminate|exact Hx].
  - intros x y Heq. rewrite Heq, scan_escaped_no_double in Hscan. discriminate.
  - intros x Heq. rewrite Heq, scan_escaped_no_last in Hscan. discriminate.
Qed.

Lemma escape_latex_safe_witness :
  ~ In 126%N (py "50\% of a\_b") /\ ~ In 94%N (py "50\% of a\_b")
  /\ (forall x c y, py "50\% of a\_b" = x ++ c :: y -> In c (py "%$#_&") ->
        exists x', x = x' ++ [92%N])
  /\ (forall x y, py "50\% of a\_b" <> x ++ 92%N :: 92%N :: y)
  /\ (forall x, py "50\% of a\_b" <> x ++ [92%N]).
Proof.
  apply (escape_latex_safe (py "50% of a_b") (py "50\% of a\_b")). reflexivity.
Defined.
Lemma escape_image_special (c : N) :
  is_special c = true -> exists d r, escape_image c = 92%N :: d :: r.
Proof.
  intros Hc. special_cases Hc; cbn; eauto.
Qed.

Lemma escape_image_plain (c : N) : is_special c = false -> escape_image c = [c].
Proof. unfold escape_image. now intros ->. Qed.

Lemma escape_image_prefix_free (c d : N) (u v : pystr) :
  escape_image c ++ u = escape_image d ++ v -> c = d /\ u = v.
Proof.
  destruct (is_special c) eqn:Hc, (is_special d) eqn:Hd.
  - special_cases Hc; special_cases Hd; cbn; intros H;
      solve [split; congruence | discriminate H].
  - rewrite (escape_image_plain d Hd).
    special_cases Hc; cbn; intros [= <- _]; discriminate Hd.
  - rewrite (escape_image_plain c Hc).
    special_cases Hd; cbn; intros [= -> _]; discriminate Hc.
  - rewrite (escape_image_plain c Hc), (escape_image_plain d Hd).
    cbn. intros [= -> ->]. now split.
Qed.

Lemma escape_image_nonempty (c : N) : escape_image c <> [].
Proof.
  destruct (is_special c) eqn:Hc.
  - destruct (escape_image_special c Hc) as (d & r & ->). discriminate.
  - rewrite (escape_image_plain c Hc). discriminate.
Qed.

Lemma escaped_injective (a : pystr) : forall b, escaped a = escaped b -> a = b.
Proof.
  unfold escaped.
  induction a as [|c a IH]; intros [|d b] H; cbn [flat_map] in H.
  - reflexivity.
  - symmetry in H. apply app_eq_nil in H as [H _].
    now destruct (escape_image_nonempty d).
  - apply app_eq_nil in H as [H _]. now destruct (escape_image_nonempty c).
  - apply escape_image_prefix_free in H as [-> H]. f_equal. now apply IH.
Qed.

(** X9.  [escape_latex] loses nothing: two texts with the same escaped
    form are the same text. *)
Theorem escape_latex_injective (a b t : pystr) :
  escape_latex (PyStr a) = Done t ->
  escape_latex (PyStr b) = Done t ->
  a = b.
Proof.
  cbn [escape_latex]. rewrite !escape_str_escaped. intros [= <-] [= H].
  symmetry. now apply escaped_injective.
Qed.

Lemma escape_latex_injective_witness : py "a_b" = py "a_b".
Proof.
  apply (escape_latex_injective (py "a_b") (py "a_b") (py "a\_b")); reflexivity.
Defined.

Lemma template_with_names :
  LATEX_TEMPLATE
  = template_with (py "TITULO_PAPER") (py "SUMMARY_TEXT")
      (py "CONTRIBUTIONS_ITEMS") (py "LIMITATIONS_ITEMS") (py "QUESTION_TEXT").
Proof. reflexivity. Qed.

(** *** [str.replace] *)

Lemma replace_from_enough (old new : pystr) (fuel : nat) :
  old <> [] ->
  forall s fuel', (List.length s <= fuel)%nat -> (List.length s <= fuel')%nat ->
    replace_from fuel old new s = replace_from fuel' old new s.
Proof.
  intros Hold. revert fuel.
  induction fuel as [|fuel IH]; intros s fuel' Hlen Hlen'.
  - destruct s; [|cbn in Hlen; lia]. destruct fuel'; [reflexivity|].
    cbn [replace_from]. destruct old as [|a old]; [contradiction|reflexivity].
  - destruct fuel' as [|fuel'].
    + destruct s; [|cbn in Hlen'; lia].
      cbn [replace_from]. destruct old as [|a old]; [contradiction|reflexivity].
    + cbn [replace_from]. destruct (strip_prefix old s) as [r|] eqn:Hr.
      * apply strip_prefix_length in Hr.
        assert (0 < List.length old)%nat.
        { destruct old; [contradiction|cbn; lia]. }
        f_equal. apply IH; lia.
      * destruct s as [|c s]; [reflexivity|]. cbn [List.length] in *.
        f_equal. apply IH; lia.
Qed.

Lemma replace_miss (old new : pystr) (c : N) (s : pystr) :
  old <> [] -> strip_prefix old (c :: s) = None ->
  replace old new (c :: s) = c :: replace old new s.
Proof.
  intros Hold Hs. unfold replace. destruct old as [|a old]; [contradiction|].
  cbn [List.length replace_from]. now rewrite Hs.
Qed.

Lemma replace_hit (old new r : pystr) :
  old <> [] -> replace old new (old ++ r) = new ++ replace old new r.
Proof.
  intros Hold. unfold replace. destruct old as [|a old]; [contradiction|].
  set (p := a :: old) in *.
  destruct (List.length (p ++ r)) as [|n] eqn:Hn; [discriminate Hn|].
  cbn [replace_from]. rewrite strip_prefix_self. f_equal.
  apply replace_from_enough; [discriminate| |lia].
  rewrite length_app in Hn. subst p. cbn [List.length] in Hn. lia.
Qed.

Lemma replace_absent (old new : pystr) :
  old <> [] -> forall s, contains old s = false -> replace old new s = s.
Proof.
  intros Hold. induction s as [|c s IH]; intros Hno.
  - unfold replace. destruct old; [contradiction|reflexivity].
  - apply contains_tail in Hno as [Hhead Htail].
    rewrite (replace_miss _ _ _ _ Hold Hhead). f_equal. now apply IH.
Qed.

(** *** Guarded underscores *)

Lemma guarded_weaken (st : bool) (s : pystr) :
  underscores_guarded false s = true -> underscores_guarded st s = true.
Proof.
  destruct s as [|c s]; [reflexivity|]. cbn [underscores_guarded].
  destruct (c =? 95)%N; [discriminate|]. now destruct st.
Qed.

Lemma guarded_app (a b : pystr) :
  forall st, underscores_guarded st a = true ->
             underscores_guarded false b = true ->
             underscores_guarded st (a ++ b) = true.
Proof.
  induction a as [|c a IH]; intros st Ha Hb.
  - now apply guarded_weaken.
  - cbn [app underscores_guarded] in *. apply andb_prop in Ha as [-> Ha].
    now rewrite (IH _ Ha Hb).
Qed.

Lemma guarded_scan (t : pystr) :
  forall st, scan_escaped st t = true -> underscores_guarded st t = true.
Proof.
  induction t as [|e t IH]; intros st Hscan; [reflexivity|].
  apply scan_escaped_step in Hscan as (Hscan & _ & _ & Hst & _).
  cbn [underscores_guarded]. rewrite (IH _ Hscan), andb_true_r.
  destruct (N.eqb_spec e 95) as [->|]; [|reflexivity].
  apply Hst. cbn. tauto.
Qed.

Lemma guarded_escaped (text : pystr) :
  underscores_guarded false (escaped text) = true.
Proof. apply guarded_scan, scan_escaped_escaped. Qed.

Lemma guarded_join (lines : list pystr) :
  Forall (fun l => underscores_guarded false l = true) lines ->
  underscores_guarded false (join nl lines) = true.
Proof.
  induction 1 as [|l lines Hl Hlines IH]; [reflexivity|].
  cbn [join]. destruct lines as [|l' lines]; [exact Hl|].
  apply guarded_app; [exact Hl|]. now apply (guarded_app nl).
Qed.

Lemma guarded_line_of (item : pystr * pystr) :
  underscores_guarded false (line_of item) = true.
Proof.
  unfold line_of, item_line.
  apply guarded_app; [reflexivity|].
  apply guarded_app; [apply guarded_escaped|].
  apply guarded_app; [reflexivity|apply guarded_escaped].
Qed.

Lemma guarded_lines (items : list (pystr * pystr)) :
  underscores_guarded false (join nl (map line_of items)) = true.
Proof.
  apply guarded_join, Forall_forall. intros l Hl.
  apply in_map_iff in Hl as (item & <- & _). apply guarded_line_of.
Qed.

(** In a text with guarded underscores, an underscore after a character
    that is no backslash lies beyond the text. *)
Lemma guarded_occurrence (x : pystr) (u : N) (y : pystr) :
  u <> 92%N ->
  forall st g z, underscores_guarded st g = true ->
                 g ++ z = x ++ u :: 95%N :: y ->
                 (List.length g <= List.length x + 1)%nat.
Proof.
  intros Hu. induction x as [|c x IH]; intros st g z Hg Heq.
  - destruct g as [|g1 [|g2 g]]; cbn [List.length]; try lia.
    cbn [app] in Heq. injection Heq as -> -> _.
    cbn [underscores_guarded] in Hg. apply N.eqb_neq in Hu. rewrite Hu in Hg.
    change (95 =? 95)%N with true in Hg. apply andb_prop in Hg as [_ Hg].
    discriminate Hg.
  - destruct g as [|g1 g]; cbn [List.length]; [lia|].
    cbn [app] in Heq. injection Heq as -> Heq.
    cbn [underscores_guarded] in Hg. apply andb_prop in Hg as [_ Hg].
    specialize (IH _ _ _ Hg Heq). lia.
Qed.

(** A name with an underscore after a character that is no backslash
    does not start inside a guarded text that stands before it. *)
Lemma guarded_no_start (a u' : pystr) (u : N) (v b : pystr) :
  u <> 92%N ->
  underscores_guarded false (u' ++ [u]) = true ->
  forall st c, underscores_guarded st (c :: a) = true ->
    strip_prefix (u' ++ u :: 95%N :: v) (c :: a ++ (u' ++ u :: 95%N :: v) ++ b)
    = None.
Proof.
  intros Hu Hname st c Ha.
  destruct (strip_prefix _ _) as [r|] eqn:Hr; [|reflexivity].
  apply strip_prefix_eq in Hr.
  assert (Hg : underscores_guarded st ((c :: a) ++ u' ++ [u]) = true)
    by now apply guarded_app.
  assert (Heq : ((c :: a) ++ u' ++ [u]) ++ (95%N :: v ++ b)
                = u' ++ u :: 95%N :: (v ++ r)).
  { transitivity ((u' ++ u :: 95%N :: v) ++ r).
    - rewrite <- Hr. cbn [app]. rewrite <- ?app_assoc. cbn [app].
      rewrite <- ?app_assoc. reflexivity.
    - rewrite <- app_assoc. reflexivity. }
  pose proof (guarded_occurrence u' u (v ++ r) Hu _ _ _ Hg Heq) as Hlen.
  rewrite !length_app in Hlen. cbn [List.length] in Hlen. lia.
Qed.

(** The replacement of such a name that follows a guarded text and is
    not found again after it. *)
Lemma replace_at (u' : pystr) (u : N) (v new b : pystr) :
  u <> 92%N ->
  underscores_guarded false (u' ++ [u]) = true ->
  contains (u' ++ u :: 95%N :: v) b = false ->
  forall a st, underscores_guarded st a = true ->
    replace (u' ++ u :: 95%N :: v) new (a ++ (u' ++ u :: 95%N :: v) ++ b)
    = a ++ new ++ b.
Proof.
  intros Hu Hname Hb.
  assert (Hold : u' ++ u :: 95%N :: v <> []) by (destruct u'; discriminate).
  induction a as [|c a IH]; intros st Ha.
  - cbn [app]. rewrite (replace_hit _ _ _ Hold). f_equal.
    now apply replace_absent.
  - cbn [app]. rewrite (replace_miss _ _ _ _ Hold).
    + f_equal. cbn [underscores_guarded] in Ha.
      apply andb_prop in Ha as [_ Ha]. exact (IH _ Ha).
    + exact (guarded_no_start a u' u v b Hu Hname st c Ha).
Qed.
Lemma template_with_pieces (t s c l q : pystr) :
  template_with t s c l q
  = piece_0 ++ t ++ piece_1 ++ s ++ piece_2 ++ c ++ piece_3 ++ l
    ++ piece_4 ++ q ++ rest_5.
Proof.
  let x := eval vm_compute in piece_0 in change piece_0 with x.
  let x := eval vm_compute in piece_1 in change piece_1 with x.
  let x := eval vm_compute in piece_2 in change piece_2 with x.
  let x := eval vm_compute in piece_3 in change piece_3 with x.
  let x := eval vm_compute in piece_4 in change piece_4 with x.
  let x := eval vm_compute in rest_5 in change rest_5 with x.
  unfold template_with. cbn [join py map list_ascii_of_string app].
  rewrite <- ?app_assoc. cbn [app]. reflexivity.
Qed.
Lemma template_cuts :
  LATEX_TEMPLATE = piece_0 ++ py "TITULO_PAPER" ++ rest_1
  /\ rest_1 = piece_1 ++ py "SUMMARY_TEXT" ++ rest_2
  /\ rest_2 = piece_2 ++ py "CONTRIBUTIONS_ITEMS" ++ rest_3
  /\ rest_3 = piece_3 ++ py "LIMITATIONS_ITEMS" ++ rest_4
  /\ rest_4 = piece_4 ++ py "QUESTION_TEXT" ++ rest_5.
Proof. vm_compute. repeat split. Qed.

(** The five replacements, one after the other, on values with guarded
    underscores. *)
Lemma replacements_fill (t s c l q : pystr) :
  underscores_guarded false t = true ->
  underscores_guarded false s = true ->
  underscores_guarded false c = true ->
  underscores_guarded false l = true ->
  underscores_guarded false q = true ->
  replace (py "QUESTION_TEXT") q
    (replace (py "LIMITATIONS_ITEMS") l
       (replace (py "CONTRIBUTIONS_ITEMS") c
          (replace (py "SUMMARY_TEXT") s
             (replace (py "TITULO_PAPER") t LATEX_TEMPLATE))))
  = template_with t s c l q.
Proof.
  intros Ht Hs Hc Hl Hq.
  destruct template_cuts as (H0 & H1 & H2 & H3 & H4).
  rewrite template_with_pieces, H0.
  change (py "TITULO_PAPER") with (py "TITUL" ++ 79%N :: 95%N :: py "PAPER").
  rewrite (replace_at (py "TITUL") 79%N (py "PAPER") t rest_1
             ltac:(discriminate) eq_refl eq_refl piece_0 false eq_refl).
  rewrite H1.
  replace (piece_0 ++ t ++ piece_1 ++ py "SUMMARY_TEXT" ++ rest_2)
    with ((piece_0 ++ t ++ piece_1) ++ py "SUMMARY_TEXT" ++ rest_2)
    by now rewrite <- !app_assoc.
  change (py "SUMMARY_TEXT") with (py "SUMMAR" ++ 89%N :: 95%N :: py "TEXT").
  rewrite (replace_at (py "SUMMAR") 89%N (py "TEXT") s rest_2
             ltac:(discriminate) eq_refl eq_refl (piece_0 ++ t ++ piece_1) false).
  2:{ repeat (apply guarded_app; [first [assumption|reflexivity]|]).
      reflexivity. }
  rewrite H2.
  replace ((piece_0 ++ t ++ piece_1) ++ s ++ piece_2
           ++ py "CONTRIBUTIONS_ITEMS" ++ rest_3)
    with ((piece_0 ++ t ++ piece_1 ++ s ++ piece_2)
          ++ py "CONTRIBUTIONS_ITEMS" ++ rest_3)
    by now rewrite <- !app_assoc.
  change (py "CONTRIBUTIONS_ITEMS") with (py "CONTRIBUTION" ++ 83%N :: 95%N :: py "ITEMS").
  rewrite (replace_at (py "CONTRIBUTION") 83%N (py "ITEMS") c rest_3
             ltac:(discriminate) eq_refl eq_refl
             (piece_0 ++ t ++ piece_1 ++ s ++ piece_2) false).
  2:{ repeat (apply guarded_app; [first [assumption|reflexivity]|]).
      reflexivity. }
  rewrite H3.
  replace ((piece_0 ++ t ++ piece_1 ++ s ++ piece_2) ++ c ++ piece_3
           ++ py "LIMITATIONS_ITEMS" ++ rest_4)
    with ((piece_0 ++ t ++ piece_1 ++ s ++ piece_2 ++ c ++ piece_3)
          ++ py "LIMITATIONS_ITEMS" ++ rest_4)
    by now rewrite <- !app_assoc.
  change (py "LIMITATIONS_ITEMS") with (py "LIMITATION" ++ 83%N :: 95%N :: py "ITEMS").
  rewrite (replace_at (py "LIMITATION") 83%N (py "ITEMS") l rest_4
             ltac:(discriminate) eq_refl eq_refl
             (piece_0 ++ t ++ piece_1 ++ s ++ piece_2 ++ c ++ piece_3) false).
  2:{ repeat (apply guarded_app; [first [assumption|reflexivity]|]).
      reflexivity. }
  rewrite H4.
  replace ((piece_0 ++ t ++ piece_1 ++ s ++ piece_2 ++ c ++ piece_3) ++ l
           ++ piece_4 ++ py "QUESTION_TEXT" ++ rest_5)
    with ((piece_0 ++ t ++ piece_1 ++ s ++ piece_2 ++ c ++ piece_3 ++ l
           ++ piece_4) ++ py "QUESTION_TEXT" ++ rest_5)
    by now rewrite <- !app_assoc.
  change (py "QUESTION_TEXT") with (py "QUESTIO" ++ 78%N :: 95%N :: py "TEXT").
  rewrite (replace_at (py "QUESTIO") 78%N (py "TEXT") q rest_5
             ltac:(discriminate) eq_refl eq_refl
             (piece_0 ++ t ++ piece_1 ++ s ++ piece_2 ++ c ++ piece_3 ++ l
              ++ piece_4) false).
  2:{ repeat (apply guarded_app; [first [assumption|reflexivity]|]).
      reflexivity. }
  now rewrite <- !app_assoc.
Qed.
Lemma guarded_template (t s c l q : pystr) :
  underscores_guarded false t = true ->
  underscores_guarded false s = true ->
  underscores_guarded false c = true ->
  underscores_guarded false l = true ->
  underscores_guarded false q = true ->
  underscores_guarded false (template_with t s c l q) = true.
Proof.
  intros Ht Hs Hc Hl Hq. rewrite template_with_pieces.
  repeat (apply guarded_app; [first [assumption|reflexivity]|]). reflexivity.
Qed.

Lemma contains_split (p : pystr) :
  forall s, contains p s = true -> exists x r, s = x ++ p ++ r.
Proof.
  induction s as [|c s IH]; cbn [contains]; intros Hs.
  - destruct (strip_prefix p []) as [r|] eqn:Hr; [|discriminate].
    apply strip_prefix_eq in Hr. now exists [], r.
  - destruct (strip_prefix p (c :: s)) as [r|] eqn:Hr.
    + apply strip_prefix_eq in Hr. now exists [], r.
    + destruct (IH Hs) as (x & r & ->). now exists (c :: x), r.
Qed.

(** A text with guarded underscores holds no name with an underscore
    after a character that is no backslash. *)
Lemma guarded_no_name (u' : pystr) (u : N) (v s : pystr) :
  u <> 92%N ->
  underscores_guarded false s = true ->
  contains (u' ++ u :: 95%N :: v) s = false.
Proof.
  intros Hu Hs.
  destruct (contains (u' ++ u :: 95%N :: v) s) eqn:Hc; [|reflexivity].
  apply contains_split in Hc as (x & r & Heq).
  assert (Heq' : s ++ [] = (x ++ u') ++ u :: 95%N :: (v ++ r)).
  { rewrite app_nil_r, Heq, <- !app_assoc. cbn [app]. reflexivity. }
  pose proof (guarded_occurrence (x ++ u') u (v ++ r) Hu _ _ _ Hs Heq') as Hlen.
  rewrite Heq in Hlen. rewrite !length_app in Hlen.
  cbn [List.length] in Hlen. lia.
Qed.

(** *** [fill_template] *)

Lemma Done_inj {A : Type} (a b : A) : Done a = Done b -> a = b.
Proof. now intros [= ->]. Qed.

Lemma escape_latex_done (v : pyval) (t : pystr) :
  escape_latex v = Done t -> exists s, v = PyStr s /\ t = escaped s.
Proof.
  destruct v; try discriminate. cbn [escape_latex].
  rewrite escape_str_escaped. intros [= <-]. eauto.
Qed.

Lemma item_lines_run (vs : list pyval) (items : list (pystr * pystr)) :
  Forall2 is_item vs items ->
  forall acc, item_lines vs acc = Done (acc ++ map line_of items).
Proof.
  induction 1 as [|v item vs items [Hlabel Htext] _ IH]; intros acc.
  - cbn. now rewrite app_nil_r.
  - cbn [item_lines]. rewrite Hlabel. cbn [outcome_bind escape_latex].
    rewrite escape_str_escaped. cbn [outcome_bind]. rewrite Htext.
    cbn [outcome_bind escape_latex]. rewrite escape_str_escaped.
    cbn [outcome_bind]. rewrite IH, <- app_assoc. reflexivity.
Qed.

Lemma item_lines_done (vs : list pyval) :
  forall acc lines, item_lines vs acc = Done lines ->
    exists items, Forall2 is_item vs items /\ lines = acc ++ map line_of items.
Proof.
  induction vs as [|v vs IH]; intros acc lines Hrun.
  - cbn in Hrun. injection Hrun as <-. exists []. split; [constructor|].
    now rewrite app_nil_r.
  - cbn [item_lines] in Hrun.
    destruct (subscript v (py "label")) as [lv|] eqn:Hlabel; [|discriminate].
    cbn [outcome_bind] in Hrun.
    destruct (escape_latex lv) as [label|] eqn:Hl; [|discriminate].
    apply escape_latex_done in Hl as (l & -> & ->).
    cbn [outcome_bind] in Hrun.
    destruct (subscript v (py "text")) as [tv|] eqn:Htext; [|discriminate].
    cbn [outcome_bind] in Hrun.
    destruct (escape_latex tv) as [text|] eqn:Ht; [|discriminate].
    apply escape_latex_done in Ht as (t & -> & ->).
    cbn [outcome_bind] in Hrun.
    destruct (IH _ _ Hrun) as (items & Hitems & ->).
    exists ((l, t) :: items). split.
    + constructor; [now split|exact Hitems].
    + rewrite <- app_assoc. reflexivity.
Qed.

(** The values [fill_template] reads from a well-formed paper, before
    the replacements. *)
Lemma fill_template_values (data : pyval) (title summary question : pystr)
    (contributions limitations : list (pystr * pystr)) :
  subscript data (py "title") = Done (PyStr title) ->
  subscript data (py "summary") = Done (PyStr summary) ->
  has_items data (py "contributions") contributions ->
  has_items data (py "limitations") limitations ->
  subscript data (py "question") = Done (PyStr question) ->
  fill_template data
  = Done (replace (py "QUESTION_TEXT") (escaped question)
            (replace (py "LIMITATIONS_ITEMS")
               (join nl (map line_of limitations))
               (replace (py "CONTRIBUTIONS_ITEMS")
                  (join nl (map line_of contributions))
                  (replace (py "SUMMARY_TEXT") (escaped summary)
                     (replace (py "TITULO_PAPER") (escaped title)
                        LATEX_TEMPLATE))))).
Proof.
  intros Htitle Hsummary (cv & cvs & Hc & Hcs & Hcitems)
         (lv & lvs & Hl & Hls & Hlitems) Hquestion.
  unfold fill_template.
  rewrite Htitle, Hsummary, Hc, Hl, Hquestion.
  cbn [outcome_bind escape_latex]. rewrite !escape_str_escaped.
  cbn [outcome_bind]. rewrite Hcs, Hls. cbn [outcome_bind].
  rewrite (item_lines_run _ _ Hcitems), (item_lines_run _ _ Hlitems).
  reflexivity.
Qed.

(** X10.  On a paper that has a [str] under [title], [summary] and
    [question], and items with a [str] label and text under
    [contributions] and [limitations], [fill_template] returns the
    template with the escaped values in the places of the five names:
    each value stands there once, and a name of the template that occurs
    in a value is not replaced. *)
Theorem fill_template_layout (data : pyval) (title summary question : pystr)
    (contributions limitations : list (pystr * pystr)) :
  subscript data (py "title") = Done (PyStr title) ->
  subscript data (py "summary") = Done (PyStr summary) ->
  has_items data (py "contributions") contributions ->
  has_items data (py "limitations") limitations ->
  subscript data (py "question") = Done (PyStr question) ->
  fill_template data
  = Done (template_with (escaped title) (escaped summary)
            (join nl (map line_of contributions))
            (join nl (map line_of limitations))
            (escaped question)).
Proof.
  intros Htitle Hsummary Hc Hl Hquestion.
  rewrite (fill_template_values data title summary question contributions
             limitations Htitle Hsummary Hc Hl Hquestion).
  f_equal.
  apply replacements_fill;
    first [apply guarded_escaped | apply guarded_lines].
Qed.

Lemma sample_paper_items :
  has_items sample_paper (py "contributions") [(py "A_1", py "uses {x}")]
  /\ has_items sample_paper (py "limitations") [].
Proof.
  split.
  - eexists _, _. split; [reflexivity|]. split; [reflexivity|].
    repeat constructor.
  - eexists _, _. split; [reflexivity|]. split; [reflexivity|]. constructor.
Defined.

Lemma fill_template_layout_witness :
  fill_template sample_paper
  = Done (template_with (py "TITULO\_PAPER \& SUMMARY\_TEXT")
            (py "50\% of QUESTION\_TEXT")
            (py "    \item \textbf{A\_1:} uses \{x\}") []
            (py "Why \#1?")).
Proof.
  exact (fill_template_layout sample_paper
           (py "TITULO_PAPER & SUMMARY_TEXT") (py "50% of QUESTION_TEXT")
           (py "Why #1?") [(py "A_1", py "uses {x}")] []
           eq_refl eq_refl (proj1 sample_paper_items)
           (proj2 sample_paper_items) eq_refl).
Defined.

Lemma fill_template_done (data : pyval) (tex : pystr) :
  fill_template data = Done tex ->
  exists title summary question contributions limitations,
    subscript data (py "title") = Done (PyStr title)
    /\ subscript data (py "summary") = Done (PyStr summary)
    /\ has_items data (py "contributions") contributions
    /\ has_items data (py "limitations") limitations
    /\ subscript data (py "question") = Done (PyStr question)
    /\ tex = template_with (escaped title) (escaped summary)
               (join nl (map line_of contributions))
               (join nl (map line_of limitations))
               (escaped question).
Proof.
  unfold fill_template. intros Hrun.
  destruct (subscript data (py "title")) as [tv|] eqn:Htitle; [|discriminate].
  cbn [outcome_bind] in Hrun.
  destruct (escape_latex tv) as [t|] eqn:Ht; [|discriminate].
  apply escape_latex_done in Ht as (title & -> & ->).
  cbn [outcome_bind] in Hrun.
  destruct (subscript data (py "summary")) as [sv|] eqn:Hsummary;
    [|discriminate].
  cbn [outcome_bind] in Hrun.
  destruct (escape_latex sv) as [s|] eqn:Hs; [|discriminate].
  apply escape_latex_done in Hs as (summary & -> & ->).
  cbn [outcome_bind] in Hrun.
  destruct (subscript data (py "contributions")) as [cv|] eqn:Hc;
    [|discriminate].
  cbn [outcome_bind] in Hrun.
  destruct (iterate cv) as [cvs|] eqn:Hcvs; [|discriminate].
  cbn [outcome_bind] in Hrun.
  destruct (item_lines cvs []) as [clines|] eqn:Hclines; [|discriminate].
  apply item_lines_done in Hclines as (contributions & Hcitems & ->).
  cbn [outcome_bind] in Hrun.
  destruct (subscript data (py "limitations")) as [lv|] eqn:Hl;
    [|discriminate].
  cbn [outcome_bind] in Hrun.
  destruct (iterate lv) as [lvs|] eqn:Hlvs; [|discriminate].
  cbn [outcome_bind] in Hrun.
  destruct (item_lines lvs []) as [llines|] eqn:Hllines; [|discriminate].
  apply item_lines_done in Hllines as (limitations & Hlitems & ->).
  cbn [outcome_bind] in Hrun.
  destruct (subscript data (py "question")) as [qv|] eqn:Hquestion;
    [|discriminate].
  cbn [outcome_bind] in Hrun.
  destruct (escape_latex qv) as [q|] eqn:Hq; [|discriminate].
  apply escape_latex_done in Hq as (question & -> & ->).
  exists title, summary, question, contributions, limitations.
  split; [reflexivity|]. split; [reflexivity|].
  split; [exists cv, cvs; repeat split; assumption|].
  split; [exists lv, lvs; repeat split; assumption|].
  split; [reflexivity|].
  rewrite <- (replacements_fill (escaped title) (escaped summary)
                (join nl (map line_of contributions))
                (join nl (map line_of limitations)) (escaped question)
                (guarded_escaped _) (guarded_escaped _) (guarded_lines _)
                (guarded_lines _) (guarded_escaped _)).
  apply Done_inj. symmetry. exact Hrun.
Qed.

(** X11.  [fill_template] returns only for such a paper: when it
    returns, the paper has a [str] under [title], [summary] and
    [question], and items with a [str] label and text under
    [contributions] and [limitations]. *)
Theorem fill_template_needs (data : pyval) (tex : pystr) :
  fill_template data = Done tex ->
  exists title summary question contributions limitations,
    subscript data (py "title") = Done (PyStr title)
    /\ subscript data (py "summary") = Done (PyStr summary)
    /\ has_items data (py "contributions") contributions
    /\ has_items data (py "limitations") limitations
    /\ subscript data (py "question") = Done (PyStr question).
Proof.
  intros Hrun.
  destruct (fill_template_done _ _ Hrun)
    as (title & summary & question & contributions & limitations
        & H1 & H2 & H3 & H4 & H5 & _).
  exists title, summary, question, contributions, limitations.
  repeat split; assumption.
Qed.

Lemma fill_template_needs_witness :
  exists title summary question contributions limitations,
    subscript sample_paper (py "title") = Done (PyStr title)
    /\ subscript sample_paper (py "summary") = Done (PyStr summary)
    /\ has_items sample_paper (py "contributions") contributions
    /\ has_items sample_paper (py "limitations") limitations
    /\ subscript sample_paper (py "question") = Done (PyStr question).
Proof.
  eapply (fill_template_needs sample_paper). vm_compute. reflexivity.
Defined.

(** X12.  In what [fill_template] returns every underscore stands right
    after a backslash, so none of the five names of the template is left
    in it, whatever the paper holds. *)
Theorem fill_template_leaves_no_name (data : pyval) (tex : pystr) :
  fill_template data = Done tex ->
  underscores_guarded false tex = true
  /\ contains (py "TITULO_PAPER") tex = false
  /\ contains (py "SUMMARY_TEXT") tex = false
  /\ contains (py "CONTRIBUTIONS_ITEMS") tex = false
  /\ contains (py "LIMITATIONS_ITEMS") tex = false
  /\ contains (py "QUESTION_TEXT") tex = false.
Proof.
  intros Hrun.
  destruct (fill_template_done _ _ Hrun)
    as (title & summary & question & contributions & limitations
        & _ & _ & _ & _ & _ & ->).
  assert (Hg : underscores_guarded false
                 (template_with (escaped title) (escaped summary)
                    (join nl (map line_of contributions))
                    (join nl (map line_of limitations))
                    (escaped question)) = true).
  { apply guarded_template;
      first [apply guarded_escaped | apply guarded_lines]. }
  split; [exact Hg|].
  split; [exact (guarded_no_name (py "TITUL") 79 (py "PAPER") _
                   ltac:(discriminate) Hg)|].
  split; [exact (guarded_no_name (py "SUMMAR") 89 (py "TEXT") _
                   ltac:(discriminate) Hg)|].
  split; [exact (guarded_no_name (py "CONTRIBUTION") 83 (py "ITEMS") _
                   ltac:(discriminate) Hg)|].
  split; [exact (guarded_no_name (py "LIMITATION") 83 (py "ITEMS") _
                   ltac:(discriminate) Hg)|].
  exact (guarded_no_name (py "QUESTIO") 78 (py "TEXT") _
           ltac:(discriminate) Hg).
Qed.

Lemma fill_template_leaves_no_name_witness :
  exists tex,
    fill_template sample_paper = Done tex
    /\ underscores_guarded false tex = true
    /\ contains (py "TITULO_PAPER") tex = false
    /\ contains (py "SUMMARY_TEXT") tex = false
    /\ contains (py "CONTRIBUTIONS_ITEMS") tex = false
    /\ contains (py "LIMITATIONS_ITEMS") tex = false
    /\ contains (py "QUESTION_TEXT") tex = false.
Proof.
  eexists. split; [vm_compute; reflexivity|].
  apply (fill_template_leaves_no_name sample_paper). vm_compute. reflexivity.
Defined.

(* ------------------------------------------------------------------ *)
(** ** [wait_for_complete] *)

Section ScriptedFiles.

Variable reads : nat -> stat_result.
Variable path : pystr.
Variable checks : Z.
Variable interval : pyfloat.

Let loop (todo : nat) (prev_size stable : Z) : M (list file_event) bool :=
  @wait_loop _ (scripted_files reads) todo path checks interval
    prev_size stable.

Lemma stats_made_stat (t : list file_event) (p : pystr) :
  stats_made (t ++ [Stat p]) = S (stats_made t).
Proof.
  unfold stats_made. rewrite filter_app, length_app. cbn. lia.
Qed.

Lemma stats_made_turn (t : list file_event) (p : pystr) (i : pyfloat) :
  stats_made ((t ++ [Stat p]) ++ [TimeSleep i]) = S (stats_made t).
Proof.
  unfold stats_made. rewrite !filter_app, !length_app. cbn. lia.
Qed.

(** One turn of the loop. *)
Lemma wait_loop_turn (todo : nat) (prev_size stable : Z)
    (t : list file_event) :
  loop (S todo) prev_size stable t
  = match reads (stats_made t) with
    | StatOSError => (Ok false, t ++ [Stat path])
    | StatRaises e => (Raise e, t ++ [Stat path])
    | StatSize size =>
        if (size >? 0) && (size =? prev_size) then
          if stable + 1 >=? checks then (Ok true, t ++ [Stat path])
          else loop todo size (stable + 1)
                 ((t ++ [Stat path]) ++ [TimeSleep interval])
        else loop todo size 0 ((t ++ [Stat path]) ++ [TimeSleep interval])
    end.
Proof. reflexivity. Qed.

(** A size read again and again is accepted when the count reaches
    [checks]. *)
Lemma wait_loop_counts (s : Z) (r : nat) :
  0 < s ->
  forall todo c t,
    c + Z.of_nat r + 1 = checks ->
    (forall k, (k <= r)%nat -> reads (stats_made t + k) = StatSize s) ->
    (r < todo)%nat ->
    fst (loop todo s c t) = Ok true.
Proof.
  intros Hs. induction r as [|r IH]; intros todo c t Hc Hreads Htodo.
  - destruct todo as [|todo]; [lia|]. rewrite wait_loop_turn.
    specialize (Hreads 0%nat ltac:(lia)). rewrite Nat.add_0_r in Hreads.
    rewrite Hreads.
    replace (s >? 0) with true by (symmetry; apply Z.gtb_lt; lia).
    rewrite Z.eqb_refl. cbn [andb].
    replace (c + 1 >=? checks) with true by (symmetry; apply Z.geb_le; lia).
    reflexivity.
  - destruct todo as [|todo]; [lia|]. rewrite wait_loop_turn.
    pose proof (Hreads 0%nat ltac:(lia)) as H0. rewrite Nat.add_0_r in H0.
    rewrite H0.
    replace (s >? 0) with true by (symmetry; apply Z.gtb_lt; lia).
    rewrite Z.eqb_refl. cbn [andb].
    destruct (c + 1 >=? checks) eqn:Hge.
    + apply Z.geb_le in Hge. lia.
    + apply IH; [lia| |lia].
      intros k Hk. rewrite stats_made_turn.
      replace (S (stats_made t) + k)%nat with (stats_made t + S k)%nat by lia.
      apply Hreads. lia.
Qed.

(** From any state, [checks + 1] reads of one positive size are
    accepted. *)
Lemma wait_loop_settles (s : Z) (todo : nat) (prev_size stable : Z)
    (t : list file_event) :
  0 < s -> 1 <= checks -> 0 <= stable ->
  (forall k, (k <= Z.to_nat checks)%nat ->
             reads (stats_made t + k) = StatSize s) ->
  (Z.to_nat checks < todo)%nat ->
  fst (loop todo prev_size stable t) = Ok true.
Proof.
  intros Hs Hchecks Hstable Hreads Htodo.
  destruct todo as [|todo]; [lia|]. rewrite wait_loop_turn.
  pose proof (Hreads 0%nat ltac:(lia)) as H0. rewrite Nat.add_0_r in H0.
  rewrite H0.
  assert (Hnext : forall r, (r < Z.to_nat checks)%nat ->
            forall k, (k <= r)%nat ->
              reads (stats_made ((t ++ [Stat path]) ++ [TimeSleep interval]) + k)
              = StatSize s).
  { intros r Hr k Hk. rewrite stats_made_turn.
    replace (S (stats_made t) + k)%nat with (stats_made t + S k)%nat by lia.
    apply Hreads. lia. }
  destruct ((s >? 0) && (s =? prev_size)).
  - destruct (stable + 1 >=? checks) eqn:Hge; [reflexivity|].
    rewrite Z.geb_leb in Hge. apply Z.leb_gt in Hge.
    apply (wait_loop_counts s (Z.to_nat (checks - stable - 2)) Hs);
      [lia|apply Hnext; lia|lia].
  - apply (wait_loop_counts s (Z.to_nat (checks - 1)) Hs);
      [lia|apply Hnext; lia|lia].
Qed.

(** What the loop has seen when it accepts. *)
Lemma wait_loop_accepted :
  1 <= checks ->
  forall todo prev_size stable t,
    0 <= stable < checks ->
    (stats_made t = 0%nat -> prev_size <= 0) ->
    (0 < stats_made t -> Z.to_nat stable + 1 <= stats_made t)%nat ->
    (forall k, (k < stats_made t)%nat -> exists n, reads k = StatSize n) ->
    (forall k, (k < stats_made t)%nat ->
               (stats_made t <= k + 1 + Z.to_nat stable)%nat ->
               reads k = StatSize prev_size) ->
    fst (loop todo prev_size stable t) = Ok true ->
    exists s p,
      0 < s
      /\ (Z.to_nat checks <= p)%nat
      /\ (p < stats_made t + todo)%nat
      /\ (forall k, (p - Z.to_nat checks <= k <= p)%nat -> reads k = StatSize s)
      /\ (forall k, (k < p)%nat -> exists n, reads k = StatSize n).
Proof.
  intros Hchecks.
  induction todo as [|todo IH];
    intros prev_size stable t Hstable Hfirst Hcount Hsizes Hrun Hres;
    [discriminate Hres|].
  rewrite wait_loop_turn in Hres.
  destruct (reads (stats_made t)) as [size| |e] eqn:Hread;
    [|discriminate Hres|discriminate Hres].
  assert (Hsizes' : forall k, (k < S (stats_made t))%nat ->
                               exists n, reads k = StatSize n).
  { intros k Hk. destruct (Nat.eq_dec k (stats_made t)) as [->|Hne].
    - now exists size.
    - apply Hsizes. lia. }
  destruct ((size >? 0) && (size =? prev_size)) eqn:Hcond.
  - apply andb_prop in Hcond as [Hpos Heq].
    apply Z.gtb_lt in Hpos. apply Z.eqb_eq in Heq. subst prev_size.
    assert (Hi : (0 < stats_made t)%nat).
    { destruct (stats_made t) eqn:Hi; [|lia].
      specialize (Hfirst eq_refl). lia. }
    specialize (Hcount Hi).
    destruct (stable + 1 >=? checks) eqn:Hge.
    + apply Z.geb_le in Hge. exists size, (stats_made t).
      split; [exact Hpos|]. split; [lia|]. split; [lia|].
      split; [|exact Hsizes].
      intros k Hk. destruct (Nat.eq_dec k (stats_made t)) as [->|Hne];
        [exact Hread|].
      apply Hrun; lia.
    + rewrite Z.geb_leb in Hge. apply Z.leb_gt in Hge.
      destruct (IH size (stable + 1)
                  ((t ++ [Stat path]) ++ [TimeSleep interval]))
        as (s & p & Hs & Hp & Hlt & Hall & Hbefore);
        rewrite ?stats_made_turn; try assumption; try lia.
      * intros k Hk Hle.
        destruct (Nat.eq_dec k (stats_made t)) as [->|Hne]; [exact Hread|].
        apply Hrun; lia.
      * exists s, p. rewrite stats_made_turn in Hlt.
        repeat split; try assumption; lia.
  - destruct (IH size 0 ((t ++ [Stat path]) ++ [TimeSleep interval]))
      as (s & p & Hs & Hp & Hlt & Hall & Hbefore);
      rewrite ?stats_made_turn; try assumption; try lia.
    + intros k Hk Hle.
      destruct (Nat.eq_dec k (stats_made t)) as [->|Hne]; [exact Hread|].
      cbn in Hle. lia.
    + exists s, p. rewrite stats_made_turn in Hlt.
      repeat split; try assumption; lia.
Qed.

(** The events of the loop: reads, each followed by a sleep, but for a
    read that decides. *)
Lemma wait_loop_events :
  forall todo prev_size stable t,
    let run := loop todo prev_size stable t in
    exists k,
      (fst run = Ok false /\ k = todo /\ snd run = t ++ waits path interval k)
      \/ ((k < todo)%nat
          /\ snd run = t ++ waits path interval k ++ [Stat path]
          /\ match reads (stats_made t + k) with
             | StatSize _ => fst run = Ok true
             | StatOSError => fst run = Ok false
             | StatRaises e => fst run = Raise e
             end).
Proof.
  induction todo as [|todo IH]; intros prev_size stable t run.
  - exists 0%nat. left. subst run. cbn. now rewrite app_nil_r.
  - subst run. rewrite wait_loop_turn.
    assert (Hstep : forall size stable',
              exists k,
                (fst (loop todo size stable'
                        ((t ++ [Stat path]) ++ [TimeSleep interval]))
                 = Ok false
                 /\ k = S todo
                 /\ snd (loop todo size stable'
                           ((t ++ [Stat path]) ++ [TimeSleep interval]))
                    = t ++ waits path interval k)
                \/ ((k < S todo)%nat
                    /\ snd (loop todo size stable'
                              ((t ++ [Stat path]) ++ [TimeSleep interval]))
                       = t ++ waits path interval k ++ [Stat path]
                    /\ match reads (stats_made t + k) with
                       | StatSize _ =>
                           fst (loop todo size stable'
                                  ((t ++ [Stat path]) ++ [TimeSleep interval]))
                           = Ok true
                       | StatOSError =>
                           fst (loop todo size stable'
                                  ((t ++ [Stat path]) ++ [TimeSleep interval]))
                           = Ok false
                       | StatRaises e =>
                           fst (loop todo size stable'
                                  ((t ++ [Stat path]) ++ [TimeSleep interval]))
                           = Raise e
                       end)).
    { intros size stable'.
      destruct (IH size stable' ((t ++ [Stat path]) ++ [TimeSleep interval]))
        as [k [(Hres & -> & Htrace)|(Hk & Htrace & Hres)]].
      - exists (S todo). left. split; [exact Hres|]. split; [reflexivity|].
        rewrite Htrace, <- !app_assoc. reflexivity.
      - exists (S k). right. split; [lia|]. split.
        + rewrite Htrace, <- !app_assoc. reflexivity.
        + rewrite stats_made_turn in Hres.
          replace (stats_made t + S k)%nat with (S (stats_made t) + k)%nat
            by lia.
          exact Hres. }
    destruct (reads (stats_made t)) as [size| |e] eqn:Hread.
    + destruct ((size >? 0) && (size =? prev_size)); [|apply Hstep].
      destruct (stable + 1 >=? checks); [|apply Hstep].
      exists 0%nat. right. split; [lia|]. split; [reflexivity|].
      rewrite Nat.add_0_r, Hread. reflexivity.
    + exists 0%nat. right. split; [lia|]. split; [reflexivity|].
      rewrite Nat.add_0_r, Hread. reflexivity.
    + exists 0%nat. right. split; [lia|]. split; [reflexivity|].
      rewrite Nat.add_0_r, Hread. reflexivity.
Qed.

End ScriptedFiles.

(** X13.  With [checks] at least 1, [wait_for_complete] returns [True]
    exactly when [checks + 1] reads in a row give one positive size,
    starting with the first or the second read, and no read before them
    fails: a file that still changes at its third read is not accepted,
    however long it stays the same afterwards. *)
Theorem wait_for_complete_accepts (reads : nat -> stat_result)
    (path : pystr) (checks : Z) (interval : pyfloat) :
  1 <= checks ->
  (fst (wait_on reads path checks interval []) = Ok true
   <-> exists (j : nat) (s : Z),
         (j <= 1)%nat /\ 0 < s
         /\ (forall i, (j <= i <= j + Z.to_nat checks)%nat ->
                       reads i = StatSize s)
         /\ (forall i, (i < j)%nat -> exists n, reads i = StatSize n)).
Proof.
  intros Hchecks. unfold wait_on, wait_for_complete. split.
  - intros Hres.
    destruct (wait_loop_accepted reads path checks interval Hchecks
                (Z.to_nat (checks + 2)) (-1) 0 []
                ltac:(lia) ltac:(intros _; lia) ltac:(cbn; lia)
                ltac:(cbn; intros k Hk; lia) ltac:(cbn; intros k Hk; lia)
                Hres)
      as (s & p & Hs & Hp & Hlt & Hall & Hbefore).
    cbn [stats_made filter List.length] in Hlt.
    exists (p - Z.to_nat checks)%nat, s.
    split; [lia|]. split; [exact Hs|]. split.
    + intros i Hi. apply Hall. lia.
    + intros i Hi. apply Hbefore. lia.
  - intros (j & s & Hj & Hs & Hall & Hbefore).
    destruct j as [|j].
    + apply (wait_loop_settles reads path checks interval s); try lia.
      intros k Hk. cbn [stats_made filter List.length]. apply Hall. lia.
    + assert (j = 0%nat) by lia. subst j.
      destruct (Hbefore 0%nat ltac:(lia)) as [n Hn].
      destruct (Z.to_nat (checks + 2)) as [|todo] eqn:Htodo; [lia|].
      rewrite wait_loop_turn. cbn [stats_made filter List.length].
      rewrite Hn.
      replace ((n >? 0) && (n =? -1)) with false.
      2:{ symmetry. apply andb_false_iff.
          destruct (Z.gtb_spec n 0); [right; apply Z.eqb_neq; lia|now left]. }
      apply (wait_loop_settles reads path checks interval s); try lia.
      intros k Hk. rewrite stats_made_turn.
      cbn [stats_made filter List.length]. apply Hall. lia.
Qed.

Lemma wait_for_complete_accepts_witness :
  fst (wait_on sample_reads (py "a.pdf") 3 (FloatOf (py "1.0")) []) = Ok true
  <-> exists (j : nat) (s : Z),
        (j <= 1)%nat /\ 0 < s
        /\ (forall i, (j <= i <= j + Z.to_nat 3)%nat ->
                      sample_reads i = StatSize s)
        /\ (forall i, (i < j)%nat -> exists n, sample_reads i = StatSize n).
Proof.
  apply (wait_for_complete_accepts sample_reads (py "a.pdf") 3
           (FloatOf (py "1.0"))). lia.
Defined.

(** X14.  [wait_for_complete] reads the size at most [checks + 2] times
    and sleeps [interval] after each read but one that decides.  When no
    read decides it returns [False] after [checks + 2] reads and as many
    sleeps; otherwise its last event is the read that decides: [True] on
    a size, [False] on an [OSError], and an exception of another class
    goes through. *)
Theorem wait_for_complete_bounded (reads : nat -> stat_result)
    (path : pystr) (checks : Z) (interval : pyfloat) :
  let run := wait_on reads path checks interval [] in
  exists k : nat,
    (fst run = Ok false /\ k = Z.to_nat (checks + 2)
     /\ snd run = waits path interval k)
    \/ ((k < Z.to_nat (checks + 2))%nat
        /\ snd run = waits path interval k ++ [Stat path]
        /\ match reads k with
           | StatSize _ => fst run = Ok true
           | StatOSError => fst run = Ok false
           | StatRaises e => fst run = Raise e
           end).
Proof.
  exact (wait_loop_events reads path checks interval
           (Z.to_nat (checks + 2)) (-1) 0 []).
Qed.

(* ------------------------------------------------------------------ *)
(** ** [extract_text] *)

Lemma replace_nul (s : pystr) : replace [0%N] [] s = without_nul s.
Proof.
  assert (Hold : [0%N] <> []) by discriminate.
  induction s as [|c s IH].
  - reflexivity.
  - cbn [without_nul filter]. destruct (N.eqb_spec c 0) as [->|Hc].
    + change (0%N :: s) with ([0%N] ++ s).
      rewrite (replace_hit _ _ _ Hold). exact IH.
    + cbn [negb]. rewrite (replace_miss _ _ _ _ Hold).
      * f_equal. exact IH.
      * cbn [strip_prefix]. destruct (N.eqb_spec 0 c); [congruence|reflexivity].
Qed.

Lemma without_nul_clean (s : pystr) : ~ In 0%N (without_nul s).
Proof.
  unfold without_nul. intros Hin. apply filter_In in Hin as [_ Hin].
  discriminate Hin.
Qed.

Ltac run_host :=
  unfold log_info, log_warning, log_error;
  unfold hbind, hret, hlift, hact, hask, try_except;
  cbn [fst snd fitz_pages pdfminer_extract os_getenv requests_post
       outbox_mkdir write_text shutil_which subprocess_run logging_error
       logging_warning logging_info sdk_query recorded_host
       recorded_host_sdk recorded_host_logging fault_is_Exception
       exn_is_Exception ValueError].

(** What [extract_text] does, by what PyMuPDF gives. *)
Lemma extract_on_run (o : outside) (p : path) (t : list call) :
  extract_on o p t
  = let after_fitz := t ++ [FitzPages (path_str p)] in
    let fallback (e : fault) :=
      let t' := (after_fitz
                 ++ [Logged LevelWarning
                       (py "PyMuPDF failed ("
                        ++ @fault_str _ (recorded_host o) e
                        ++ py "), trying pdfminer.six...")])
                ++ [PdfminerExtract (path_str p)] in
      match pdfminer o with
      | Done text =>
          match strip text with
          | [] => (Failed (Raised (ValueError
                     (py "pdfminer.six extracted empty text"))), t')
          | (_ :: _) as r => (Done (without_nul r), t')
          end
      | Failed f => (Failed f, t')
      end in
    match fitz o with
    | Done pages =>
        match strip (join nl pages) with
        | [] => fallback (Raised (ValueError
                            (py "PyMuPDF extracted empty text")))
        | (_ :: _) as r => (Done (without_nul r), after_fitz)
        end
    | Failed f =>
        if fault_is_Exception f then fallback f else (Failed f, after_fitz)
    end.
Proof.
  assert (Hfallback : forall e t1,
    @hbind _ _ _
      (@hbind _ _ _
         (@log_warning _ recorded_host_logging
            (py "PyMuPDF failed (" ++ @fault_str _ (recorded_host o) e
             ++ py "), trying pdfminer.six..."))
         (fun _ => @_extract_with_pdfminer _ (recorded_host o) p))
      (fun text => hret (replace [0%N] [] text)) t1
    = let t' := (t1 ++ [Logged LevelWarning
                          (py "PyMuPDF failed ("
                           ++ @fault_str _ (recorded_host o) e
                           ++ py "), trying pdfminer.six...")])
                ++ [PdfminerExtract (path_str p)] in
      match pdfminer o with
      | Done text =>
          match strip text with
          | [] => (Failed (Raised (ValueError
                     (py "pdfminer.six extracted empty text"))), t')
          | (_ :: _) as r => (Done (without_nul r), t')
          end
      | Failed f => (Failed f, t')
      end).
  { intros e t1. unfold _extract_with_pdfminer. run_host.
    destruct (pdfminer o) as [text|f]; [|reflexivity].
    destruct text as [|c text]; [reflexivity|].
    destruct (strip (c :: text)) as [|d r] eqn:Hr; [reflexivity|].
    now rewrite replace_nul. }
  unfold extract_on, extract_text, _extract_with_pymupdf. run_host.
  destruct (fitz o) as [pages|f].
  - destruct (strip (join nl pages)) as [|d r] eqn:Hr.
    + run_host. apply Hfallback.
    + run_host. now rewrite replace_nul.
  - run_host. destruct f as [e| | | |]; run_host;
      try (destruct (exn_is_Exception e)); try reflexivity; apply Hfallback.
Qed.

(** X15.  The text [extract_text] returns holds no NUL character: it is
    the stripped text of PyMuPDF or of pdfminer, which is not empty, with
    its NUL characters taken out and nothing else changed. *)
Theorem extract_text_clean (o : outside) (p : path) (t : pystr) :
  fst (extract_on o p []) = Done t ->
  ~ In 0%N t
  /\ exists raw,
       raw <> [] /\ t = without_nul raw
       /\ ((exists pages, fitz o = Done pages /\ raw = strip (join nl pages))
           \/ (exists text, pdfminer o = Done text /\ raw = strip text)).
Proof.
  rewrite extract_on_run. cbv zeta.
  assert (Hfallback : forall t' : list call,
    fst match pdfminer o with
        | Done text =>
            match strip text with
            | [] => (Failed (Raised (ValueError
                       (py "pdfminer.six extracted empty text"))), t')
            | (_ :: _) as r => (Done (without_nul r), t')
            end
        | Failed f => (Failed f, t')
        end = Done t ->
    ~ In 0%N t
    /\ exists raw,
         raw <> [] /\ t = without_nul raw
         /\ ((exists pages, fitz o = Done pages /\ raw = strip (join nl pages))
             \/ (exists text, pdfminer o = Done text /\ raw = strip text))).
  { intros t'. destruct (pdfminer o) as [text|f]; [|discriminate].
    destruct (strip text) as [|d r] eqn:Hr; [discriminate|].
    cbn [fst]. intros [= <-]. split; [exact (without_nul_clean (d :: r))|].
    exists (d :: r). split; [discriminate|]. split; [reflexivity|].
    right. now exists text. }
  destruct (fitz o) as [pages|f].
  - destruct (strip (join nl pages)) as [|d r] eqn:Hr; [apply Hfallback|].
    cbn [fst]. intros [= <-]. split; [exact (without_nul_clean (d :: r))|].
    exists (d :: r). split; [discriminate|]. split; [reflexivity|].
    left. now exists pages.
  - destruct (fault_is_Exception f); [apply Hfallback|discriminate].
Qed.

Lemma extract_text_clean_witness :
  ~ In 0%N (py "AB")
  /\ exists raw,
       raw <> [] /\ py "AB" = without_nul raw
       /\ ((exists pages, fitz sample_outside = Done pages
                          /\ raw = strip (join nl pages))
           \/ (exists text, pdfminer sample_outside = Done text
                            /\ raw = strip text)).
Proof.
  apply (extract_text_clean sample_outside sample_pdf (py "AB")). reflexivity.
Defined.

(** X16.  [extract_text] asks pdfminer only when PyMuPDF raised an
    exception under [Exception] or gave nothing but white space, after
    one warning; what it then returns or raises is pdfminer's: the
    failure of PyMuPDF is only in the warning.  Otherwise PyMuPDF is the
    only library called. *)
Theorem extract_text_fallback (o : outside) (p : path) :
  let run := extract_on o p [] in
  let pymupdf_failed :=
    match fitz o with
    | Done pages =>
        match strip (join nl pages) with [] => true | _ :: _ => false end
    | Failed f => fault_is_Exception f
    end in
  (pymupdf_failed = false -> snd run = [FitzPages (path_str p)])
  /\ (pymupdf_failed = true ->
      (exists msg,
         snd run = [ FitzPages (path_str p); Logged LevelWarning msg;
                     PdfminerExtract (path_str p) ])
      /\ fst run
         = match pdfminer o with
           | Done text =>
               match strip text with
               | [] => Failed (Raised (ValueError
                         (py "pdfminer.six extracted empty text")))
               | (_ :: _) as r => Done (without_nul r)
               end
           | Failed f => Failed f
           end).
Proof.
  cbv zeta. rewrite extract_on_run. cbv zeta.
  assert (Hfallback : forall e,
    let r := (let t' := ([] ++ [FitzPages (path_str p)]
                         ++ [Logged LevelWarning
                               (py "PyMuPDF failed ("
                                ++ @fault_str _ (recorded_host o) e
                                ++ py "), trying pdfminer.six...")])
                        ++ [PdfminerExtract (path_str p)] in
              match pdfminer o with
              | Done text =>
                  match strip text with
                  | [] => (Failed (Raised (ValueError
                             (py "pdfminer.six extracted empty text"))), t')
                  | (_ :: _) as r => (Done (without_nul r), t')
                  end
              | Failed f => (Failed f, t')
              end) in
    (exists msg,
       snd r = [ FitzPages (path_str p); Logged LevelWarning msg;
                 PdfminerExtract (path_str p) ])
    /\ fst r
       = match pdfminer o with
         | Done text =>
             match strip text with
             | [] => Failed (Raised (ValueError
                       (py "pdfminer.six extracted empty text")))
             | (_ :: _) as r => Done (without_nul r)
             end
         | Failed f => Failed f
         end).
  { intros e. cbv zeta. destruct (pdfminer o) as [text|f].
    - destruct (strip text); (split; [eexists; reflexivity|reflexivity]).
    - split; [eexists; reflexivity|reflexivity]. }
  destruct (fitz o) as [pages|f].
  - destruct (strip (join nl pages)) as [|d r] eqn:Hr.
    + split; [discriminate|]. intros _. apply Hfallback.
    + split; [reflexivity|discriminate].
  - destruct (fault_is_Exception f) eqn:Hf.
    + split; [discriminate|]. intros _. apply Hfallback.
    + split; [reflexivity|discriminate].
Qed.

Lemma extract_text_fallback_witness :
  exists msg,
    snd (extract_on sample_outside sample_pdf [])
    = [ FitzPages (py "/in/a.pdf"); Logged LevelWarning msg;
        PdfminerExtract (py "/in/a.pdf") ].
Proof.
  exact (proj1 (proj2 (extract_text_fallback sample_outside sample_pdf)
                  eq_refl)).
Defined.

(* ------------------------------------------------------------------ *)
(** ** [rewrite_text] *)






Lemma rewrite_on_run (o : outside) (text : pyval) (t : list call) :
  rewrite_on o text t
  = let t0 := t ++ [Getenv (py "DEEPL_API_KEY") []] in
    let fallback (t1 : list call) :=
      rewrite_with_claude_on o text
        (t1 ++ [Logged LevelInfo (py "DeepL unavailable, using Claude fallback")]) in
    match deepl_api_key o with
    | [] => fallback t0
    | (_ :: _) as api_key =>
        let t1 := t0 ++ [deepl_request text api_key] in
        match deepl_answer o with
        | Done v => (Done v, t1)
        | Failed e =>
            if fault_is_Exception e then
              fallback (t1 ++ [Logged LevelWarning
                                 (py "DeepL failed ("
                                  ++ @fault_str _ (recorded_host o) e
                                  ++ py "), using Claude fallback")])
            else (Failed e, t1)
        end
    end.
Proof.
  unfold rewrite_on, rewrite_text, _rewrite_with_deepl, deepl_answer,
    deepl_request, rewrite_with_claude_on.
  run_host. destruct (deepl_api_key o) as [|k key]; [reflexivity|].
  cbv zeta. unfold outcome_bind.
  destruct (deepl o) as [r|f]; [destruct (checked r) as [v|f]|];
    try reflexivity; destruct (fault_is_Exception f); reflexivity.
Qed.

Lemma rewrite_with_claude_on_trace (o : outside) (text : pyval)
    (t : list call) :
  exists q, is_sdk_query q = true /\ is_post q = false /\ is_write q = false
            /\ snd (rewrite_with_claude_on o text t) = t ++ [q].
Proof.
  unfold rewrite_with_claude_on, _rewrite_with_claude.
  cbn [sdk_query recorded_host_sdk]. eexists. repeat split.
  4:{ destruct (raised _); [reflexivity|].
      destruct (strip _); reflexivity. }
  all: reflexivity.
Qed.

(** The answer of the fallback depends on the queries made before
    only. *)
Lemma rewrite_with_claude_on_fst (o : outside) (text : pyval)
    (t t' : list call) :
  filter is_sdk_query t = filter is_sdk_query t' ->
  fst (rewrite_with_claude_on o text t) = fst (rewrite_with_claude_on o text t').
Proof.
  intros Heq. unfold rewrite_with_claude_on, _rewrite_with_claude.
  cbn [sdk_query recorded_host_sdk]. rewrite Heq.
  destruct (raised _); [reflexivity|]. destruct (strip _); reflexivity.
Qed.

(** X18.  Without a [DEEPL_API_KEY], [rewrite_text] posts no request and
    returns what the Claude fallback returns.  With one it posts one
    request, with the key in the [Authorization] header; the value found
    in the answer is returned as it is and no query is made; and any
    failure under [Exception] on that way (the request, the status, the
    decoding, a missing [translations], an empty list) leads to the
    fallback, whose result is returned: the failure is not raised. *)
Theorem rewrite_text_routes (o : outside) (text : pyval) :
  let run := rewrite_on o text [] in
  let posts := filter is_post (snd run) in
  let queries := filter is_sdk_query (snd run) in
  let claude := fst (rewrite_with_claude_on o text []) in
  (deepl_api_key o = [] ->
   posts = [] /\ List.length queries = 1%nat /\ fst run = claude)
  /\ (deepl_api_key o <> [] ->
      posts = [deepl_request text (deepl_api_key o)]
      /\ match deepl_answer o with
         | Done v => fst run = Done v /\ queries = []
         | Failed e =>
             if fault_is_Exception e
             then fst run = claude /\ List.length queries = 1%nat
             else fst run = Failed e /\ queries = []
         end).
Proof.
  cbv zeta. rewrite rewrite_on_run. cbv zeta.
  assert (Hfallback : forall t1,
            filter is_sdk_query t1 = [] ->
            filter is_post (snd (rewrite_with_claude_on o text t1))
            = filter is_post t1
            /\ List.length
                 (filter is_sdk_query (snd (rewrite_with_claude_on o text t1)))
               = 1%nat
            /\ fst (rewrite_with_claude_on o text t1)
               = fst (rewrite_with_claude_on o text [])).
  { intros t1 Ht1.
    destruct (rewrite_with_claude_on_trace o text t1)
      as (q & Hq & Hpost & _ & ->).
    rewrite !filter_app, Ht1. cbn [filter]. rewrite Hq, Hpost, app_nil_r.
    repeat split. now apply rewrite_with_claude_on_fst. }
  split.
  - intros ->. destruct (Hfallback
      (([] ++ [Getenv (py "DEEPL_API_KEY") []])
       ++ [Logged LevelInfo (py "DeepL unavailable, using Claude fallback")])
      eq_refl) as (-> & -> & ->).
    repeat split.
  - destruct (deepl_api_key o) as [|k key]; [congruence|]. intros _.
    destruct (deepl_answer o) as [v|e].
    + repeat split.
    + destruct (fault_is_Exception e).
      * match goal with
        | |- context [rewrite_with_claude_on o text ?t1] =>
            destruct (Hfallback t1 eq_refl) as (-> & -> & ->)
        end.
        repeat split.
      * repeat split.
Qed.

Lemma rewrite_text_routes_witness :
  filter is_post (snd (rewrite_on sample_outside (PyStr (py "S")) [])) = []
  /\ List.length
       (filter is_sdk_query (snd (rewrite_on sample_outside (PyStr (py "S")) [])))
     = 1%nat
  /\ fst (rewrite_on sample_outside (PyStr (py "S")) [])
     = fst (rewrite_with_claude_on sample_outside (PyStr (py "S")) []).
Proof.
  exact (proj1 (rewrite_text_routes sample_outside (PyStr (py "S"))) eq_refl).
Defined.


(* ------------------------------------------------------------------ *)
(** ** [process_pdf] *)

(** The steps of [process_pdf], one after the other. *)
Lemma process_on_run (o : outside) (p : path) (t : list call) :
  process_on o p t
  = let t0 := t ++ [Logged LevelInfo (py "New PDF detected: " ++ path_name p)] in
    match extract_on o p t0 with
    | (Failed e, t1) => reported o p e t1
    | (Done text, t1) =>
        let t1' := t1 ++ [Logged LevelInfo
                            (py "Text extracted: "
                             ++ str_of_int (len (split text)) ++ py " words")] in
        match pipeline_host o text (path_stem p) t1' with
        | (Raise e, t2) => reported o p (Raised e) t2
        | (Ok data, t2) =>
            match get_default data (py "summary") (PyStr []) with
            | Failed e => reported o p e t2
            | Done original_summary =>
                match rewrite_on o original_summary t2 with
                | (Failed e, t3) => reported o p e t3
                | (Done rewritten_summary, t3) =>
                    match (data' <- setitem data (py "summary") rewritten_summary ;;
                           fill_template data')%outcome with
                    | Failed e => reported o p e t3
                    | Done tex_content =>
                        let tex_path := in_outbox o (path_stem p ++ py ".tex") in
                        match mkdir o with
                        | Failed e => reported o p e (t3 ++ [Mkdir])
                        | Done _ =>
                            let t4 := (t3 ++ [Mkdir])
                                      ++ [WriteText tex_path tex_content] in
                            match written o with
                            | Failed e => reported o p e t4
                            | Done _ =>
                                let t5 := t4 ++ [Logged LevelInfo
                                                   (py "LaTeX written: "
                                                    ++ path_str tex_path)] in
                                match compile_on o tex_path t5 with
                                | (Failed e, t6) => reported o p e t6
                                | (Done true, t6) =>
                                    (Done tt,
                                     t6 ++ [Logged LevelInfo
                                              (py "PDF compiled: "
                                               ++ path_str
                                                    (suffixed o tex_path
                                                       (py ".pdf")))])
                                | (Done false, t6) => (Done tt, t6)
                                end
                            end
                        end
                    end
                end
            end
        end
    end.
Proof.
  unfold process_on, process_pdf, reported, pipeline_host.
  change (@extract_text _ (recorded_host o) recorded_host_logging p)
    with (extract_on o p).
  change (@rewrite_text _ (recorded_host o) (recorded_host_sdk o)
            recorded_host_logging)
    with (rewrite_on o).
  change (@compile_latex _ (recorded_host o) recorded_host_logging)
    with (compile_on o).
  unfold of_M. run_host. cbv zeta. cbn [outbox_file with_suffix recorded_host].
  destruct (extract_on o p _) as [[text|e] t1]; [|reflexivity].
  destruct (run_pipeline text (path_stem p) _) as [[data|e] t2]; [|reflexivity].
  destruct (get_default data (py "summary") (PyStr [])) as [orig|e];
    [|reflexivity].
  destruct (rewrite_on o orig t2) as [[v|e] t3]; [|reflexivity].
  destruct (setitem data (py "summary") v) as [data'|e]; [|reflexivity].
  cbn [outcome_bind].
  destruct (fill_template data') as [tex|e]; [|reflexivity].
  destruct (mkdir o) as [[]|e]; [|reflexivity].
  destruct (written o) as [[]|e]; [|reflexivity].
  destruct (compile_on o _ _) as [[[|]|e] t6]; reflexivity.
Qed.

(** *** The pipeline on the host *)

Lemma framed_ret {A} (a : A) (t : list call) : framed (ret a) t.
Proof. intros u. reflexivity. Qed.

Lemma framed_lift {A} (r : pyres A) (t : list call) : framed (lift r) t.
Proof. intros u. reflexivity. Qed.

Lemma framed_bind {A B} (m : M (list call) A) (k : A -> M (list call) B)
    (t : list call) :
  framed m t -> (forall a, framed (k a) t) -> framed (bind m k) t.
Proof.
  intros Hm Hk u. unfold bind. rewrite Hm.
  destruct (m u) as [[a|e] u']; cbn [fst snd]; [apply Hk|reflexivity].
Qed.

Lemma framed_info (msg : pystr) (t : list call) :
  framed (@info _ recorded_host_logging msg) t.
Proof.
  intros u. unfold info, act. cbn. now rewrite app_assoc.
Qed.

Lemma framed_query (o : outside) (prompt model : pystr) (t : list call) :
  filter is_client t = [] ->
  framed (@query_claude _ (recorded_host_client o) prompt model) t.
Proof.
  intros Ht u. cbn [query_claude recorded_host_client fst snd].
  now rewrite filter_app, Ht, app_assoc.
Qed.

Lemma framed_summarise (o : outside) (t : list call) (total : Z) :
  filter is_client t = [] ->
  forall items acc,
    framed (@summarise_chunks _ (recorded_host_client o) recorded_host_logging
              items total acc) t.
Proof.
  intros Ht. induction items as [|[i c] items IH]; intros acc.
  - apply framed_ret.
  - cbn [summarise_chunks]. apply framed_bind; [apply framed_info|].
    intros _. apply framed_bind; [now apply framed_query|].
    intros summary. apply IH.
Qed.

Lemma framed_pipeline (o : outside) (text filename : pystr) (t : list call) :
  filter is_client t = [] -> framed (pipeline_host o text filename) t.
Proof.
  intros Ht. unfold pipeline_host, run_pipeline.
  apply framed_bind.
  - destruct (len (split text) >? CHUNK_SIZE).
    + apply framed_bind; [apply framed_info|]. intros _.
      apply framed_bind; [apply framed_info|]. intros _.
      apply framed_bind; [now apply framed_summarise|]. intros summaries.
      apply framed_bind; [apply framed_info|]. intros _.
      now apply framed_query.
    + now apply framed_query.
  - intros response. apply framed_bind; [apply framed_info|].
    intros _. apply framed_lift.
Qed.

Lemma adds_ret {A} (P : call -> bool) (a : A) : adds P (ret a).
Proof. intros u. exists []. now rewrite app_nil_r. Qed.

Lemma adds_lift {A} (P : call -> bool) (r : pyres A) : adds P (lift r).
Proof. intros u. exists []. now rewrite app_nil_r. Qed.

Lemma adds_bind {A B} (P : call -> bool) (m : M (list call) A)
    (k : A -> M (list call) B) :
  adds P m -> (forall a, adds P (k a)) -> adds P (bind m k).
Proof.
  intros Hm Hk u. unfold bind. destruct (Hm u) as (new & Hnew & HP).
  destruct (m u) as [[a|e] u']; cbn [snd] in *; subst u'.
  - destruct (Hk a (u ++ new)) as (new' & -> & HP').
    exists (new ++ new'). rewrite app_assoc. split; [reflexivity|].
    now rewrite forallb_app, HP, HP'.
  - now exists new.
Qed.

Lemma adds_info (msg : pystr) :
  adds is_pipeline_call (@info _ recorded_host_logging msg).
Proof. intros u. now eexists [_]. Qed.

Lemma adds_query (o : outside) (prompt model : pystr) :
  adds is_pipeline_call (@query_claude _ (recorded_host_client o) prompt model).
Proof. intros u. now eexists [_]. Qed.

Lemma adds_summarise (o : outside) (total : Z) :
  forall items acc,
    adds is_pipeline_call
      (@summarise_chunks _ (recorded_host_client o) recorded_host_logging
         items total acc).
Proof.
  induction items as [|[i c] items IH]; intros acc.
  - apply adds_ret.
  - cbn [summarise_chunks]. apply adds_bind; [apply adds_info|].
    intros _. apply adds_bind; [apply adds_query|]. intros summary. apply IH.
Qed.

Lemma adds_pipeline (o : outside) (text filename : pystr) :
  adds is_pipeline_call (pipeline_host o text filename).
Proof.
  unfold pipeline_host, run_pipeline. apply adds_bind.
  - destruct (len (split text) >? CHUNK_SIZE).
    + apply adds_bind; [apply adds_info|]. intros _.
      apply adds_bind; [apply adds_info|]. intros _.
      apply adds_bind; [apply adds_summarise|]. intros summaries.
      apply adds_bind; [apply adds_info|]. intros _. apply adds_query.
    + apply adds_query.
  - intros response. apply adds_bind; [apply adds_info|].
    intros _. apply adds_lift.
Qed.

(** *** The tools after a run *)

Lemma extract_on_frame (o : outside) (p : path) (t : list call) :
  extract_on o p t
  = (fst (extract_on o p []), t ++ snd (extract_on o p [])).
Proof.
  rewrite !extract_on_run. cbv zeta.
  assert (Hfallback : forall (e : fault) (A : Type) (f : list call -> A),
            True) by trivial.
  destruct (fitz o) as [pages|f].
  - destruct (strip (join nl pages)).
    + destruct (pdfminer o) as [text|f'];
        [destruct (strip text)|]; cbn [fst snd app];
        now rewrite <- ?app_assoc.
    + reflexivity.
  - destruct (fault_is_Exception f); [|reflexivity].
    destruct (pdfminer o) as [text|f'];
      [destruct (strip text)|]; cbn [fst snd app];
      now rewrite <- ?app_assoc.
Qed.

Lemma extract_on_writes (o : outside) (p : path) :
  writes (snd (extract_on o p [])) = []
  /\ filter is_client (snd (extract_on o p [])) = []
  /\ filter is_sdk_query (snd (extract_on o p [])) = [].
Proof.
  rewrite extract_on_run. cbv zeta.
  destruct (fitz o) as [pages|f].
  - destruct (strip (join nl pages)).
    + destruct (pdfminer o) as [text|f'];
        [destruct (strip text)|]; repeat split.
    + repeat split.
  - destruct (fault_is_Exception f); [|repeat split].
    destruct (pdfminer o) as [text|f'];
      [destruct (strip text)|]; repeat split.
Qed.

Lemma rewrite_with_claude_on_frame (o : outside) (text : pyval)
    (t : list call) :
  filter is_sdk_query t = [] ->
  rewrite_with_claude_on o text t
  = (fst (rewrite_with_claude_on o text []),
     t ++ snd (rewrite_with_claude_on o text [])).
Proof.
  intros Ht. unfold rewrite_with_claude_on, _rewrite_with_claude.
  cbn [sdk_query recorded_host_sdk]. rewrite Ht. cbn [filter List.length].
  destruct (raised _); [reflexivity|]. destruct (strip _); reflexivity.
Qed.

Lemma rewrite_on_frame (o : outside) (text : pyval) (t : list call) :
  filter is_sdk_query t = [] ->
  rewrite_on o text t = (fst (rewrite_on o text []), t ++ snd (rewrite_on o text [])).
Proof.
  intros Ht. rewrite !rewrite_on_run. cbv zeta.
  assert (Hfallback : forall u,
            filter is_sdk_query u = [] ->
            rewrite_with_claude_on o text (t ++ u)
            = (fst (rewrite_with_claude_on o text u),
               t ++ snd (rewrite_with_claude_on o text u))).
  { intros u Hu.
    rewrite (rewrite_with_claude_on_frame o text (t ++ u))
      by now rewrite filter_app, Ht, Hu.
    rewrite (rewrite_with_claude_on_frame o text u Hu). cbn [fst snd].
    now rewrite app_assoc. }
  destruct (deepl_api_key o) as [|k key].
  - rewrite <- !app_assoc. now apply Hfallback.
  - destruct (deepl_answer o) as [v|e].
    + cbn [fst snd]. now rewrite <- !app_assoc.
    + destruct (fault_is_Exception e).
      * rewrite <- !app_assoc. now apply Hfallback.
      * cbn [fst snd]. now rewrite <- !app_assoc.
Qed.

Lemma rewrite_on_writes (o : outside) (text : pyval) :
  writes (snd (rewrite_on o text [])) = [].
Proof.
  rewrite rewrite_on_run. cbv zeta.
  assert (Hfallback : forall u,
            writes u = [] -> writes (snd (rewrite_with_claude_on o text u)) = []).
  { intros u Hu.
    destruct (rewrite_with_claude_on_trace o text u) as (q & _ & _ & Hq & ->).
    unfold writes in *. rewrite filter_app, Hu. cbn. now rewrite Hq. }
  destruct (deepl_api_key o) as [|k key]; [now apply Hfallback|].
  destruct (deepl_answer o) as [v|e]; [reflexivity|].
  destruct (fault_is_Exception e); [now apply Hfallback|reflexivity].
Qed.

Lemma compile_on_run (o : outside) (tex_path : path) (t : list call) :
  exists (b : outcome bool) (new : list call),
    compile_on o tex_path t = (b, t ++ new) /\ writes new = [].
Proof.
  unfold compile_on, compile_latex. run_host.
  destruct (latexmk_found o); cbn [negb];
    [destruct (latexmk o) as [result|e];
     [destruct (returncode result =? 0)
     |destruct (is_TimeoutExpired e); [|destruct (fault_is_Exception e)]]|];
    rewrite <- ?app_assoc; eexists _, _; (split; [reflexivity|reflexivity]).
Qed.

Lemma writes_app (t u : list call) : writes (t ++ u) = writes t ++ writes u.
Proof. apply filter_app. Qed.

Lemma reported_writes (o : outside) (p : path) (e : fault) (t : list call) :
  writes (snd (reported o p e t)) = writes t.
Proof.
  unfold reported. destruct (fault_is_Exception e); [|reflexivity].
  cbn [snd]. rewrite writes_app. cbn. apply app_nil_r.
Qed.

Lemma pipeline_host_quiet (o : outside) (text filename : pystr) :
  writes (snd (pipeline_host o text filename [])) = []
  /\ filter is_sdk_query (snd (pipeline_host o text filename [])) = [].
Proof.
  destruct (adds_pipeline o text filename []) as (new & -> & Hnew).
  cbn [app]. clear -Hnew. induction new as [|c new IH]; [now split|].
  cbn [forallb] in Hnew. apply andb_prop in Hnew as [Hc Hnew].
  destruct (IH Hnew) as [IH1 IH2].
  destruct c; try discriminate Hc; cbn; now split.
Qed.

Lemma pipeline_host_frame (o : outside) (text filename : pystr)
    (t : list call) :
  filter is_client t = [] ->
  pipeline_host o text filename t
  = (fst (pipeline_host o text filename []),
     t ++ snd (pipeline_host o text filename [])).
Proof.
  intros Ht. pose proof (framed_pipeline o text filename t Ht []) as Hf.
  now rewrite app_nil_r in Hf.
Qed.

(** What [process_pdf] writes, by what its steps give. *)
Lemma process_on_writes (o : outside) (p : path) :
  writes (snd (process_on o p []))
  = match fst (extract_on o p []) with
    | Done text =>
        match fst (pipeline_host o text (path_stem p) []) with
        | Ok data =>
            match get_default data (py "summary") (PyStr []) with
            | Done original_summary =>
                match fst (rewrite_on o original_summary []) with
                | Done rewritten_summary =>
                    match (data' <- setitem data (py "summary")
                                      rewritten_summary ;;
                           fill_template data')%outcome with
                    | Done tex_content =>
                        match mkdir o with
                        | Done _ =>
                            [WriteText
                               (in_outbox o (path_stem p ++ py ".tex"))
                               tex_content]
                        | Failed _ => []
                        end
                    | Failed _ => []
                    end
                | Failed _ => []
                end
            | Failed _ => []
            end
        | Raise _ => []
        end
    | Failed _ => []
    end.
Proof.
  rewrite process_on_run. cbv zeta.
  rewrite extract_on_frame.
  destruct (extract_on_writes o p) as (Hw1 & Hc1 & Hq1).
  set (E := extract_on o p []) in *.
  destruct (fst E) as [text|e].
  2:{ rewrite reported_writes, !writes_app, Hw1. reflexivity. }
  set (t1 := ((([] ++ _) ++ snd E) ++ _)).
  assert (Ht1 : writes t1 = [] /\ filter is_client t1 = []
                /\ filter is_sdk_query t1 = []).
  { subst t1. unfold writes in *. rewrite !filter_app, Hw1, Hc1, Hq1.
    repeat split. }
  destruct Ht1 as (Hw1' & Hc1' & Hq1').
  rewrite (pipeline_host_frame o text (path_stem p) t1 Hc1').
  destruct (pipeline_host_quiet o text (path_stem p)) as (Hw2 & Hq2).
  set (P := pipeline_host o text (path_stem p) []) in *.
  destruct (fst P) as [data|e].
  2:{ rewrite reported_writes, writes_app, Hw1', Hw2. reflexivity. }
  destruct (get_default data (py "summary") (PyStr [])) as [orig|e].
  2:{ rewrite reported_writes, writes_app, Hw1', Hw2. reflexivity. }
  rewrite (rewrite_on_frame o orig (t1 ++ snd P))
    by now rewrite filter_app, Hq1', Hq2.
  pose proof (rewrite_on_writes o orig) as Hw3.
  set (R := rewrite_on o orig []) in *.
  assert (Hw3' : writes ((t1 ++ snd P) ++ snd R) = []).
  { now rewrite !writes_app, Hw1', Hw2, Hw3. }
  destruct (fst R) as [v|e].
  2:{ now rewrite reported_writes. }
  destruct (data' <- setitem data (py "summary") v ;; fill_template data')%outcome
    as [tex|e].
  2:{ now rewrite reported_writes. }
  destruct (mkdir o) as [[]|e].
  2:{ rewrite reported_writes, !writes_app, Hw1', Hw2, Hw3. reflexivity. }
  destruct (written o) as [[]|e].
  2:{ rewrite reported_writes, !writes_app, Hw1', Hw2, Hw3. reflexivity. }
  match goal with
  | |- context [compile_on o ?f ?t] =>
      destruct (compile_on_run o f t) as (b & new & -> & Hnew)
  end.
  destruct b as [[|]|e];
    rewrite ?reported_writes; cbn [snd];
    rewrite !writes_app, Hw1', Hw2, Hw3, Hnew; reflexivity.
Qed.

Lemma str_eqb_eq (a b : pystr) : str_eqb a b = true <-> a = b.
Proof.
  unfold str_eqb. destruct (list_eq_dec N.eq_dec a b); split; congruence.
Qed.

Lemma dict_get_set_same (d : list (pystr * pyval)) (k : pystr) (v : pyval) :
  dict_get (dict_set d k v) k = Some v.
Proof.
  assert (Hk : str_eqb k k = true) by now apply str_eqb_eq.
  induction d as [|[k' v'] d IH]; cbn [dict_set dict_get].
  - now rewrite Hk.
  - destruct (str_eqb k' k) eqn:Hk'; cbn [dict_get]; rewrite Hk'; auto.
Qed.

Lemma dict_get_set_other (d : list (pystr * pyval)) (k k' : pystr)
    (v : pyval) :
  k' <> k -> dict_get (dict_set d k v) k' = dict_get d k'.
Proof.
  intros Hne.
  assert (Hk : str_eqb k k' = false).
  { destruct (str_eqb k k') eqn:H; [|reflexivity].
    apply str_eqb_eq in H. congruence. }
  induction d as [|[k0 v0] d IH]; cbn [dict_set dict_get].
  - now rewrite Hk.
  - destruct (str_eqb k0 k) eqn:Hk0; cbn [dict_get].
    + apply str_eqb_eq in Hk0. subst k0. now rewrite Hk.
    + now rewrite IH.
Qed.

Lemma subscript_set_other (d : list (pystr * pyval)) (k k' : pystr)
    (v : pyval) :
  k' <> k ->
  subscript (PyDict (dict_set d k v)) k' = subscript (PyDict d) k'.
Proof.
  intros Hne. cbn [subscript]. now rewrite dict_get_set_other.
Qed.

Lemma has_items_set_other (d : list (pystr * pyval)) (k k' : pystr)
    (v : pyval) (items : list (pystr * pystr)) :
  k' <> k ->
  has_items (PyDict (dict_set d k v)) k' items
  <-> has_items (PyDict d) k' items.
Proof.
  intros Hne. unfold has_items. now rewrite subscript_set_other.
Qed.


(** X20.  When the text is extracted, the pipeline returns a [dict] with
    a [str] title and question and well-formed items, and the rewriter
    returns a [str], [process_pdf] writes the filled template with the
    rewritten summary, provided the outbox can be made.  Nothing is
    asked of the summary of the [dict]: it may be missing, in which case
    the empty string is what is sent to be rewritten. *)
Theorem process_pdf_summary (o : outside) (p : path) (text : pystr)
    (d : list (pystr * pyval)) (title summary question : pystr)
    (contributions limitations : list (pystr * pystr)) :
  fst (extract_on o p []) = Done text ->
  fst (pipeline_host o text (path_stem p) []) = Ok (PyDict d) ->
  fst (rewrite_on o match dict_get d (py "summary") with
                    | Some original => original
                    | None => PyStr []
                    end [])
  = Done (PyStr summary) ->
  subscript (PyDict d) (py "title") = Done (PyStr title) ->
  has_items (PyDict d) (py "contributions") contributions ->
  has_items (PyDict d) (py "limitations") limitations ->
  subscript (PyDict d) (py "question") = Done (PyStr question) ->
  mkdir o = Done tt ->
  writes (snd (process_on o p []))
  = [WriteText (in_outbox o (path_stem p ++ py ".tex"))
       (template_with (escaped title) (escaped summary)
          (join nl (map line_of contributions))
          (join nl (map line_of limitations))
          (escaped question))].
Proof.
  intros He Hp Hr Htitle Hc Hl Hq Hmkdir.
  rewrite process_on_writes, He, Hp. cbn [get_default].
  assert (Hget : match dict_get d (py "summary") with
                 | Some x => Done x
                 | None => Done (PyStr [])
                 end
                 = Done match dict_get d (py "summary") with
                        | Some original => original
                        | None => PyStr []
                        end)
    by now destruct (dict_get d (py "summary")).
  rewrite Hget, Hr. cbn [setitem outcome_bind].
  rewrite (fill_template_values
             (PyDict (dict_set d (py "summary") (PyStr summary)))
             title summary question contributions limitations).
  - rewrite (replacements_fill (escaped title) (escaped summary)
               (join nl (map line_of contributions))
               (join nl (map line_of limitations)) (escaped question)
               (guarded_escaped _) (guarded_escaped _) (guarded_lines _)
               (guarded_lines _) (guarded_escaped _)).
    now rewrite Hmkdir.
  - now rewrite subscript_set_other by discriminate.
  - cbn [subscript]. now rewrite dict_get_set_same.
  - apply has_items_set_other; [discriminate|exact Hc].
  - apply has_items_set_other; [discriminate|exact Hl].
  - now rewrite subscript_set_other by discriminate.
Qed.

Lemma process_pdf_summary_witness :
  writes (snd (process_on sample_outside sample_pdf []))
  = [WriteText (mkPath (py "/out/a.tex") (py "a.tex") [] [] (py "/out"))
       (template_with (py "T\_1") (py "Better.") [] [] (py "Q?"))].
Proof.
  refine (process_pdf_summary sample_outside sample_pdf (py "AB")
            [ (py "title", PyStr (py "T_1"));
              (py "contributions", PyList []);
              (py "limitations", PyList []);
              (py "question", PyStr (py "Q?")) ]
            (py "T_1") (py "Better.") (py "Q?") [] [] _ _ _ _ _ _ _ _).
  - vm_compute. reflexivity.
  - vm_compute. reflexivity.
  - vm_compute. reflexivity.
  - reflexivity.
  - eexists _, _. split; [reflexivity|]. split; [reflexivity|]. constructor.
  - eexists _, _. split; [reflexivity|]. split; [reflexivity|]. constructor.
  - reflexivity.
  - reflexivity.
Defined.

(** X21.  Whatever the libraries, the model and the file system do,
    [process_pdf] returns normally, unless a step fails with an
    exception that is not under [Exception] (a cancellation, an
    interrupt), which goes through as it is: a paper that cannot be
    processed does not stop the caller. *)
Theorem process_pdf_contains_failures (o : outside) (p : path)
    (t : list call) :
  let run := process_on o p t in
  fst run = Done tt
  \/ exists e, fst run = Failed e /\ fault_is_Exception e = false.
Proof.
  cbv zeta. rewrite process_on_run. cbv zeta.
  assert (Hreported : forall e u,
            fst (reported o p e u) = Done tt
            \/ exists e', fst (reported o p e u) = Failed e'
                          /\ fault_is_Exception e' = false).
  { intros e u. unfold reported.
    destruct (fault_is_Exception e) eqn:He; [now left|].
    right. now exists e. }
  destruct (extract_on o p _) as [[text|e] t1]; [|apply Hreported].
  destruct (pipeline_host o text (path_stem p) _) as [[data|e] t2];
    [|apply Hreported].
  destruct (get_default data (py "summary") (PyStr [])) as [orig|e];
    [|apply Hreported].
  destruct (rewrite_on o orig t2) as [[v|e] t3]; [|apply Hreported].
  destruct (data' <- setitem data (py "summary") v ;; fill_template data')%outcome
    as [tex|e]; [|apply Hreported].
  destruct (mkdir o) as [[]|e]; [|apply Hreported].
  destruct (written o) as [[]|e]; [|apply Hreported].
  destruct (compile_on o _ _) as [[[|]|e] t6];
    [now left|now left|apply Hreported].
Qed.


(* ------------------------------------------------------------------ *)
(** ** [compile_latex] *)

(** X22.  [compile_latex] returns [True] exactly when [latexmk] is found
    and its run ends with code 0.  When [latexmk] is not found it runs
    nothing and returns [False] after one line in the log.  It never
    fails with an exception under [Exception]: a run that raises one, a
    timeout among them, gives [False]. *)
Theorem compile_latex_contract (o : outside) (tex_path : path)
    (t : list call) :
  let run := compile_on o tex_path t in
  (fst run = Done true
   <-> latexmk_found o = true
       /\ exists r, latexmk o = Done r /\ returncode r = 0)
  /\ (latexmk_found o = false ->
      run = (Done false,
             t ++ [ Which (py "latexmk");
                    Logged LevelInfo
                      (py "latexmk not installed, skipping PDF compilation") ]))
  /\ (fst run = Done true \/ fst run = Done false
      \/ exists e, fst run = Failed e /\ fault_is_Exception e = false).
Proof.
  cbv zeta. unfold compile_on, compile_latex. run_host.
  destruct (latexmk_found o); cbn [negb].
  - destruct (latexmk o) as [r|e].
    + destruct (returncode r =? 0) eqn:Hr.
      * apply Z.eqb_eq in Hr. split; [|split; [discriminate|now left]].
        split; [intros _; split; [reflexivity|now exists r]|reflexivity].
      * apply Z.eqb_neq in Hr. split; [|split; [discriminate|right; now left]].
        split; [discriminate|].
        intros (_ & r' & [= <-] & Hr'). contradiction.
    + destruct (is_TimeoutExpired e).
      * split; [|split; [discriminate|right; now left]].
        split; [discriminate|]. intros (_ & r' & [=] & _).
      * destruct (fault_is_Exception e) eqn:He.
        -- split; [|split; [discriminate|right; now left]].
           split; [discriminate|]. intros (_ & r' & [=] & _).
        -- split; [|split; [discriminate|right; right; now exists e]].
           split; [discriminate|]. intros (_ & r' & [=] & _).
  - split; [|split; [intros _; now rewrite <- app_assoc|right; now left]].
    split; [discriminate|]. intros ([=] & _).
Qed.

Lemma compile_latex_contract_witness :
  compile_on sample_outside sample_pdf []
  = (Done false,
     [] ++ [ Which (py "latexmk");
             Logged LevelInfo
               (py "latexmk not installed, skipping PDF compilation") ]).
Proof.
  exact (proj1 (proj2 (compile_latex_contract sample_outside sample_pdf []))
           eq_refl).
Defined.

(* ------------------------------------------------------------------ *)
(** ** [on_created] *)

Lemma wait_host_extends (o : outside) (file : pystr) (checks : Z)
    (interval : pyfloat) :
  forall todo prev_size stable t,
    exists new,
      snd (@wait_loop _ (recorded_host_files o) todo file checks interval
             prev_size stable t)
      = t ++ new.
Proof.
  induction todo as [|todo IH]; intros prev_size stable t.
  - exists []. cbn. now rewrite app_nil_r.
  - cbn [wait_loop path_stat time_sleep recorded_host_files].
    destruct (sizes o _) as [size| |e].
    + destruct ((size >? 0) && (size =? prev_size)).
      * destruct (stable + 1 >=? checks); [now eexists|].
        destruct (IH size (stable + 1)
                    ((t ++ [StatSizeOf file]) ++ [Slept interval]))
          as [new ->].
        eexists. rewrite <- !app_assoc. reflexivity.
      * destruct (IH size 0 ((t ++ [StatSizeOf file]) ++ [Slept interval]))
          as [new ->].
        eexists. rewrite <- !app_assoc. reflexivity.
    + now eexists.
    + now eexists.
Qed.

Lemma wait_host_first (o : outside) (file : pystr) (checks : Z)
    (interval : pyfloat) (todo : nat) (prev_size stable : Z)
    (t : list call) :
  exists new,
    snd (@wait_loop _ (recorded_host_files o) (S todo) file checks interval
           prev_size stable t)
    = t ++ StatSizeOf file :: new.
Proof.
  cbn [wait_loop path_stat time_sleep recorded_host_files].
  destruct (sizes o _) as [size| |e]; [|now exists []|now exists []].
  destruct ((size >? 0) && (size =? prev_size)).
  - destruct (stable + 1 >=? checks); [now exists []|].
    destruct (wait_host_extends o file checks interval todo size (stable + 1)
                ((t ++ [StatSizeOf file]) ++ [Slept interval])) as [new ->].
    eexists. rewrite <- !app_assoc. reflexivity.
  - destruct (wait_host_extends o file checks interval todo size 0
                ((t ++ [StatSizeOf file]) ++ [Slept interval])) as [new ->].
    eexists. rewrite <- !app_assoc. reflexivity.
Qed.

Lemma reported_extends (o : outside) (p : path) (e : fault) (t u : list call) :
  exists new, snd (reported o p e (t ++ u)) = t ++ new.
Proof.
  unfold reported. destruct (fault_is_Exception e); cbn [snd].
  - eexists. rewrite <- app_assoc. reflexivity.
  - now eexists.
Qed.

Lemma rewrite_on_extends (o : outside) (text : pyval) (t : list call) :
  exists new, snd (rewrite_on o text t) = t ++ new.
Proof.
  rewrite rewrite_on_run. cbv zeta.
  assert (Hfallback : forall u,
            exists new, snd (rewrite_with_claude_on o text (t ++ u)) = t ++ new).
  { intros u.
    destruct (rewrite_with_claude_on_trace o text (t ++ u)) as (q & _ & _ & _ & ->).
    eexists. rewrite <- app_assoc. reflexivity. }
  destruct (deepl_api_key o) as [|k key].
  - rewrite <- app_assoc. apply Hfallback.
  - destruct (deepl_answer o) as [v|e].
    + cbn [snd]. eexists. rewrite <- app_assoc. reflexivity.
    + destruct (fault_is_Exception e).
      * rewrite <- !app_assoc. apply Hfallback.
      * cbn [snd]. eexists. rewrite <- app_assoc. reflexivity.
Qed.

Lemma process_on_extends (o : outside) (p : path) (t : list call) :
  exists new, snd (process_on o p t) = t ++ new.
Proof.
  rewrite process_on_run. cbv zeta. rewrite extract_on_frame.
  destruct (fst (extract_on o p [])) as [text|e].
  2:{ rewrite <- app_assoc. apply reported_extends. }
  match goal with
  | |- context [pipeline_host o text (path_stem p) ?t1] =>
      destruct (adds_pipeline o text (path_stem p) t1) as (new2 & H2 & _);
      destruct (pipeline_host o text (path_stem p) t1) as [[data|e] t2]
  end; cbn [snd] in H2; subst t2.
  2:{ rewrite <- !app_assoc. apply reported_extends. }
  destruct (get_default data (py "summary") (PyStr [])) as [orig|e].
  2:{ rewrite <- !app_assoc. apply reported_extends. }
  match goal with
  | |- context [rewrite_on o orig ?t2] =>
      destruct (rewrite_on_extends o orig t2) as (new3 & H3);
      destruct (rewrite_on o orig t2) as [[v|e] t3]
  end; cbn [snd] in H3; subst t3.
  2:{ rewrite <- !app_assoc. apply reported_extends. }
  destruct (data' <- setitem data (py "summary") v ;; fill_template data')%outcome
    as [tex|e].
  2:{ rewrite <- !app_assoc. apply reported_extends. }
  destruct (mkdir o) as [[]|e].
  2:{ rewrite <- !app_assoc. apply reported_extends. }
  destruct (written o) as [[]|e].
  2:{ rewrite <- !app_assoc. apply reported_extends. }
  match goal with
  | |- context [compile_on o ?f ?t5] =>
      destruct (compile_on_run o f t5) as (b & new6 & -> & _)
  end.
  destruct b as [[|]|e]; cbn [snd].
  - eexists. rewrite <- !app_assoc. reflexivity.
  - eexists. rewrite <- !app_assoc. reflexivity.
  - rewrite <- !app_assoc. apply reported_extends.
Qed.

Lemma is_temp_file_pdf (p : path) (c : N) (rest : pystr) :
  lower (path_suffix p) = py ".pdf" ->
  path_name p = c :: rest ->
  is_temp_file p = Done ((c =? 46)%N || (c =? 126)%N).
Proof.
  intros Hs Hn. unfold is_temp_file. rewrite Hs, Hn.
  change (in_set (py ".pdf") IGNORE_EXTENSIONS) with false. cbv iota.
  unfold subscript_int.
  replace ((0 <=? 0) && (0 <? len (c :: rest))) with true.
  2:{ symmetry. apply andb_true_iff. split; [reflexivity|].
      apply Z.ltb_lt. unfold len. cbn [List.length]. lia. }
  cbn [Z.to_nat nth_error outcome_bind]. f_equal.
  unfold in_set, IGNORE_PREFIXES. cbn [existsb].
  change (py ".") with [46%N]. change (py "~") with [126%N].
  rewrite orb_false_r. f_equal.
  - destruct (N.eqb_spec c 46) as [->|Hne]; [reflexivity|].
    destruct (str_eqb [c] [46%N]) eqn:H; [|reflexivity].
    apply str_eqb_eq in H. congruence.
  - destruct (N.eqb_spec c 126) as [->|Hne]; [reflexivity|].
    destruct (str_eqb [c] [126%N]) eqn:H; [|reflexivity].
    apply str_eqb_eq in H. congruence.
Qed.

(** X23.  [on_created] does nothing at all for a directory and for a
    path whose suffix, in lower case, is not [.pdf].  For the other
    paths the extensions of [IGNORE_EXTENSIONS] play no part: a name
    that starts with a dot or a tilde gives one line in the log and
    nothing else, and any other name has the size of the file read
    first. *)
Theorem on_created_examines (o : outside) (is_directory : bool) (p : path) :
  let run := on_created_on o is_directory p [] in
  let candidate := is_directory = false /\ lower (path_suffix p) = py ".pdf" in
  (~ candidate -> run = (Done tt, []))
  /\ (candidate ->
      forall c rest, path_name p = c :: rest ->
        if (c =? 46)%N || (c =? 126)%N
        then run = (Done tt,
                    [Logged LevelInfo (py "Ignored temp file: " ++ path_name p)])
        else exists others, snd run = StatSizeOf (path_str p) :: others).
Proof.
  cbv zeta. unfold on_created_on, on_created. split.
  - intros Hno. destruct is_directory; [reflexivity|].
    destruct (str_eqb (lower (path_suffix p)) (py ".pdf")) eqn:Hs;
      [|reflexivity].
    apply str_eqb_eq in Hs. destruct Hno. now split.
  - intros [-> Hs] c rest Hn.
    assert (Hs' : str_eqb (lower (path_suffix p)) (py ".pdf") = true)
      by now apply str_eqb_eq.
    rewrite Hs'. cbn [negb]. run_host.
    rewrite (is_temp_file_pdf p c rest Hs Hn).
    destruct ((c =? 46)%N || (c =? 126)%N); [reflexivity|].
    unfold of_M, wait_for_complete.
    change (Z.to_nat (3 + 2)) with 5%nat.
    destruct (wait_host_first o (path_str p) 3 (FloatOf (py "1.0")) 4 (-1) 0 [])
      as [new Hnew].
    destruct (wait_loop 5 (path_str p) 3 (FloatOf (py "1.0")) (-1) 0 [])
      as [[[|]|e] t1]; cbn [snd app] in Hnew; subst t1.
    + change (@process_pdf _ (recorded_host o) (recorded_host_sdk o)
                recorded_host_logging (recorded_host_client o)
                (interpreter o) p)
        with (process_on o p).
      destruct (process_on_extends o p (StatSizeOf (path_str p) :: new))
        as [new' ->].
      now eexists.
    + now eexists.
    + now eexists.
Qed.

Lemma on_created_examines_witness :
  exists others,
    snd (on_created_on sample_outside false sample_pdf [])
    = StatSizeOf (py "/in/a.pdf") :: others.
Proof.
  exact (proj2 (on_created_examines sample_outside false sample_pdf)
           (conj eq_refl eq_refl) 97%N (py ".pdf") eq_refl).
Defined.


(* ------------------------------------------------------------------ *)
(** ** The cost of a run of the pipeline *)

Lemma total_app (a b : list Z) : total (a ++ b) = total a + total b.
Proof.
  unfold total. induction a as [|x a IH]; cbn [app fold_right]; lia.
Qed.

(** One call of the client of [pipeline.py]: at most three queries and
    at most 180 seconds of sleep. *)
Lemma client_budget (backend : nat -> pystr -> pystr -> stream)
    (prompt model : pystr) (t : trace) :
  exists new,
    snd (@query_claude trace
           (@pipeline_client trace (scripted_sdk backend) recorded_logging)
           prompt model t) = t ++ new
    /\ (1 <= queries_made new <= 3)%nat
    /\ 0 <= total (sleeps new) <= 180.
Proof.
  cbn [query_claude pipeline_client]. unfold _query_claude.
  change (py_range 3) with (map Z.of_nat (seq 0 3)).
  destruct (@attempts trace (scripted_sdk backend) recorded_logging
              (map Z.of_nat (seq 0 3)) prompt model 3 t) as [r t'] eqn:Hrun.
  apply attempts_shape in Hrun; [|reflexivity].
  destruct Hrun as (k & Hk & ->). cbn [snd]. eexists. split; [reflexivity|].
  rewrite queries_made_app, queries_made_backoff, sleeps_app, sleeps_backoff,
    total_app, total_schedule.
  cbn [queries_made filter is_query List.length sleeps flat_map app total
       fold_right].
  split; [lia|nia].
Qed.

Lemma info_budget (msg : pystr) (t : trace) :
  snd (@info trace recorded_logging msg t) = t ++ [Info msg].
Proof. reflexivity. Qed.

Lemma summarise_budget (backend : nat -> pystr -> pystr -> stream)
    (total_chunks : Z) :
  forall items acc t,
    exists new,
      snd (@summarise_chunks trace
             (@pipeline_client trace (scripted_sdk backend) recorded_logging)
             recorded_logging items total_chunks acc t) = t ++ new
      /\ (queries_made new <= 3 * List.length items)%nat
      /\ 0 <= total (sleeps new) <= 180 * len items.
Proof.
  induction items as [|[i c] items IH]; intros acc t.
  - exists []. cbn. rewrite app_nil_r. repeat split; lia.
  - cbn [summarise_chunks]. unfold bind at 1. rewrite (surjective_pairing (info _ t)).
    cbn [info act fst snd recorded_logging logging_info].
    unfold bind at 1.
    destruct (client_budget backend
                (_build_chunk_prompt c (i + 1) total_chunks) CHUNK_MODEL
                (t ++ [Info (py "Summarising chunk " ++ str_of_int (i + 1)
                              ++ py "/" ++ str_of_int total_chunks ++ py "...")]))
      as (new1 & Hnew1 & Hq1 & Hs1).
    destruct (query_claude _ CHUNK_MODEL _) as [[summary|e] t1];
      cbn [snd] in Hnew1; subst t1.
    + destruct (IH (acc ++ [summary]) ((t ++ [Info (py "Summarising chunk "
                  ++ str_of_int (i + 1) ++ py "/" ++ str_of_int total_chunks
                  ++ py "...")]) ++ new1)) as (new2 & -> & Hq2 & Hs2).
      eexists. split; [rewrite <- !app_assoc; reflexivity|].
      rewrite !queries_made_app, !sleeps_app, !total_app.
      cbn [queries_made filter is_query List.length sleeps flat_map app
           total fold_right].
      unfold len in *. cbn [List.length]. split; lia.
    + cbn [snd]. eexists. split; [rewrite <- !app_assoc; reflexivity|].
      rewrite !queries_made_app, !sleeps_app, !total_app.
      cbn [queries_made filter is_query List.length sleeps flat_map app
           total fold_right].
      unfold len in *. cbn [List.length]. split; lia.
Qed.

Lemma pipeline_backend_budget `{Interpreter}
    (backend : nat -> pystr -> pystr -> stream)
    (text filename : pystr) :
  exists new,
    snd (pipeline_on_backend backend text filename []) = new
    /\ Z.of_nat (queries_made new)
       <= 3 * (if len (split text) >? CHUNK_SIZE
               then len (_chunk_text text) + 1 else 1)
    /\ total (sleeps new)
       <= 180 * (if len (split text) >? CHUNK_SIZE
                 then len (_chunk_text text) + 1 else 1).
Proof.
  unfold pipeline_on_backend, run_pipeline.
  assert (Htail : forall (r : pyres pystr) (t : trace),
            exists extra,
              snd (match r with
                   | Ok response =>
                       bind (@info trace recorded_logging (py "Summary generated"))
                         (fun _ => lift (_extract_json response)) t
                   | Raise e => (Raise e, t)
                   end) = t ++ extra
              /\ queries_made extra = 0%nat /\ total (sleeps extra) = 0).
  { intros [response|e] t.
    - exists [Info (py "Summary generated")]. repeat split.
    - exists []. cbn. rewrite app_nil_r. repeat split. }
  unfold bind at 1.
  destruct (len (split text) >? CHUNK_SIZE).
  - unfold bind at 1. cbn [info act fst snd recorded_logging logging_info].
    unfold bind at 1. cbn [info act fst snd recorded_logging logging_info].
    unfold bind at 1.
    match goal with
    | |- context [@summarise_chunks ?W ?C ?L ?items ?n ?acc ?t] =>
        destruct (summarise_budget backend n items acc t)
          as (new1 & Hnew1 & Hq1 & Hs1);
        destruct (@summarise_chunks W C L items n acc t)
          as [[summaries|e] t1]
    end; cbn [snd] in Hnew1; subst t1.
    + unfold bind at 1.
      cbn [info act fst snd recorded_logging logging_info].
      match goal with
      | |- context [@query_claude ?W ?C ?p ?m ?t] =>
          destruct (client_budget backend p m t) as (new2 & Hnew2 & Hq2 & Hs2);
          destruct (@query_claude W C p m t) as [r t2]
      end; cbn [snd] in Hnew2; subst t2.
      match goal with
      | |- context [match r with Ok _ => _ | Raise e => (Raise e, ?t) end] =>
          destruct (Htail r t) as (extra & Hextra & Hq3 & Hs3)
      end.
      eexists. split; [destruct r; exact Hextra|].
      rewrite !queries_made_app, !sleeps_app, !total_app, Hq3, Hs3.
      cbn [queries_made filter is_query List.length sleeps flat_map app
           total fold_right] in *.
      unfold len in *. rewrite ?enumerate_length in *. split; lia.
    + cbn [snd]. eexists. split; [reflexivity|].
      rewrite !queries_made_app, !sleeps_app, !total_app.
      cbn [queries_made filter is_query List.length sleeps flat_map app
           total fold_right] in *.
      unfold len in *. rewrite ?enumerate_length in *. split; lia.
  - match goal with
    | |- context [@query_claude ?W ?C ?p ?m ?t] =>
        destruct (client_budget backend p m t) as (new2 & Hnew2 & Hq2 & Hs2);
        destruct (@query_claude W C p m t) as [r t2]
    end; cbn [snd app] in Hnew2; subst t2.
    destruct (Htail r new2) as (extra & Hextra & Hq3 & Hs3).
    eexists. split; [destruct r; exact Hextra|].
    rewrite !queries_made_app, !sleeps_app, !total_app, Hq3, Hs3. split; lia.
Qed.

(** X24.  Whatever the SDK answers, a run of [run_pipeline] with
    [_query_claude] as its client makes at most three queries and
    sleeps at most 180 seconds for each of its calls of the model: one
    call for a text within the budget, one for each chunk and one more
    for a text over it. *)
Theorem run_pipeline_budget `{Interpreter}
    (backend : nat -> pystr -> pystr -> stream)
    (text filename : pystr) :
  let run := pipeline_on_backend backend text filename [] in
  let calls :=
    if len (split text) >? CHUNK_SIZE then len (_chunk_text text) + 1 else 1 in
  Z.of_nat (queries_made (snd run)) <= 3 * calls
  /\ total (sleeps (snd run)) <= 180 * calls.
Proof.
  cbv zeta.
  destruct (pipeline_backend_budget backend text filename)
    as (new & -> & Hq & Hs).
  now split.
Qed.
